(** * Aurora: a shallow embedding of the prediction pipeline

    The development follows the TypeScript sources of the Aurora subsystem
    (clock and calendar, risk projection, the Parallax engines, the Praxis
    genetic solver, the backtest replay, the daemon and the reconciler) and
    states the properties of the specification over that embedding.

    Conventions of the embedding.
    - A JavaScript [number] that carries a price, a weight or a confidence is
      an exact rational ([Q]); equality of such numbers is [Qeq] ([==]).
      Rounding of binary floating point is not modelled; the decimal rounding
      the code asks for ([toFixed], [Math.round], [Math.ceil], [Math.floor])
      is.
    - Clock fields, timestamps (epoch milliseconds), row identifiers and
      array lengths are integers ([Z], [nat]).
    - [T | null] is [option T]; string enumerations are inductive types.
    - The database is an explicit value threaded through every operation;
      a table is the list of its rows in insertion order.
    - [Math.random()] reads an oracle [nat -> Q] at a counter.
    - Where the code may divide by zero and goes on with [Infinity] or
      [NaN], the case is written out ([JS.ratioBelow],
      [Parallax.breakoutBonus]); every other division is guarded by the code
      itself.
    - Vendor and database calls succeed; one scheduler tick, one grader run
      and one expiry sweep are each a single step on the state. *)

From Stdlib Require Import ZArith QArith Qround Qabs Qminmax Lqa Lia.
From Stdlib Require Import List String Bool.
From stdpp Require Import base decidable option list gmap strings.
Import ListNotations.

Local Open Scope Z_scope.

(** ** JavaScript numeric primitives on exact rationals *)

Module JS.

Local Open Scope Q_scope.

(** [a < b], [a <= b], [a === b] on numbers, as booleans. *)
Definition ltb (a b : Q) : bool :=
  match a ?= b with Lt => true | _ => false end.
Definition leb (a b : Q) : bool :=
  match a ?= b with Gt => false | _ => true end.
Definition eqb (a b : Q) : bool :=
  match a ?= b with Eq => true | _ => false end.

(** [Math.max], [Math.min], [Math.abs]. *)
Definition max (a b : Q) : Q := if ltb a b then b else a.
Definition min (a b : Q) : Q := if ltb b a then b else a.
Definition abs (a : Q) : Q := Qabs a.

(** [Math.floor], [Math.ceil], [Math.round] (halves go up). *)
Definition floor (a : Q) : Z := Qfloor a.
Definition ceil (a : Q) : Z := Qceiling a.
Definition round (a : Q) : Z := Qfloor (a + (1 # 2)).

(** [Number(x.toFixed(2))]: the nearest multiple of 1/100, the larger one
    on a tie. *)
Definition toFixed2 (a : Q) : Q := inject_Z (Qfloor (a * 100 + (1 # 2))) / 100.

(** [a / b < c] for a numerator that is not negative: with [b] zero the
    quotient is [Infinity] or [NaN] and the comparison is false. *)
Definition ratioBelow (a b c : Q) : bool :=
  if eqb b 0 then false else ltb (a / b) c.

(** [x ?? d]. *)
Definition orElse {A} (x : option A) (d : A) : A :=
  match x with Some v => v | None => d end.

End JS.

(** ** server/aurora/time.ts *)

Inductive MarketSession :=
| CLOSED_WEEKEND | CLOSED_HOLIDAY | SESSION_CLOSED | PRE_MARKET
| OPENING_RANGE | MORNING | AFTERNOON | POWER_HOUR | OPEN.

(** What the code reads of a luxon [DateTime] in the market time zone: the
    instant (epoch milliseconds), the local calendar date formatted
    [yyyy-MM-dd], the ISO weekday (1 = Monday .. 7 = Sunday) and the local
    wall-clock fields. *)
Record DateTime := mkDateTime {
  ts : Z;
  dateStr : string;
  weekday : Z;
  hour : Z;
  minute : Z;
  second : Z;
  millisecond : Z
}.

Module MarketTime.

(** [MarketTime.now()] reads the clock; the reading is the argument [now]
    of every function below. *)

Definition totalMinutes (now : DateTime) : Z := hour now * 60 + minute now.

Definition closeTime (now : DateTime) (halfDays : gset string) : Z :=
  if decide (dateStr now ∈ halfDays) then 780 else 960.

Definition getSession (now : DateTime) (holidays halfDays : gset string)
  : MarketSession :=
  if 5 <? weekday now then CLOSED_WEEKEND
  else if decide (dateStr now ∈ holidays) then CLOSED_HOLIDAY
  else
    let totalMinutes := totalMinutes now in
    let closeTime := closeTime now halfDays in
    if (closeTime <=? totalMinutes) || (totalMinutes <? 240) then SESSION_CLOSED
    else if (240 <=? totalMinutes) && (totalMinutes <? 570) then PRE_MARKET
    else if (570 <=? totalMinutes) && (totalMinutes <? Z.min 600 closeTime)
      then OPENING_RANGE
    else if (600 <=? totalMinutes) && (totalMinutes <? Z.min 720 closeTime)
      then MORNING
    else if (720 <=? totalMinutes) && (totalMinutes <? Z.min 780 closeTime)
      then AFTERNOON
    else if (780 <=? totalMinutes) && (totalMinutes <? closeTime)
      then POWER_HOUR
    else if (570 <=? totalMinutes) && (totalMinutes <? closeTime) then OPEN
    else SESSION_CLOSED.

Definition isPreMarket (now : DateTime) (holidays : gset string) : bool :=
  if 5 <? weekday now then false
  else if decide (dateStr now ∈ holidays) then false
  else (240 <=? totalMinutes now) && (totalMinutes now <? 570).

Definition isTradingHours (now : DateTime) (holidays halfDays : gset string)
  : bool :=
  if 5 <? weekday now then false
  else if decide (dateStr now ∈ holidays) then false
  else (570 <=? totalMinutes now) && (totalMinutes now <? closeTime now halfDays).

(** [dt.set({hour: 9, minute: 30, second: 0, millisecond: 0})]: the same
    local date at 09:30:00.000.  No daylight-saving change falls between
    two wall-clock times of a trading day, so the instant moves by the
    wall-clock difference. *)
Definition getMarketOpen (dt : DateTime) : DateTime :=
  {| ts := ts dt
           - (((hour dt * 60 + minute dt) * 60 + second dt) * 1000 + millisecond dt)
           + (9 * 60 + 30) * 60000;
     dateStr := dateStr dt; weekday := weekday dt;
     hour := 9; minute := 30; second := 0; millisecond := 0 |}.

(** [dt.plus({minutes: n})] for an [n] that stays within the day. *)
Definition plusMinutes (dt : DateTime) (n : Z) : DateTime :=
  let m := hour dt * 60 + minute dt + n in
  {| ts := ts dt + n * 60000;
     dateStr := dateStr dt; weekday := weekday dt;
     hour := m / 60; minute := m mod 60;
     second := second dt; millisecond := millisecond dt |}.

Definition isFriday (dt : DateTime) : bool := weekday dt =? 5.

Definition getDetailedSession (now : DateTime) (holidays halfDays : gset string)
  : MarketSession :=
  if 5 <? weekday now then CLOSED_WEEKEND
  else if decide (dateStr now ∈ holidays) then CLOSED_HOLIDAY
  else
    let totalMinutes := totalMinutes now in
    let closeTime := closeTime now halfDays in
    if (closeTime <=? totalMinutes) || (totalMinutes <? 240) then SESSION_CLOSED
    else if (240 <=? totalMinutes) && (totalMinutes <? 570) then PRE_MARKET
    else if (570 <=? totalMinutes) && (totalMinutes <? Z.min 600 closeTime)
      then OPENING_RANGE
    else if (600 <=? totalMinutes) && (totalMinutes <? Z.min 720 closeTime)
      then MORNING
    else if (720 <=? totalMinutes) && (totalMinutes <? Z.min 780 closeTime)
      then AFTERNOON
    else if (780 <=? totalMinutes) && (totalMinutes <? closeTime)
      then POWER_HOUR
    else SESSION_CLOSED.

Definition isMarketOpen (now : DateTime) (holidays halfDays : gset string)
  : bool :=
  isTradingHours now holidays halfDays.

(** [dt.set({hour: h, minute: m, second: 0, millisecond: 0})], as in
    [getMarketOpen]. *)
Definition setClock (dt : DateTime) (h m : Z) : DateTime :=
  {| ts := ts dt
           - (((hour dt * 60 + minute dt) * 60 + second dt) * 1000 + millisecond dt)
           + (h * 60 + m) * 60000;
     dateStr := dateStr dt; weekday := weekday dt;
     hour := h; minute := m; second := 0; millisecond := 0 |}.

Definition getMarketClose (dt : DateTime) (isHalfDay : bool) : DateTime :=
  let closeHour := if isHalfDay then 13 else 16 in
  setClock dt closeHour 0.

Definition getIBEnd (dt : DateTime) : DateTime := setClock dt 10 30.

Definition getORBEnd (dt : DateTime) : DateTime := setClock dt 10 0.

(** [a.diff(b, "minutes").minutes]: the difference of the two instants in
    minutes, fractions included. *)
Definition diffMinutes (a b : DateTime) : Q := inject_Z (ts a - ts b) / 60000.

Definition minutesSinceOpen (dt : DateTime) : Q :=
  let open := getMarketOpen dt in
  diffMinutes dt open.

Definition minutesToClose (dt : DateTime) (isHalfDay : bool) : Q :=
  let close := getMarketClose dt isHalfDay in
  diffMinutes close dt.

Definition getTodayET (now : DateTime) : string := dateStr now.

End MarketTime.

(** ** server/aurora/calendar.ts *)

Module MarketCalendar.

Local Open Scope string_scope.

Definition HOLIDAYS_2024 : list string :=
  ["2024-01-01"; "2024-01-15"; "2024-02-19"; "2024-03-29"; "2024-05-27";
   "2024-06-19"; "2024-07-04"; "2024-09-02"; "2024-11-28"; "2024-12-25"].
Definition HALF_DAYS_2024 : list string :=
  ["2024-07-03"; "2024-11-29"; "2024-12-24"].
Definition HOLIDAYS_2025 : list string :=
  ["2025-01-01"; "2025-01-20"; "2025-02-17"; "2025-04-18"; "2025-05-26";
   "2025-06-19"; "2025-07-04"; "2025-09-01"; "2025-11-27"; "2025-12-25"].
Definition HALF_DAYS_2025 : list string :=
  ["2025-07-03"; "2025-11-28"; "2025-12-24"].
Definition HOLIDAYS_2026 : list string :=
  ["2026-01-01"; "2026-01-19"; "2026-02-16"; "2026-04-03"; "2026-05-25";
   "2026-06-19"; "2026-07-03"; "2026-09-07"; "2026-11-26"; "2026-12-25"].
Definition HALF_DAYS_2026 : list string :=
  ["2026-07-02"; "2026-11-27"; "2026-12-24"].

Definition ALL_HOLIDAYS : gset string :=
  list_to_set (HOLIDAYS_2024 ++ HOLIDAYS_2025 ++ HOLIDAYS_2026).
Definition ALL_HALF_DAYS : gset string :=
  list_to_set (HALF_DAYS_2024 ++ HALF_DAYS_2025 ++ HALF_DAYS_2026).

Inductive DayType := HOLIDAY | WEEKEND | HALF_DAY | NORMAL.

(** [getDayType(MarketTime.getTodayET())]: the weekday of the date string
    is the weekday of the clock reading it was formatted from. *)
Definition getDayType (today : DateTime) : DayType :=
  if decide (dateStr today ∈ ALL_HOLIDAYS) then HOLIDAY
  else if (5 <? weekday today)%Z then WEEKEND
  else if decide (dateStr today ∈ ALL_HALF_DAYS) then HALF_DAY
  else NORMAL.

Definition getHolidaysSet : gset string := ALL_HOLIDAYS.
Definition getHalfDaysSet : gset string := ALL_HALF_DAYS.

End MarketCalendar.

(** ** server/math/options_risk.ts *)

Record OptionTradePlan := mkOptionTradePlan {
  contractEntry : Q;
  contractStop : Q;
  contractTarget : Q;
  underlyingTrigger : Q;
  otp_riskReward : Q
}.

Record Greeks := mkGreeks { delta : Q; gamma : Q }.

Record StockLevels := mkStockLevels { sl_entry : Q; sl_stop : Q; sl_target : Q }.

Module OptionsRiskCalculator.

Local Open Scope Q_scope.

Definition calculate (currentOptionAsk currentStockPrice : Q)
    (stockLevels : StockLevels) (greeks : Greeks) : OptionTradePlan :=
  let distToStop := sl_stop stockLevels - sl_entry stockLevels in
  let distToTarget := sl_target stockLevels - sl_entry stockLevels in
  let absDelta := JS.abs (delta greeks) in
  let stopLossDrop := JS.abs distToStop * absDelta in
  let targetGain := JS.abs distToTarget * absDelta in
  let estimatedStop := currentOptionAsk - stopLossDrop in
  let estimatedTarget := currentOptionAsk + targetGain in
  let estimatedStop := JS.max (5 # 100) estimatedStop in
  let estimatedTarget := JS.max (5 # 100) estimatedTarget in
  let risk := currentOptionAsk - estimatedStop in
  let reward := estimatedTarget - currentOptionAsk in
  let riskReward := if JS.ltb 0 risk then JS.toFixed2 (reward / risk) else 0 in
  {| contractEntry := JS.toFixed2 currentOptionAsk;
     contractStop := JS.toFixed2 estimatedStop;
     contractTarget := JS.toFixed2 estimatedTarget;
     underlyingTrigger := sl_entry stockLevels;
     otp_riskReward := riskReward |}.

Definition getMidPrice (bid ask : Q) : Q :=
  if JS.leb bid 0 && JS.leb ask 0 then 0
  else if JS.leb bid 0 then ask
  else if JS.leb ask 0 then bid
  else (bid + ask) / 2.

End OptionsRiskCalculator.

(** ** shared/schema.ts: the Aurora tables the pipeline reads and writes *)

Inductive PredictionDirection := CALL | PUT.
Inductive PredictionEngine := TPO_MIT | BLACK_SCHOLES | ORB_MOMENTUM | ENSEMBLE.
Inductive PredictionCategory :=
| SPY_DAILY | SPX_DAILY | NVDA_FRIDAY | TSLA_FRIDAY | XOM_FRIDAY | AAPL_FRIDAY
| ASML_FRIDAY.
(** The values of the [status] column; the session tag ["CLOSED"] is
    [SESSION_CLOSED] above. *)
Inductive PredictionStatus := ACTIVE | CLOSED | EXPIRED | HIT_TARGET | STOPPED_OUT.
Inductive TradeResult := WIN | LOSS.

#[global] Instance PredictionDirection_eq_dec : EqDecision PredictionDirection.
Proof. solve_decision. Defined.
#[global] Instance PredictionEngine_eq_dec : EqDecision PredictionEngine.
Proof. solve_decision. Defined.
#[global] Instance PredictionStatus_eq_dec : EqDecision PredictionStatus.
Proof. solve_decision. Defined.
#[global] Instance MarketSession_eq_dec : EqDecision MarketSession.
Proof. solve_decision. Defined.

(** A stored instant together with its UTC calendar date, which the expiry
    sweeps read as [new Date(t).toISOString().slice(0, 10)]. *)
Record Timestamp := mkTimestamp { epochMs : Z; isoDate : string }.

(** [components: Record<string, number>] of a prediction's reasoning blob:
    the keys in insertion order. *)
Record PredictionReasoning := mkReasoning {
  r_engine : PredictionEngine;
  confidence_components : list (string * Q)
}.

(** The in-memory [Prediction] of parallax.ts. *)
Record Prediction := mkPrediction {
  p_ticker : string;
  p_category : PredictionCategory;
  p_direction : PredictionDirection;
  p_strike : Q;
  p_entryPrice : option Q;
  p_confidence : Q;
  p_session : MarketSession;
  p_engine : PredictionEngine;
  p_reasoning : PredictionReasoning;
  p_entryTrigger : option Q;
  p_stopLoss : option Q;
  p_takeProfit : option Q;
  p_riskRewardRatio : option Q
}.

(** A row of [aurora_parallax_predictions]. *)
Record PredictionRow := mkPredictionRow {
  id : Z;
  ticker : string;
  category : PredictionCategory;
  direction : PredictionDirection;
  strike : Q;
  entryPrice : option Q;
  confidence : Q;
  entryTrigger : option Q;
  stopLoss : option Q;
  takeProfit : option Q;
  riskRewardRatio : option Q;
  session : option MarketSession;
  engine : option PredictionEngine;
  reasoning : PredictionReasoning;
  status : option PredictionStatus;
  generatedAt : option Timestamp
}.

(** A row of [aurora_parallax_outcomes]. *)
Record OutcomeRow := mkOutcomeRow {
  o_id : Z;
  predictionId : option Z;
  actualPnl : option Q;
  result : option TradeResult;
  closedAt : option Timestamp
}.

(** math/types.ts [Candle] (the declaration is read off its uses). *)
Record Candle := mkCandle {
  timestamp : Z;
  open : Q;
  high : Q;
  low : Q;
  close : Q;
  volume : Q
}.

(** A row of [aurora_market_candles]. *)
Record CandleRow := mkCandleRow { c_ticker : string; c_candle : Candle }.

(** A Tradier quote and a row of [aurora_market_quotes]. *)
Record TradierQuote := mkQuote {
  q_symbol : string; q_bid : Q; q_ask : Q; q_last : Q; q_volume : Q
}.
Record QuoteRow := mkQuoteRow { qr_ticker : string; qr_quote : TradierQuote }.

(** praxis/evolution.ts [StrategyGenes]. *)
Record StrategyGenes := mkGenes {
  tpoWeight : Q;
  rsiWeight : Q;
  ibWeight : Q;
  cvdWeight : Q;
  vwapWeight : Q;
  minConfidence : Q;
  orbBreakoutMultiplier : Q;
  stopLossMultiplier : Q;
  targetMultiplier : Q
}.

(** A row of [aurora_praxis_parameters] and of [aurora_praxis_deltas]. *)
Record ParameterRow := mkParameterRow {
  pr_id : Z;
  pr_name : string;
  pr_config : StrategyGenes;
  pr_winRate : Q;
  pr_isActive : bool;
  pr_lastUpdated : Z
}.
Record DeltaRow := mkDeltaRow {
  d_parameterId : Z;
  d_oldConfig : StrategyGenes;
  d_newConfig : StrategyGenes;
  d_winRate : Q
}.

(** A row of [aurora_backtest_results]. *)
Record BacktestRow := mkBacktestRow {
  b_ticker : string;
  b_totalTrades : nat;
  b_winRate : Q;
  b_profitFactor : Q;
  b_maxDrawdown : Q
}.

(** The database.  [predictionSeq], [outcomeSeq] and [parameterSeq] are the
    last values handed out by the [serial] primary keys. *)
Record DB := mkDB {
  predictions : list PredictionRow;
  predictionSeq : Z;
  outcomes : list OutcomeRow;
  outcomeSeq : Z;
  candles : list CandleRow;
  quotes : list QuoteRow;
  parameters : list ParameterRow;
  parameterSeq : Z;
  deltas : list DeltaRow;
  backtests : list BacktestRow
}.

Definition emptyDB : DB :=
  {| predictions := []; predictionSeq := 0; outcomes := []; outcomeSeq := 0;
     candles := []; quotes := []; parameters := []; parameterSeq := 0;
     deltas := []; backtests := [] |}.

Definition with_predictions (db : DB) (ps : list PredictionRow) (seq : Z) : DB :=
  {| predictions := ps; predictionSeq := seq;
     outcomes := outcomes db; outcomeSeq := outcomeSeq db;
     candles := candles db; quotes := quotes db;
     parameters := parameters db; parameterSeq := parameterSeq db;
     deltas := deltas db; backtests := backtests db |}.

Definition with_outcomes (db : DB) (os : list OutcomeRow) (seq : Z) : DB :=
  {| predictions := predictions db; predictionSeq := predictionSeq db;
     outcomes := os; outcomeSeq := seq;
     candles := candles db; quotes := quotes db;
     parameters := parameters db; parameterSeq := parameterSeq db;
     deltas := deltas db; backtests := backtests db |}.

Definition with_candles (db : DB) (cs : list CandleRow) : DB :=
  {| predictions := predictions db; predictionSeq := predictionSeq db;
     outcomes := outcomes db; outcomeSeq := outcomeSeq db;
     candles := cs; quotes := quotes db;
     parameters := parameters db; parameterSeq := parameterSeq db;
     deltas := deltas db; backtests := backtests db |}.

Definition with_quotes (db : DB) (qs : list QuoteRow) : DB :=
  {| predictions := predictions db; predictionSeq := predictionSeq db;
     outcomes := outcomes db; outcomeSeq := outcomeSeq db;
     candles := candles db; quotes := qs;
     parameters := parameters db; parameterSeq := parameterSeq db;
     deltas := deltas db; backtests := backtests db |}.

Definition with_parameters (db : DB) (ps : list ParameterRow) (seq : Z)
    (ds : list DeltaRow) : DB :=
  {| predictions := predictions db; predictionSeq := predictionSeq db;
     outcomes := outcomes db; outcomeSeq := outcomeSeq db;
     candles := candles db; quotes := quotes db;
     parameters := ps; parameterSeq := seq;
     deltas := ds; backtests := backtests db |}.

Definition with_backtests (db : DB) (bs : list BacktestRow) : DB :=
  {| predictions := predictions db; predictionSeq := predictionSeq db;
     outcomes := outcomes db; outcomeSeq := outcomeSeq db;
     candles := candles db; quotes := quotes db;
     parameters := parameters db; parameterSeq := parameterSeq db;
     deltas := deltas db; backtests := bs |}.

(** [UPDATE aurora_parallax_predictions SET status = s WHERE id = i]. *)
Definition set_status (s : PredictionStatus) (r : PredictionRow) : PredictionRow :=
  {| id := id r; ticker := ticker r; category := category r;
     direction := direction r; strike := strike r; entryPrice := entryPrice r;
     confidence := confidence r; entryTrigger := entryTrigger r;
     stopLoss := stopLoss r; takeProfit := takeProfit r;
     riskRewardRatio := riskRewardRatio r; session := session r;
     engine := engine r; reasoning := reasoning r; status := Some s;
     generatedAt := generatedAt r |}.

Definition retire (i : Z) (s : PredictionStatus) (r : PredictionRow)
  : PredictionRow :=
  if id r =? i then set_status s r else r.

Definition update_status (i : Z) (s : PredictionStatus) (db : DB) : DB :=
  with_predictions db (map (retire i s) (predictions db)) (predictionSeq db).

(** [SELECT * FROM aurora_parallax_predictions WHERE status = 'ACTIVE']. *)
Definition is_active (r : PredictionRow) : bool :=
  bool_decide (status r = Some ACTIVE).
Definition select_active (db : DB) : list PredictionRow :=
  List.filter is_active (predictions db).

(** ** server/praxis/evolution.ts: the genetic solver *)

Module Evolution.

Local Open Scope Q_scope.

Record Individual := mkIndividual { genes : StrategyGenes; fitness : Q }.

Definition DEFAULT_GENES : StrategyGenes :=
  {| tpoWeight := 25 # 100; rsiWeight := 20 # 100; ibWeight := 20 # 100;
     cvdWeight := 15 # 100; vwapWeight := 20 # 100; minConfidence := 60;
     orbBreakoutMultiplier := 1; stopLossMultiplier := 5 # 10;
     targetMultiplier := 2 |}.

Definition POPULATION_SIZE : nat := 50.
Definition ELITE_COUNT : nat := 5.
Definition MUTATION_RATE : Q := 15 # 100.
Definition CROSSOVER_RATE : Q := 7 # 10.
Definition TARGET_ACCURACY : Q := 60 # 100.

Definition clamp (value min max : Q) : Q := JS.max min (JS.min max value).

(** Computations that call [Math.random()]: the state is the number of
    draws made so far. *)
Definition Rand (A : Type) : Type := nat -> A * nat.
Definition ret {A} (a : A) : Rand A := fun n => (a, n).
Definition bind {A B} (m : Rand A) (k : A -> Rand B) : Rand B :=
  fun n => let (a, n') := m n in k a n'.

Notation "'do' x <- m ; k" := (bind m (fun x => k))
  (at level 10, x name, m at level 100, k at level 200).

Section WithRandom.

(** The values [Math.random()] returns, in call order. *)
Variable random : nat -> Q.

Definition Math_random : Rand Q := fun n => (random n, S n).

Definition randomInRange (min max : Q) : Rand Q :=
  do r <- Math_random ; ret (min + r * (max - min)).

Definition createRandomGenes : Rand StrategyGenes :=
  do a <- randomInRange (1 # 10) (4 # 10) ;
  do b <- randomInRange (1 # 10) (3 # 10) ;
  do c <- randomInRange (1 # 10) (3 # 10) ;
  do d <- randomInRange (5 # 100) (25 # 100) ;
  do e <- randomInRange (1 # 10) (3 # 10) ;
  do f <- randomInRange 55 75 ;
  do g <- randomInRange (5 # 10) 2 ;
  do h <- randomInRange (3 # 10) (7 # 10) ;
  do i <- randomInRange (15 # 10) 3 ;
  ret {| tpoWeight := a; rsiWeight := b; ibWeight := c; cvdWeight := d;
         vwapWeight := e; minConfidence := f; orbBreakoutMultiplier := g;
         stopLossMultiplier := h; targetMultiplier := i |}.

(** The total and the quotients are exact.  For weights none of which is
    negative the code's test [total === 0] succeeds exactly when every
    weight is 0, as it does here; with weights of both signs the total the
    code computes in doubles can miss an exact zero, so what is stated of
    the code's result is stated for weights that are not negative. *)
Definition normalizeWeights (genes : StrategyGenes) : StrategyGenes :=
  let total := tpoWeight genes + rsiWeight genes + ibWeight genes
               + cvdWeight genes + vwapWeight genes in
  if JS.eqb total 0 then DEFAULT_GENES
  else
    {| tpoWeight := tpoWeight genes / total;
       rsiWeight := rsiWeight genes / total;
       ibWeight := ibWeight genes / total;
       cvdWeight := cvdWeight genes / total;
       vwapWeight := vwapWeight genes / total;
       minConfidence := minConfidence genes;
       orbBreakoutMultiplier := orbBreakoutMultiplier genes;
       stopLossMultiplier := stopLossMultiplier genes;
       targetMultiplier := targetMultiplier genes |}.

(** One block of [mutate]:
    [if (Math.random() < MUTATION_RATE)
       mutated.f = clamp(genes.f + randomInRange(-r, r), lo, hi)]. *)
Definition mutateField (v r lo hi : Q) : Rand Q :=
  do t <- Math_random ;
  if JS.ltb t MUTATION_RATE
  then (do d <- randomInRange (- r) r ; ret (clamp (v + d) lo hi))
  else ret v.

Definition mutate (genes : StrategyGenes) : Rand StrategyGenes :=
  do a <- mutateField (tpoWeight genes) (5 # 100) (5 # 100) (5 # 10) ;
  do b <- mutateField (rsiWeight genes) (5 # 100) (5 # 100) (4 # 10) ;
  do c <- mutateField (ibWeight genes) (5 # 100) (5 # 100) (4 # 10) ;
  do d <- mutateField (cvdWeight genes) (5 # 100) (5 # 100) (3 # 10) ;
  do e <- mutateField (vwapWeight genes) (5 # 100) (5 # 100) (4 # 10) ;
  do f <- mutateField (minConfidence genes) 5 50 80 ;
  do g <- mutateField (orbBreakoutMultiplier genes) (2 # 10) (3 # 10) 3 ;
  do h <- mutateField (stopLossMultiplier genes) (1 # 10) (2 # 10) (8 # 10) ;
  do i <- mutateField (targetMultiplier genes) (3 # 10) (12 # 10) 4 ;
  ret (normalizeWeights
         {| tpoWeight := a; rsiWeight := b; ibWeight := c; cvdWeight := d;
            vwapWeight := e; minConfidence := f; orbBreakoutMultiplier := g;
            stopLossMultiplier := h; targetMultiplier := i |}).

(** [Math.random() < 0.5 ? x : y]. *)
Definition pick (x y : Q) : Rand Q :=
  do t <- Math_random ; ret (if JS.ltb t (1 # 2) then x else y).

Definition crossover (parent1 parent2 : StrategyGenes) : Rand StrategyGenes :=
  do a <- pick (tpoWeight parent1) (tpoWeight parent2) ;
  do b <- pick (rsiWeight parent1) (rsiWeight parent2) ;
  do c <- pick (ibWeight parent1) (ibWeight parent2) ;
  do d <- pick (cvdWeight parent1) (cvdWeight parent2) ;
  do e <- pick (vwapWeight parent1) (vwapWeight parent2) ;
  do f <- pick (minConfidence parent1) (minConfidence parent2) ;
  do g <- pick (orbBreakoutMultiplier parent1) (orbBreakoutMultiplier parent2) ;
  do h <- pick (stopLossMultiplier parent1) (stopLossMultiplier parent2) ;
  do i <- pick (targetMultiplier parent1) (targetMultiplier parent2) ;
  ret (normalizeWeights
         {| tpoWeight := a; rsiWeight := b; ibWeight := c; cvdWeight := d;
            vwapWeight := e; minConfidence := f; orbBreakoutMultiplier := g;
            stopLossMultiplier := h; targetMultiplier := i |}).

(** The roulette loop of [selectParent]; [None] when the loop ends
    without returning. *)
Fixpoint roulette (random : Q) (population : list Individual)
  : option Individual :=
  match population with
  | [] => None
  | individual :: rest =>
      let random := random - JS.max 0 (fitness individual) in
      if JS.leb random 0 then Some individual else roulette random rest
  end.

(** [population[i]] is [undefined] out of range: [None]. *)
Definition selectParent (population : list Individual)
  : Rand (option Individual) :=
  let totalFitness :=
    fold_left (fun sum ind => sum + JS.max 0 (fitness ind)) population 0 in
  if JS.eqb totalFitness 0 then
    do r <- Math_random ;
    ret (nth_error population
           (Z.to_nat (JS.floor (r * inject_Z (Z.of_nat (length population))))))
  else
    do r <- Math_random ;
    ret (match roulette (r * totalFitness) population with
         | Some individual => Some individual
         | None => last population
         end).

End WithRandom.

(** The rows of
    [outcomes INNER JOIN predictions ON outcomes.predictionId = predictions.id]. *)
Definition joinOutcomes (db : DB) : list (OutcomeRow * PredictionRow) :=
  flat_map
    (fun o =>
       map (fun p => (o, p))
         (List.filter (fun p => bool_decide (predictionId o = Some (id p)))
            (predictions db)))
    (outcomes db).

(** The accumulation loop of [calculateFitness] on [(wins, totalPnl)]. *)
Definition fitnessBody : nat * Q -> OutcomeRow * PredictionRow -> nat * Q :=
  fun '(wins, totalPnl) row =>
    let pnl := JS.orElse (actualPnl (fst row)) 0 in
    ((if JS.ltb 0 pnl then S wins else wins), totalPnl + pnl).

Definition fitnessLoop (rows : list (OutcomeRow * PredictionRow)) : nat * Q :=
  fold_left fitnessBody rows (O, 0).

Definition calculateFitness (db : DB) (genes : StrategyGenes) : Q :=
  let outcomes := joinOutcomes db in
  if (length outcomes =? 0)%nat then 5 # 10
  else
    let '(wins, totalPnl) := fitnessLoop outcomes in
    let n := inject_Z (Z.of_nat (length outcomes)) in
    let winRate := inject_Z (Z.of_nat wins) / n in
    let avgPnl := totalPnl / n in
    winRate * (7 # 10) + (if JS.ltb 0 avgPnl then 3 # 10 else 0).

(** [population.sort((a, b) => b.fitness - a.fitness)]: a stable sort,
    fittest first. *)
Fixpoint insertByFitness (x : Individual) (l : list Individual)
  : list Individual :=
  match l with
  | [] => [x]
  | y :: l' =>
      if JS.ltb (fitness y) (fitness x) then x :: y :: l'
      else y :: insertByFitness x l'
  end.
Definition sortByFitness (l : list Individual) : list Individual :=
  fold_left (fun acc x => insertByFitness x acc) l [].

Section Evolve.

Variable random : nat -> Q.
Variable db : DB.

Fixpoint initPopulation (n : nat) : Rand (list Individual) :=
  match n with
  | O => ret []
  | S n' =>
      do g <- createRandomGenes random ;
      do rest <- initPopulation n' ;
      ret ({| genes := g; fitness := 0 |} :: rest)
  end.

Definition evaluate (population : list Individual) : list Individual :=
  map (fun ind => {| genes := genes ind;
                     fitness := calculateFitness db (genes ind) |})
    population.

(** The [while (nextGen.length < POPULATION_SIZE)] loop, [n] children to
    go; [None] when a parent is [undefined] and reading its genes
    throws. *)
Fixpoint breed (n : nat) (population : list Individual)
  : Rand (option (list Individual)) :=
  match n with
  | O => ret (Some [])
  | S n' =>
      let pool := firstn (POPULATION_SIZE / 2) population in
      do parent1 <- selectParent random pool ;
      do parent2 <- selectParent random pool ;
      match parent1, parent2 with
      | Some parent1, Some parent2 =>
          do t <- Math_random random ;
          do childGenes <-
            (if JS.ltb t CROSSOVER_RATE
             then crossover random (genes parent1) (genes parent2)
             else ret (genes parent1)) ;
          do childGenes <- mutate random childGenes ;
          do rest <- breed n' population ;
          ret (match rest with
               | Some rest =>
                   Some ({| genes := childGenes; fitness := 0 |} :: rest)
               | None => None
               end)
      | _, _ => ret None
      end
  end.

Definition evolve : Rand (option StrategyGenes) :=
  do population <- initPopulation POPULATION_SIZE ;
  let population := sortByFitness (evaluate population) in
  let nextGen := firstn ELITE_COUNT population in
  do children <- breed (POPULATION_SIZE - length nextGen) population ;
  ret (match children with
       | None => None
       | Some children =>
           let nextGen := sortByFitness (evaluate (nextGen ++ children)) in
           match nextGen with
           | alpha :: _ => Some (genes alpha)
           | [] => None
           end
       end).

End Evolve.

(** [ORDER BY lastUpdated DESC LIMIT 1] over the rows that pass [keep]. *)
Definition latestParameter (keep : ParameterRow -> bool)
    (rows : list ParameterRow) : option ParameterRow :=
  fold_left
    (fun best r =>
       if keep r then
         match best with
         | Some b => if (pr_lastUpdated b <? pr_lastUpdated r)%Z
                     then Some r else best
         | None => Some r
         end
       else best)
    rows None.

Definition getActiveGenes (db : DB) (ticker : string) : StrategyGenes :=
  match latestParameter
          (fun r => bool_decide (pr_name r = ticker) && pr_isActive r)
          (parameters db) with
  | None => DEFAULT_GENES
  | Some r => pr_config r
  end.

Definition saveAlphaGenes (now : Z) (ticker : string) (genes : StrategyGenes)
    (winRate : Q) (db : DB) : DB :=
  match List.filter (fun r => bool_decide (pr_name r = ticker)) (parameters db) with
  | existing :: _ =>
      with_parameters db
        (map (fun r =>
                if (pr_id r =? pr_id existing)%Z then
                  {| pr_id := pr_id r; pr_name := pr_name r; pr_config := genes;
                     pr_winRate := winRate; pr_isActive := pr_isActive r;
                     pr_lastUpdated := now |}
                else r)
           (parameters db))
        (parameterSeq db)
        (deltas db ++
           [{| d_parameterId := pr_id existing; d_oldConfig := pr_config existing;
               d_newConfig := genes; d_winRate := winRate |}])
  | [] =>
      with_parameters db
        (parameters db ++
           [{| pr_id := (parameterSeq db + 1)%Z; pr_name := ticker;
               pr_config := genes; pr_winRate := winRate; pr_isActive := true;
               pr_lastUpdated := now |}])
        (parameterSeq db + 1)%Z
        (deltas db)
  end.

(** [None]: an exception left [evolve]; the caller's [catch] takes over
    with the database as it was. *)
Definition checkAndTriggerEvolution (random : nat -> Q) (now : Z)
    (currentWinRate : Q) (db : DB) : option DB :=
  if JS.ltb currentWinRate TARGET_ACCURACY then
    match fst (evolve random db O) with
    | Some newGenes => Some (saveAlphaGenes now "SPY" newGenes currentWinRate db)
    | None => None
    end
  else Some db.

End Evolution.

(** ** server/math/tpo.ts *)

(** The three string unions that share the member ["NEUTRAL"], each in a
    name space of its own. *)
Module Momentum.
Inductive t := BULLISH | BEARISH | NEUTRAL.
End Momentum.
Module Bias.
Inductive t := LONG | SHORT | NEUTRAL.
End Bias.
Module RsiSignal.
Inductive t := OVERSOLD | OVERBOUGHT | NEUTRAL.
End RsiSignal.

#[global] Instance Bias_eq_dec : EqDecision Bias.t.
Proof. solve_decision. Defined.
#[global] Instance RsiSignal_eq_dec : EqDecision RsiSignal.t.
Proof. solve_decision. Defined.

(** [profileData: Record<number, number>] is kept as the list of its
    [(price, volume)] entries in increasing price order, which is the order
    [Object.keys(..).map(Number).sort(..)] reads them in. *)
Record TPOProfile := mkTPOProfile {
  poc : Q;
  vah : Q;
  val : Q;
  impulse : Momentum.t;
  profileData : list (Q * Q);
  totalVolume : Q;
  priceRange : Q * Q
}.

Record TPOConfig := mkTPOConfig { tickSize : Q; valueAreaPercent : Q }.

Module TPO.

Local Open Scope Q_scope.

Definition DEFAULT_CONFIG : TPOConfig :=
  {| tickSize := 25 # 100; valueAreaPercent := 70 # 100 |}.

Definition roundToTick (price tickSize : Q) : Q :=
  inject_Z (JS.round (price / tickSize)) * tickSize.

(** [volumeByPrice[price] = (volumeByPrice[price] || 0) + v]. *)
Fixpoint addVolume (price v : Q) (volumeByPrice : list (Q * Q)) : list (Q * Q) :=
  match volumeByPrice with
  | [] => [(price, 0 + v)]
  | (p, w) :: rest =>
      match price ?= p with
      | Lt => (price, 0 + v) :: (p, w) :: rest
      | Eq => (p, w + v) :: rest
      | Gt => (p, w) :: addVolume price v rest
      end
  end.

(** [for (let price = low; price <= high; price = roundToTick(price + tickSize))]
    with the pair [(volumeByPrice, totalVolume)] it updates.  The loop runs
    at most [numTicks] times, which is the fuel it is called with. *)
Fixpoint spread (fuel : nat) (price high tickSize volumePerTick : Q)
    (acc : list (Q * Q) * Q) : list (Q * Q) * Q :=
  match fuel with
  | O => acc
  | S fuel' =>
      if JS.leb price high then
        spread fuel' (roundToTick (price + tickSize) tickSize) high tickSize
          volumePerTick
          (addVolume price volumePerTick (fst acc), snd acc + volumePerTick)
      else acc
  end.

(** [Math.max(-Infinity, x)] and [Math.min(Infinity, x)]: [None] is the
    infinity a running extreme starts from. *)
Definition maxInf (m : option Q) (x : Q) : option Q :=
  match m with None => Some x | Some y => Some (JS.max y x) end.
Definition minInf (m : option Q) (x : Q) : option Q :=
  match m with None => Some x | Some y => Some (JS.min y x) end.

Record Accum := mkAccum {
  volumeByPrice : list (Q * Q);
  totalVol : Q;
  sessionHigh : option Q;
  sessionLow : option Q
}.

Definition addCandle (tickSize : Q) (a : Accum) (candle : Candle) : Accum :=
  let low' := roundToTick (low candle) tickSize in
  let high' := roundToTick (high candle) tickSize in
  let sessionHigh := maxInf (sessionHigh a) (high candle) in
  let sessionLow := minInf (sessionLow a) (low candle) in
  let numTicks := Z.max 1 (JS.round ((high' - low') / tickSize) + 1) in
  let volumePerTick := volume candle / inject_Z numTicks in
  let '(vbp, tot) :=
    spread (Z.to_nat numTicks) low' high' tickSize volumePerTick
      (volumeByPrice a, totalVol a) in
  {| volumeByPrice := vbp; totalVol := tot;
     sessionHigh := sessionHigh; sessionLow := sessionLow |}.

(** The point-of-control scan over [pricesSorted]. *)
Definition findPoc (vbp : list (Q * Q)) (first : Q) : Q :=
  fst (fold_left
         (fun '(poc, maxVolume) '(price, v) =>
            if JS.ltb maxVolume v then (price, v) else (poc, maxVolume))
         vbp (first, 0)).

Definition volAt (vbp : list (Q * Q)) (i : nat) : Q :=
  match nth_error vbp i with Some (_, w) => w | None => 0 end.

Fixpoint indexOf (vbp : list (Q * Q)) (x : Q) : nat :=
  match vbp with
  | [] => O
  | (p, _) :: rest => if JS.eqb p x then O else S (indexOf rest x)
  end.

(** The value-area [while] loop; every round moves one index or stops, so
    [length pricesSorted] rounds of fuel are enough. *)
Fixpoint expand (fuel : nat) (vbp : list (Q * Q)) (targetVolume : Q)
    (lowIndex highIndex : nat) (currentVolume : Q) : nat * nat :=
  match fuel with
  | O => (lowIndex, highIndex)
  | S fuel' =>
      let canLow := (0 <? lowIndex)%nat in
      let canHigh := (S highIndex <? length vbp)%nat in
      if JS.ltb currentVolume targetVolume && (canLow || canHigh) then
        let lowCandidate := if canLow then volAt vbp (lowIndex - 1) else 0 in
        let highCandidate := if canHigh then volAt vbp (highIndex + 1) else 0 in
        if JS.leb highCandidate lowCandidate && canLow then
          expand fuel' vbp targetVolume (lowIndex - 1)%nat highIndex
            (currentVolume + lowCandidate)
        else if canHigh then
          expand fuel' vbp targetVolume lowIndex (highIndex + 1)%nat
            (currentVolume + highCandidate)
        else if canLow then
          expand fuel' vbp targetVolume (lowIndex - 1)%nat highIndex
            (currentVolume + lowCandidate)
        else (lowIndex, highIndex)
      else (lowIndex, highIndex)
  end.

Definition keyAt (vbp : list (Q * Q)) (i : nat) (d : Q) : Q :=
  match nth_error vbp i with Some (p, _) => p | None => d end.

Definition buildTPOProfile (candles : list Candle) (config : TPOConfig)
  : option TPOProfile :=
  match candles with
  | [] => None
  | first :: _ =>
      let tickSize := tickSize config in
      let a := fold_left (addCandle tickSize) candles
                 {| volumeByPrice := []; totalVol := 0;
                    sessionHigh := None; sessionLow := None |} in
      match volumeByPrice a, sessionHigh a, sessionLow a with
      | (p0, _) :: _, Some sessionHigh, Some sessionLow =>
          let vbp := volumeByPrice a in
          let poc := findPoc vbp p0 in
          let targetVolume := totalVol a * valueAreaPercent config in
          let pocIndex := indexOf vbp poc in
          let '(lowIndex, highIndex) :=
            expand (length vbp) vbp targetVolume pocIndex pocIndex
              (volAt vbp pocIndex) in
          let val := keyAt vbp lowIndex poc in
          let vah := keyAt vbp highIndex poc in
          let openPrice := open first in
          let closePrice := close (List.last candles first) in
          let priceChange := closePrice - openPrice in
          let range := sessionHigh - sessionLow in
          let changePercent :=
            if JS.ltb 0 range then JS.abs priceChange / range else 0 in
          let impulse :=
            if JS.ltb changePercent (1 # 10) then Momentum.NEUTRAL
            else if JS.ltb 0 priceChange then Momentum.BULLISH
            else Momentum.BEARISH in
          Some {| poc := roundToTick poc tickSize;
                  vah := roundToTick vah tickSize;
                  val := roundToTick val tickSize;
                  impulse := impulse;
                  profileData := vbp;
                  totalVolume := totalVol a;
                  priceRange := (sessionHigh, sessionLow) |}
      | _, _, _ => None
      end
  end.

Definition isPriceInValueArea (price : Q) (profile : TPOProfile) : bool :=
  JS.leb (val profile) price && JS.leb price (vah profile).

(** The [reason] text of the signal is not carried. *)
Definition getTPOSignal (currentPrice : Q) (profile : TPOProfile) : Bias.t :=
  if JS.ltb (vah profile) currentPrice then Bias.SHORT
  else if JS.ltb currentPrice (val profile) then Bias.LONG
  else if JS.ratioBelow (JS.abs (currentPrice - poc profile)) (poc profile)
            (1 # 1000)
    then Bias.NEUTRAL
  else if JS.ltb (poc profile) currentPrice then Bias.LONG
  else Bias.SHORT.

End TPO.

(** ** server/math/technicals.ts *)

(** [bollingerUpper] and [bollingerLower] need [Math.sqrt]; no engine reads
    them and the snapshot is kept without them. *)
Record TechnicalSnapshot := mkTechnicalSnapshot {
  rsi14 : option Q;
  rsi5 : option Q;
  sma9 : option Q;
  sma20 : option Q;
  vwap : option Q;
  atr : option Q
}.

Module Technicals.

Local Open Scope Q_scope.

Definition ofNat (n : nat) : Q := inject_Z (Z.of_nat n).

(** [reduce((acc, v) => acc + v, 0)]. *)
Definition sum (l : list Q) : Q := fold_left Qplus l 0.

(** [values.slice(-period)], for a positive period. *)
Definition lastn {A} (period : nat) (values : list A) : list A :=
  skipn (length values - period) values.

Definition calculateSMA (values : list Q) (period : nat) : option Q :=
  if (length values <? period)%nat then None
  else Some (sum (lastn period values) / ofNat period).

(** [closes[i] - closes[i - 1]] for [i = 1 ..]. *)
Fixpoint changes (closes : list Q) : list Q :=
  match closes with
  | a :: (b :: _) as rest => (b - a) :: changes rest
  | _ => []
  end.

(** Wilder smoothing: [avg = (avg * (period - 1) + x) / period] over the
    entries from index [period] on. *)
Definition wilder (period : nat) (init : Q) (rest : list Q) : Q :=
  fold_left (fun avg x => (avg * (ofNat period - 1) + x) / ofNat period)
    rest init.

Definition calculateRSI (closes : list Q) (period : nat) : option Q :=
  if (length closes <? period + 1)%nat then None
  else
    let gains := map (fun change => if JS.ltb 0 change then change else 0)
                   (changes closes) in
    let losses := map (fun change => if JS.ltb change 0 then JS.abs change else 0)
                    (changes closes) in
    if (length gains <? period)%nat then None
    else
      let avgGain := sum (firstn period gains) / ofNat period in
      let avgLoss := sum (firstn period losses) / ofNat period in
      let avgGain := wilder period avgGain (skipn period gains) in
      let avgLoss := wilder period avgLoss (skipn period losses) in
      if JS.eqb avgLoss 0 then Some 100
      else
        let rs := avgGain / avgLoss in
        Some (100 - 100 / (1 + rs)).

(** The accumulation shared by [calculateVWAP] and [calculateAnchoredVWAP]:
    [(cumulativeTPV, cumulativeVolume)]. *)
Definition vwapLoop (candles : list Candle) : Q * Q :=
  fold_left
    (fun '(cumulativeTPV, cumulativeVolume) candle =>
       let typicalPrice := (high candle + low candle + close candle) / 3 in
       (cumulativeTPV + typicalPrice * volume candle,
        cumulativeVolume + volume candle))
    candles (0, 0).

Definition calculateVWAP (candles : list Candle) : option Q :=
  match candles with
  | [] => None
  | _ =>
      let '(cumulativeTPV, cumulativeVolume) := vwapLoop candles in
      if JS.eqb cumulativeVolume 0 then None
      else Some (cumulativeTPV / cumulativeVolume)
  end.

(** [trueRanges], from the second candle on. *)
Fixpoint trueRanges (candles : list Candle) : list Q :=
  match candles with
  | prev :: (cur :: _) as rest =>
      JS.max (JS.max (high cur - low cur) (JS.abs (high cur - close prev)))
             (JS.abs (low cur - close prev))
      :: trueRanges rest
  | _ => []
  end.

Definition calculateATR (candles : list Candle) (period : nat) : option Q :=
  if (length candles <? period + 1)%nat then None
  else
    let trueRanges := trueRanges candles in
    if (length trueRanges <? period)%nat then None
    else
      let atr := sum (firstn period trueRanges) / ofNat period in
      Some (wilder period atr (skipn period trueRanges)).

Definition computeTechnicalSnapshot (candles : list Candle) : TechnicalSnapshot :=
  let closes := map close candles in
  {| rsi14 := calculateRSI closes 14;
     rsi5 := calculateRSI closes 5;
     sma9 := calculateSMA closes 9;
     sma20 := calculateSMA closes 20;
     vwap := calculateVWAP candles;
     atr := calculateATR candles 14 |}.

Definition getRSISignal (rsi : Q) : RsiSignal.t :=
  if JS.ltb rsi 30 then RsiSignal.OVERSOLD
  else if JS.ltb 70 rsi then RsiSignal.OVERBOUGHT
  else RsiSignal.NEUTRAL.

End Technicals.

(** ** server/math/institutional.ts *)

Inductive OpeningType :=
| OPEN_DRIVE | OPEN_TEST_DRIVE | OPEN_REJECTION_REVERSE | OPEN_AUCTION.

Record InitialBalance := mkInitialBalance {
  ibHigh : Q;
  ibLow : Q;
  ibWidth : Q;
  openingType : OpeningType;
  isClean : bool
}.

Record OrderFlowSnapshot := mkOrderFlowSnapshot {
  of_delta : Q;
  cumulativeDelta : Q;
  anchoredVwap : Q;
  cvdDivergence : bool
}.

Module Institutional.

Local Open Scope Q_scope.

(** [Math.max(...xs)] and [Math.min(...xs)] of a non-empty array. *)
Definition maxOf (x : Q) (xs : list Q) : Q := fold_left JS.max xs x.
Definition minOf (x : Q) (xs : list Q) : Q := fold_left JS.min xs x.

Definition classifyOpeningType (openPrice ibHigh ibLow ibWidth : Q)
    (ibCandles : list Candle) (lastIBCandle : Candle) : OpeningType :=
  if (length ibCandles <? 2)%nat then OPEN_AUCTION
  else
    let closePrice := close lastIBCandle in
    let openToHighDist := ibHigh - openPrice in
    let openToLowDist := openPrice - ibLow in
    let closeToHighDist := ibHigh - closePrice in
    let closeToLowDist := closePrice - ibLow in
    let threshold := ibWidth * (2 # 10) in
    if JS.ltb openToLowDist threshold && JS.ltb closeToHighDist threshold
    then OPEN_DRIVE
    else if JS.ltb openToHighDist threshold && JS.ltb closeToLowDist threshold
    then OPEN_DRIVE
    else if JS.ltb openToLowDist threshold && JS.ltb closeToLowDist threshold
    then OPEN_REJECTION_REVERSE
    else if JS.ltb openToHighDist threshold && JS.ltb closeToHighDist threshold
    then OPEN_REJECTION_REVERSE
    else
      let touchedLow := existsb (fun c => JS.eqb (low c) ibLow) ibCandles in
      let touchedHigh := existsb (fun c => JS.eqb (high c) ibHigh) ibCandles in
      if touchedLow && touchedHigh
         && JS.ltb (JS.abs (closePrice - openPrice)) (ibWidth * (3 # 10))
      then OPEN_TEST_DRIVE
      else OPEN_AUCTION.

(** [ibCandles.some((c, i) => i > 0 && |c.open - ibCandles[i-1].close| > w)]. *)
Fixpoint someGap (w : Q) (ibCandles : list Candle) : bool :=
  match ibCandles with
  | prevC :: (c :: _) as rest =>
      JS.ltb w (JS.abs (open c - close prevC)) || someGap w rest
  | _ => false
  end.

(** [setSeconds(0, 0)] clears seconds and milliseconds; zone offsets are
    whole minutes, so it rounds the instant down to a minute. *)
Definition calculateInitialBalance (candles : list Candle)
    (ibDurationMinutes : Z) : option InitialBalance :=
  match candles with
  | [] => None
  | firstCandle :: _ =>
      let marketOpenTime :=
        (timestamp firstCandle - timestamp firstCandle mod 60000)%Z in
      let ibCutoff := (marketOpenTime + ibDurationMinutes * 60 * 1000)%Z in
      let ibCandles :=
        List.filter (fun c => (timestamp c <? ibCutoff)%Z) candles in
      match ibCandles with
      | [] => None
      | c0 :: others =>
          let ibHigh := maxOf (high c0) (map high others) in
          let ibLow := minOf (low c0) (map low others) in
          let ibWidth := ibHigh - ibLow in
          let openPrice := open firstCandle in
          let openingType :=
            classifyOpeningType openPrice ibHigh ibLow ibWidth ibCandles
              (List.last ibCandles c0) in
          let isClean := negb (someGap (ibWidth * (1 # 10)) ibCandles) in
          Some {| ibHigh := ibHigh; ibLow := ibLow; ibWidth := ibWidth;
                  openingType := openingType; isClean := isClean |}
      end
  end.

(** [(candle.high - candle.low || 1)]: a zero range counts as 1. *)
Definition calculateDelta (candle : Candle) : Q :=
  let body := close candle - open candle in
  let range := high candle - low candle in
  let bodyPercent := JS.abs body / (if JS.eqb range 0 then 1 else range) in
  let sign := if JS.leb 0 body then 1 else - (1) in
  sign * volume candle * bodyPercent.

(** The last entry of [calculateCumulativeDelta(candles)]. *)
Definition lastCumulativeDelta (candles : list Candle) : Q :=
  fold_left (fun cumulative candle => cumulative + calculateDelta candle)
    candles 0.

Definition calculateAnchoredVWAP (candles : list Candle) (anchorIndex : nat)
  : option Q :=
  if (length candles =? 0)%nat || (length candles <=? anchorIndex)%nat then None
  else
    let '(cumulativeTPV, cumulativeVolume) :=
      Technicals.vwapLoop (skipn anchorIndex candles) in
    if JS.eqb cumulativeVolume 0 then None
    else Some (cumulativeTPV / cumulativeVolume).

Definition computeOrderFlowSnapshot (candles : list Candle) (anchorIndex : nat)
  : option OrderFlowSnapshot :=
  match candles with
  | [] => None
  | first :: _ =>
      let lastCandle := List.last candles first in
      let delta := calculateDelta lastCandle in
      let cumulativeDelta := lastCumulativeDelta candles in
      match calculateAnchoredVWAP candles anchorIndex with
      | None => None
      | Some anchoredVwap =>
          let priceUp :=
            (1 <? length candles)%nat && JS.ltb (close first) (close lastCandle) in
          let cvdUp := JS.ltb 0 cumulativeDelta in
          let cvdDivergence := negb (Bool.eqb priceUp cvdUp) in
          Some {| of_delta := delta; cumulativeDelta := cumulativeDelta;
                  anchoredVwap := anchoredVwap; cvdDivergence := cvdDivergence |}
      end
  end.

(** The [reason] text of the signal is not carried. *)
Definition getIBSignal (currentPrice : Q) (ib : InitialBalance) : Bias.t :=
  if JS.ltb (ibHigh ib) currentPrice then Bias.LONG
  else if JS.ltb currentPrice (ibLow ib) then Bias.SHORT
  else Bias.NEUTRAL.

End Institutional.

(** ** server/math/orb.ts *)

Record ORBLevels := mkORBLevels {
  orb_high : Q;
  orb_low : Q;
  orb_mid : Q;
  rangeSize : Q;
  targetBull1 : Q;
  targetBull2 : Q;
  targetBear1 : Q;
  targetBear2 : Q;
  stopLossLong : Q;
  stopLossShort : Q
}.

Module ORB.

Local Open Scope Q_scope.

(** The scan for the range; [None] stands for the infinite start value. *)
Definition scan (candles : list Candle) : option Q * option Q :=
  fold_left
    (fun '(rangeHigh, rangeLow) c =>
       (match rangeHigh with
        | None => Some (high c)
        | Some h => if JS.ltb h (high c) then Some (high c) else Some h
        end,
        match rangeLow with
        | None => Some (low c)
        | Some l => if JS.ltb (low c) l then Some (low c) else Some l
        end))
    candles (None, None).

Definition calculateORB (candles : list Candle) : option ORBLevels :=
  match candles with
  | [] => None
  | _ =>
      match scan candles with
      | (Some rangeHigh, Some rangeLow) =>
          let rangeSize := rangeHigh - rangeLow in
          let midPoint := rangeLow + rangeSize / 2 in
          Some {| orb_high := rangeHigh; orb_low := rangeLow; orb_mid := midPoint;
                  rangeSize := rangeSize;
                  targetBull1 := rangeHigh + rangeSize;
                  targetBull2 := rangeHigh + rangeSize * 2;
                  targetBear1 := rangeLow - rangeSize;
                  targetBear2 := rangeLow - rangeSize * 2;
                  stopLossLong := midPoint;
                  stopLossShort := midPoint |}
      | _ => None
      end
  end.

Inductive EntrySignal := ENTRY_LONG | ENTRY_SHORT.

Record ORBEntry := mkORBEntry {
  signal : EntrySignal;
  e_entry : Q;
  e_stop : Q;
  e_target : Q;
  e_riskReward : Q
}.

Definition checkORBEntry (currentPrice : Q) (levels : ORBLevels)
    (momentum : Momentum.t) : option ORBEntry :=
  let BUFFER := 5 # 100 in
  let long :=
    match momentum with Momentum.BULLISH => true | _ => false end
    && JS.ltb (orb_high levels + BUFFER) currentPrice in
  let short :=
    match momentum with Momentum.BEARISH => true | _ => false end
    && JS.ltb currentPrice (orb_low levels - BUFFER) in
  if long then
    let risk := (orb_high levels + BUFFER) - stopLossLong levels in
    let reward := targetBull1 levels - (orb_high levels + BUFFER) in
    Some {| signal := ENTRY_LONG; e_entry := orb_high levels + BUFFER;
            e_stop := stopLossLong levels; e_target := targetBull1 levels;
            e_riskReward := if JS.ltb 0 risk then reward / risk else 0 |}
  else if short then
    let risk := stopLossShort levels - (orb_low levels - BUFFER) in
    let reward := (orb_low levels - BUFFER) - targetBear1 levels in
    Some {| signal := ENTRY_SHORT; e_entry := orb_low levels - BUFFER;
            e_stop := stopLossShort levels; e_target := targetBear1 levels;
            e_riskReward := if JS.ltb 0 risk then reward / risk else 0 |}
  else None.

Definition getOpeningRangeCandles (candles : list Candle) : list Candle :=
  firstn 30 candles.

Inductive ORBPosition := ABOVE | BELOW | INSIDE.

Definition getORBPosition (currentPrice : Q) (levels : ORBLevels) : ORBPosition :=
  if JS.ltb (orb_high levels) currentPrice then ABOVE
  else if JS.ltb currentPrice (orb_low levels) then BELOW
  else INSIDE.

End ORB.

(** ** server/math/blackscholes.ts *)

Record BlackScholesInput := mkBSInput {
  spotPrice : Q;
  strikePrice : Q;
  timeToExpiry : Q;
  riskFreeRate : Q;
  bs_volatility : Q;
  optionType : PredictionDirection
}.

Record BlackScholesOutput := mkBSOutput {
  theoreticalPrice : Q;
  bs_delta : Q;
  bs_gamma : Q;
  theta : Q;
  vega : Q;
  rho : Q
}.

(** The [reasoning: string[]] log lines are not carried. *)
Record PreMarketPrediction := mkPreMarket {
  pm_ticker : string;
  pm_direction : PredictionDirection;
  pm_strike : Q;
  pm_confidence : Q;
  pm_theoreticalPrice : Q;
  pm_expectedMove : Q
}.

(** [Math.sqrt] and the closed-form pricer [calculateBlackScholes] (built on
    [Math.exp], [Math.log] and [Math.sqrt]) have no exact rational value;
    the engines only copy their results into the prediction, so the
    embedding is stated for any two such functions. *)
Class Transcendental := {
  Math_sqrt : Q -> Q;
  calculateBlackScholes : BlackScholesInput -> BlackScholesOutput
}.

Module BlackScholes.

Local Open Scope Q_scope.

Section WithTranscendental.

Context `{Transcendental}.

Definition getExpectedMove (spotPrice volatility timeToExpiry : Q) : Q :=
  spotPrice * volatility * Math_sqrt timeToExpiry.

Definition generatePreMarketPrediction (ticker : string)
    (spotPrice volatility riskFreeRate : Q) (bias : Momentum.t)
  : option PreMarketPrediction :=
  let timeToExpiry := 1 / 365 in
  let expectedMove := getExpectedMove spotPrice volatility timeToExpiry in
  match
    match bias with
    | Momentum.BULLISH => Some (CALL, spotPrice * (5 # 1000))
    | Momentum.BEARISH => Some (PUT, spotPrice * (5 # 1000))
    | Momentum.NEUTRAL => None
    end
  with
  | None => None
  | Some (direction, strikeOffset) =>
      let strike :=
        match direction with
        | CALL => inject_Z (JS.ceil ((spotPrice + strikeOffset) / (5 # 10))) * (5 # 10)
        | PUT => inject_Z (JS.floor ((spotPrice - strikeOffset) / (5 # 10))) * (5 # 10)
        end in
      let bsResult :=
        calculateBlackScholes
          {| spotPrice := spotPrice; strikePrice := strike;
             timeToExpiry := timeToExpiry; riskFreeRate := riskFreeRate;
             bs_volatility := volatility; optionType := direction |} in
      let moneyness :=
        match direction with
        | CALL => (spotPrice - strike) / spotPrice
        | PUT => (strike - spotPrice) / spotPrice
        end in
      let confidence := 50 in
      let confidence :=
        if JS.ltb (- (2 # 100)) moneyness && JS.ltb moneyness 0
        then confidence + 10 else confidence in
      let confidence :=
        if JS.ltb (3 # 10) volatility && JS.ltb volatility (5 # 10)
        then confidence + 5 else confidence in
      let confidence := confidence + 5 in
      Some {| pm_ticker := ticker; pm_direction := direction;
              pm_strike := strike;
              pm_confidence := JS.min 100 (JS.max 0 confidence);
              pm_theoreticalPrice := theoreticalPrice bsResult;
              pm_expectedMove := expectedMove |}
  end.

End WithTranscendental.

End BlackScholes.

(** ** server/math/risk.ts *)

Record TradePlan := mkTradePlan {
  tp_entry : Q;
  tp_stop : Q;
  tp_target : Q;
  tp_riskReward : Q
}.

Module RiskCalculator.

Local Open Scope Q_scope.

Definition plan (entry stop target risk reward : Q) : TradePlan :=
  {| tp_entry := entry; tp_stop := stop; tp_target := target;
     tp_riskReward := if JS.ltb 0 risk then reward / risk else 0 |}.

Definition fromORB (levels : ORBLevels) (direction : PredictionDirection)
  : TradePlan :=
  let BUFFER := 5 # 100 in
  match direction with
  | CALL =>
      let entry := orb_high levels + BUFFER in
      let stop := stopLossLong levels in
      let target := targetBull1 levels in
      plan entry stop target (entry - stop) (target - entry)
  | PUT =>
      let entry := orb_low levels - BUFFER in
      let stop := stopLossShort levels in
      let target := targetBear1 levels in
      plan entry stop target (stop - entry) (entry - target)
  end.

Definition fromTPO (profile : TPOProfile) (currentPrice : Q)
    (direction : PredictionDirection) (atr : Q) : TradePlan :=
  match direction with
  | PUT =>
      let entry := currentPrice in
      let stop := vah profile + atr in
      let target := poc profile in
      plan entry stop target (stop - entry) (entry - target)
  | CALL =>
      let entry := currentPrice in
      let stop := val profile - atr in
      let target := poc profile in
      plan entry stop target (entry - stop) (target - entry)
  end.

Definition fromBlackScholes (currentPrice expectedMove : Q)
    (direction : PredictionDirection) : TradePlan :=
  let stopMultiplier := 5 # 10 in
  let targetMultiplier := 1 in
  match direction with
  | CALL =>
      let entry := currentPrice in
      let stop := currentPrice - expectedMove * stopMultiplier in
      let target := currentPrice + expectedMove * targetMultiplier in
      plan entry stop target (entry - stop) (target - entry)
  | PUT =>
      let entry := currentPrice in
      let stop := currentPrice + expectedMove * stopMultiplier in
      let target := currentPrice - expectedMove * targetMultiplier in
      plan entry stop target (stop - entry) (entry - target)
  end.

Definition DEFAULT_STOP_LOSS_PCT : Q := 50 # 100.
Definition DEFAULT_TARGET_MULT : Q := 2.

Definition fromOptionPremium (premium stopLossPct targetMultiple : Q) : TradePlan :=
  let entry := premium in
  let stop := entry * (1 - stopLossPct) in
  let target := entry * targetMultiple in
  let risk := entry - stop in
  let reward := target - entry in
  {| tp_entry := entry; tp_stop := stop; tp_target := target;
     tp_riskReward := if JS.ltb 0 risk then reward / risk else 0 |}.

Definition getMidPrice (bid ask : Q) : Q :=
  if JS.leb bid 0 && JS.leb ask 0 then 0
  else if JS.leb bid 0 then ask
  else if JS.leb ask 0 then bid
  else (bid + ask) / 2.

(** [fromContract] reads the bid and the ask of the contract. *)
Definition fromContract (bid ask stopLossPct targetMultiple : Q) : TradePlan :=
  let premium := getMidPrice bid ask in
  fromOptionPremium premium stopLossPct targetMultiple.

Definition isAcceptable (plan : TradePlan) (minRR : Q) : bool :=
  JS.leb minRR (tp_riskReward plan).

Definition calculateContracts (accountBalance riskPercent premium : Q) : Z :=
  let riskAmount := accountBalance * (riskPercent / 100) in
  let costPerContract := premium * 100 in
  if JS.ltb 0 costPerContract then JS.floor (riskAmount / costPerContract) else 0%Z.

End RiskCalculator.

(** ** server/aurora/parallax.ts *)

Record ConfidenceWeights := mkWeights {
  w_tpo : Q; w_rsi : Q; w_ib : Q; w_cvd : Q; w_vwap : Q
}.

(** [confidenceComponents: Record<string, number>]: the five keys the engine
    may set; [None] is an absent key ([undefined]). *)
Record Components := mkComponents {
  c_tpo : option Q; c_rsi : option Q; c_ib : option Q; c_cvd : option Q;
  c_vwap : option Q
}.

Module Parallax.

Local Open Scope Q_scope.

Definition DEFAULT_WEIGHTS : ConfidenceWeights :=
  {| w_tpo := 25 # 100; w_rsi := 20 # 100; w_ib := 20 # 100;
     w_cvd := 15 # 100; w_vwap := 20 # 100 |}.

Definition GENES_REFRESH_INTERVAL : Z := 60000.

Definition weightsOf (genes : StrategyGenes) : ConfidenceWeights :=
  {| w_tpo := tpoWeight genes; w_rsi := rsiWeight genes;
     w_ib := ibWeight genes; w_cvd := cvdWeight genes;
     w_vwap := vwapWeight genes |}.

(** [genesCache] is module state: it is passed in and returned. *)
Definition getWeightsFromPraxis (db : DB) (now : Z) (ticker : string)
    (genesCache : gmap string (StrategyGenes * Z))
  : ConfidenceWeights * gmap string (StrategyGenes * Z) :=
  let refresh :=
    let genes := Evolution.getActiveGenes db ticker in
    (weightsOf genes, <[ticker := (genes, now)]> genesCache) in
  match genesCache !! ticker with
  | None => refresh
  | Some (genes, lastRefresh) =>
      if (GENES_REFRESH_INTERVAL <? now - lastRefresh)%Z then refresh
      else (weightsOf genes, genesCache)
  end.

(** One [if (components.k !== undefined) { total += ..; weightSum += .. }]. *)
Definition addComponent (c : option Q) (w : Q) (acc : Q * Q) : Q * Q :=
  match c with
  | Some s => (fst acc + s * w, snd acc + w)
  | None => acc
  end.

Definition calculateConfidence (components : Components)
    (weights : ConfidenceWeights) : Q :=
  let acc := (0, 0) in
  let acc := addComponent (c_tpo components) (w_tpo weights) acc in
  let acc := addComponent (c_rsi components) (w_rsi weights) acc in
  let acc := addComponent (c_ib components) (w_ib weights) acc in
  let acc := addComponent (c_cvd components) (w_cvd weights) acc in
  let acc := addComponent (c_vwap components) (w_vwap weights) acc in
  let '(total, weightSum) := acc in
  if JS.ltb 0 weightSum then total / weightSum * 100 else 50.

Definition selectStrike (currentPrice : Q) (direction : PredictionDirection)
    (tickSize : Q) : Q :=
  let offset := match direction with CALL => 1 | PUT => - (1) end in
  let otmAmount := currentPrice * (5 # 1000) in
  let rawStrike := currentPrice + offset * otmAmount in
  inject_Z (JS.round (rawStrike / tickSize)) * tickSize.

(** The component scores the TPO+MIT engine assigns. *)
Definition confidenceComponents (tpoSignal : Bias.t) (rsiSignal : RsiSignal.t)
    (ib : option InitialBalance) (orderFlow : option OrderFlowSnapshot)
    (technicals : TechnicalSnapshot) (currentPrice : Q) : Components :=
  {| c_tpo := Some (match tpoSignal with
                    | Bias.LONG => 7 # 10
                    | Bias.SHORT => 7 # 10
                    | Bias.NEUTRAL => 3 # 10
                    end);
     c_rsi := Some (match rsiSignal with
                    | RsiSignal.OVERSOLD => 8 # 10
                    | RsiSignal.OVERBOUGHT => 8 # 10
                    | RsiSignal.NEUTRAL => 5 # 10
                    end);
     c_ib := match ib with
             | Some ib =>
                 Some (if JS.ltb (ibHigh ib) currentPrice
                          || JS.ltb currentPrice (ibLow ib)
                       then 75 # 100 else 4 # 10)
             | None => None
             end;
     c_cvd := match orderFlow with
              | Some orderFlow =>
                  Some (if cvdDivergence orderFlow then 65 # 100 else 5 # 10)
              | None => None
              end;
     c_vwap := match orderFlow, vwap technicals with
               | Some _, Some vwap =>
                   let vwapDistance := JS.abs (currentPrice - vwap) in
                   Some (if JS.ratioBelow vwapDistance vwap (1 # 100) then 6 # 10
                         else if JS.ratioBelow vwapDistance vwap (2 # 100)
                         then 5 # 10
                         else 4 # 10)
               | _, _ => None
               end |}.

(** The direction rule of the TPO+MIT engine; [None] is the [return null]
    of its last branch. *)
Definition tpomitDirection (tpoSignal : Bias.t) (rsiSignal : RsiSignal.t)
  : option PredictionDirection :=
  if bool_decide (tpoSignal = Bias.LONG)
     || (bool_decide (rsiSignal = RsiSignal.OVERSOLD)
         && bool_decide (tpoSignal = Bias.NEUTRAL))
  then Some CALL
  else if bool_decide (tpoSignal = Bias.SHORT)
          || (bool_decide (rsiSignal = RsiSignal.OVERBOUGHT)
              && bool_decide (tpoSignal = Bias.NEUTRAL))
  then Some PUT
  else None.

Definition componentList (c : Components) : list (string * Q) :=
  let entry (k : string) (v : option Q) :=
    match v with Some x => [(k, x)] | None => [] end in
  entry "tpo"%string (c_tpo c) ++ entry "rsi"%string (c_rsi c)
  ++ entry "ib"%string (c_ib c) ++ entry "cvd"%string (c_cvd c)
  ++ entry "vwap"%string (c_vwap c).

Definition rsiSignalOf (technicals : TechnicalSnapshot) : RsiSignal.t :=
  match rsi14 technicals with
  | Some rsi14 => Technicals.getRSISignal rsi14
  | None => RsiSignal.NEUTRAL
  end.

(** The scoring block of the TPO+MIT engine on a built profile: the
    signals, the component scores and the fused confidence. *)
Record Scoring := mkScoring {
  sc_tpoSignal : Bias.t;
  sc_rsiSignal : RsiSignal.t;
  sc_components : Components;
  sc_confidence : Q
}.

Definition score (weights : ConfidenceWeights) (tpoProfile : TPOProfile)
    (candles : list Candle) (currentPrice : Q) : Scoring :=
  let technicals := Technicals.computeTechnicalSnapshot candles in
  let ib := Institutional.calculateInitialBalance candles 60 in
  let orderFlow := Institutional.computeOrderFlowSnapshot candles 0 in
  let tpoSignal := TPO.getTPOSignal currentPrice tpoProfile in
  let rsiSignal := rsiSignalOf technicals in
  let components :=
    confidenceComponents tpoSignal rsiSignal ib orderFlow technicals
      currentPrice in
  {| sc_tpoSignal := tpoSignal; sc_rsiSignal := rsiSignal;
     sc_components := components;
     sc_confidence := calculateConfidence components weights |}.

Definition profileOf (candles : list Candle) : option TPOProfile :=
  TPO.buildTPOProfile candles
    {| tickSize := 25 # 100;
       valueAreaPercent := valueAreaPercent TPO.DEFAULT_CONFIG |}.

Definition generateTPOMITPrediction (db : DB) (now : DateTime)
    (genesCache : gmap string (StrategyGenes * Z))
    (ticker : string) (category : PredictionCategory)
    (candles : list Candle) (currentPrice : Q)
  : option Prediction * gmap string (StrategyGenes * Z) :=
  if (length candles <? 30)%nat then (None, genesCache)
  else
    let '(weights, genesCache) :=
      getWeightsFromPraxis db (ts now) ticker genesCache in
    match profileOf candles with
    | None => (None, genesCache)
    | Some tpoProfile =>
        let sc := score weights tpoProfile candles currentPrice in
        let confidence := sc_confidence sc in
        if JS.ltb confidence 60 then (None, genesCache)
        else
          match tpomitDirection (sc_tpoSignal sc) (sc_rsiSignal sc) with
          | None => (None, genesCache)
          | Some direction =>
              let strike := selectStrike currentPrice direction 1 in
              let session :=
                MarketTime.getSession now MarketCalendar.getHolidaysSet
                  MarketCalendar.getHalfDaysSet in
              let atr :=
                JS.orElse (atr (Technicals.computeTechnicalSnapshot candles)) 2 in
              let tradePlan :=
                RiskCalculator.fromTPO tpoProfile currentPrice direction atr in
              (Some {| p_ticker := ticker; p_category := category;
                       p_direction := direction; p_strike := strike;
                       p_entryPrice := Some currentPrice;
                       p_confidence := confidence; p_session := session;
                       p_engine := TPO_MIT;
                       p_reasoning :=
                         {| r_engine := TPO_MIT;
                            confidence_components :=
                              componentList (sc_components sc) |};
                       p_entryTrigger := Some (tp_entry tradePlan);
                       p_stopLoss := Some (tp_stop tradePlan);
                       p_takeProfit := Some (tp_target tradePlan);
                       p_riskRewardRatio := Some (tp_riskReward tradePlan) |},
               genesCache)
          end
    end.

Section WithTranscendental.

Context `{Transcendental}.

Definition generateBlackScholesPrediction (now : DateTime) (ticker : string)
    (category : PredictionCategory) (spotPrice volatility : Q)
    (bias : Momentum.t) : option Prediction :=
  match BlackScholes.generatePreMarketPrediction ticker spotPrice volatility
          (5 # 100) bias with
  | None => None
  | Some preMarketPred =>
      if JS.ltb (pm_confidence preMarketPred) 60 then None
      else
        let session :=
          MarketTime.getSession now MarketCalendar.getHolidaysSet
            MarketCalendar.getHalfDaysSet in
        let tradePlan :=
          RiskCalculator.fromBlackScholes spotPrice
            (pm_expectedMove preMarketPred) (pm_direction preMarketPred) in
        Some {| p_ticker := ticker; p_category := category;
                p_direction := pm_direction preMarketPred;
                p_strike := pm_strike preMarketPred;
                p_entryPrice := Some (pm_theoreticalPrice preMarketPred);
                p_confidence := pm_confidence preMarketPred;
                p_session := session; p_engine := BLACK_SCHOLES;
                p_reasoning :=
                  {| r_engine := BLACK_SCHOLES;
                     confidence_components :=
                       [("theoretical_price"%string,
                         pm_theoreticalPrice preMarketPred);
                        ("expected_move"%string,
                         pm_expectedMove preMarketPred)] |};
                p_entryTrigger := Some (tp_entry tradePlan);
                p_stopLoss := Some (tp_stop tradePlan);
                p_takeProfit := Some (tp_target tradePlan);
                p_riskRewardRatio := Some (tp_riskReward tradePlan) |}
  end.

End WithTranscendental.

(** The direction and confidence the ORB engine derives from the levels;
    a division by a zero range gives [Infinity], of which [Math.min(20, _)]
    is 20. *)
Definition breakoutBonus (distance rangeSize : Q) : Q :=
  if JS.eqb rangeSize 0 then 20
  else JS.min 20 (distance / rangeSize * 40).

Definition orbSignal (orbLevels : ORBLevels) (currentPrice : Q)
  : option PredictionDirection * Q :=
  let confidence := 55 in
  if JS.ltb (orb_high orbLevels) currentPrice then
    (Some CALL,
     confidence + breakoutBonus (currentPrice - orb_high orbLevels)
                    (rangeSize orbLevels))
  else if JS.ltb currentPrice (orb_low orbLevels) then
    (Some PUT,
     confidence + breakoutBonus (orb_low orbLevels - currentPrice)
                    (rangeSize orbLevels))
  else (None, confidence).

Definition generateORBPrediction (now : DateTime) (ticker : string)
    (category : PredictionCategory) (candles : list Candle) (currentPrice : Q)
  : option Prediction :=
  let orbMinutes := 30%Z in
  let marketOpen := MarketTime.getMarketOpen now in
  let orbEnd := MarketTime.plusMinutes marketOpen orbMinutes in
  if (ts now <? ts orbEnd)%Z then None
  else
    let orbCandles :=
      List.filter
        (fun c => (ts marketOpen <=? timestamp c)%Z && (timestamp c <? ts orbEnd)%Z)
        candles in
    if (length orbCandles <? 5)%nat then None
    else
      match ORB.calculateORB orbCandles with
      | None => None
      | Some orbLevels =>
          match orbSignal orbLevels currentPrice with
          | (None, _) => None
          | (Some direction, confidence) =>
              if JS.ltb confidence 60 then None
              else
                let strike := selectStrike currentPrice direction 1 in
                let session :=
                  MarketTime.getSession now MarketCalendar.getHolidaysSet
                    MarketCalendar.getHalfDaysSet in
                let tradePlan := RiskCalculator.fromORB orbLevels direction in
                Some {| p_ticker := ticker; p_category := category;
                        p_direction := direction; p_strike := strike;
                        p_entryPrice := Some currentPrice;
                        p_confidence := confidence; p_session := session;
                        p_engine := ORB_MOMENTUM;
                        p_reasoning :=
                          {| r_engine := ORB_MOMENTUM;
                             confidence_components :=
                               [("orb_high"%string, orb_high orbLevels);
                                ("orb_low"%string, orb_low orbLevels);
                                ("breakout_price"%string, currentPrice)] |};
                        p_entryTrigger := Some (tp_entry tradePlan);
                        p_stopLoss := Some (tp_stop tradePlan);
                        p_takeProfit := Some (tp_target tradePlan);
                        p_riskRewardRatio := Some (tp_riskReward tradePlan) |}
          end
      end.

(** [storePrediction]: the row gets the next serial id, status ACTIVE and
    the database clock as [generatedAt]. *)
Definition rowOf (i : Z) (stamp : Timestamp) (prediction : Prediction)
  : PredictionRow :=
  {| id := i; ticker := p_ticker prediction;
     category := p_category prediction;
     direction := p_direction prediction; strike := p_strike prediction;
     entryPrice := p_entryPrice prediction;
     confidence := p_confidence prediction;
     entryTrigger := p_entryTrigger prediction;
     stopLoss := p_stopLoss prediction;
     takeProfit := p_takeProfit prediction;
     riskRewardRatio := p_riskRewardRatio prediction;
     session := Some (p_session prediction);
     engine := Some (p_engine prediction);
     reasoning := p_reasoning prediction;
     status := Some ACTIVE;
     generatedAt := Some stamp |}.

Definition storePrediction (stamp : Timestamp) (prediction : Prediction)
    (db : DB) : Z * DB :=
  let i := (predictionSeq db + 1)%Z in
  (i, with_predictions db (predictions db ++ [rowOf i stamp prediction]) i).

(** [getActivePredictions(ticker)]; the [ORDER BY generatedAt DESC] only
    permutes the rows, and every caller either tests membership or visits
    each row. *)
Definition getActivePredictions (ticker' : option string) (db : DB)
  : list PredictionRow :=
  match ticker' with
  | Some t =>
      List.filter (fun r => is_active r && bool_decide (ticker r = t))
        (predictions db)
  | None => select_active db
  end.

Definition updatePredictionStatus (predictionId : Z) (status : PredictionStatus)
    (actualPnl : option Q) (db : DB) : DB :=
  let db := update_status predictionId status db in
  match actualPnl with
  | Some pnl =>
      let i := (outcomeSeq db + 1)%Z in
      with_outcomes db
        (outcomes db ++
           [{| o_id := i; predictionId := Some predictionId;
               actualPnl := Some pnl;
               result := Some (if JS.ltb 0 pnl then WIN else LOSS);
               closedAt := None |}])
        i
  | None => db
  end.

End Parallax.

(** ** server/praxis/backtest.ts *)

Record BacktestResult := mkBacktestResult {
  totalTrades : nat;
  bt_wins : nat;
  bt_losses : nat;
  bt_winRate : Q;
  profitFactor : Q;
  maxDrawdown : Q
}.

Record SimulatedTrade := mkSimulatedTrade {
  st_direction : PredictionDirection;
  st_strike : Q;
  st_entryPrice : Q;
  st_exitPrice : Q;
  st_pnl : Q;
  isWin : bool
}.

Module Backtest.

Local Open Scope Q_scope.

(** [ORDER BY timestamp ASC]. *)
Fixpoint insertByTime (c : Candle) (l : list Candle) : list Candle :=
  match l with
  | [] => [c]
  | d :: l' =>
      if (timestamp c <? timestamp d)%Z then c :: d :: l'
      else d :: insertByTime c l'
  end.
Definition sortByTime (l : list Candle) : list Candle :=
  fold_left (fun acc c => insertByTime c acc) l [].

Definition loadCandles (db : DB) (ticker : string) (startDate endDate : Z)
  : list Candle :=
  sortByTime
    (map c_candle
       (List.filter
          (fun r => bool_decide (c_ticker r = ticker)
                    && (startDate <=? timestamp (c_candle r))%Z
                    && (timestamp (c_candle r) <=? endDate)%Z)
          (candles db))).

(** The scoring block of the replay loop: [confidence] starts at 50 and
    [direction] at [null]. *)
Definition replayScore (genes : StrategyGenes) (tpoSignal : Bias.t)
    (rsiSignal : RsiSignal.t) : Q * option PredictionDirection :=
  let confidence := 50 in
  let direction := None in
  let '(confidence, direction) :=
    match tpoSignal with
    | Bias.LONG => (confidence + 20 * tpoWeight genes, Some CALL)
    | Bias.SHORT => (confidence + 20 * tpoWeight genes, Some PUT)
    | Bias.NEUTRAL => (confidence, direction)
    end in
  match rsiSignal with
  | RsiSignal.OVERSOLD =>
      (confidence + 20 * rsiWeight genes,
       match direction with None => Some CALL | Some d => Some d end)
  | RsiSignal.OVERBOUGHT =>
      (confidence + 20 * rsiWeight genes,
       match direction with None => Some PUT | Some d => Some d end)
  | RsiSignal.NEUTRAL => (confidence, direction)
  end.

(** The signals and the score of one replay window; [None] when the
    profile cannot be built ([continue]). *)
Definition windowScore (genes : StrategyGenes) (candleData : list Candle)
    (currentPrice : Q) : option (Q * option PredictionDirection) :=
  match Parallax.profileOf candleData with
  | None => None
  | Some tpoProfile =>
      let technicals := Technicals.computeTechnicalSnapshot candleData in
      let tpoSignal := TPO.getTPOSignal currentPrice tpoProfile in
      let rsiSignal := Parallax.rsiSignalOf technicals in
      Some (replayScore genes tpoSignal rsiSignal)
  end.

(** One round of the replay loop at index [i]: the trade it pushes, if
    any. *)
Definition replayWindow (genes : StrategyGenes) (candles : list Candle)
    (i : nat) : option SimulatedTrade :=
  let windowSize := 30%nat in
  let candleData := firstn windowSize (skipn (i - windowSize) candles) in
  match List.last (map Some candleData) None with
  | None => None
  | Some lastOfWindow =>
      let currentPrice := close lastOfWindow in
      match windowScore genes candleData currentPrice with
      | None => None
      | Some (confidence, None) => None
      | Some (confidence, Some direction) =>
          if JS.ltb confidence (minConfidence genes) then None
          else
            let futureCandles :=
              firstn (Nat.min (i + 10) (length candles) - i) (skipn i candles) in
            match List.last (map Some futureCandles) None with
            | None => None
            | Some lastFuture =>
                let exitPrice := close lastFuture in
                let strike := inject_Z (JS.round currentPrice) in
                let estimatedDelta := 5 # 10 in
                let distanceFromStrike := JS.abs (currentPrice - strike) in
                let estimatedEntryPremium :=
                  JS.max (5 # 10) (distanceFromStrike * estimatedDelta + 1) in
                let underlyingMove := exitPrice - currentPrice in
                let premiumChange :=
                  underlyingMove * (match direction with
                                    | CALL => estimatedDelta
                                    | PUT => - estimatedDelta
                                    end) in
                let estimatedExitPremium :=
                  JS.max (1 # 100) (estimatedEntryPremium + premiumChange) in
                let pnl := estimatedExitPremium - estimatedEntryPremium in
                Some {| st_direction := direction; st_strike := strike;
                        st_entryPrice := currentPrice; st_exitPrice := exitPrice;
                        st_pnl := pnl; isWin := JS.ltb 0 pnl |}
            end
      end
  end.

(** [for (let i = windowSize; i < candles.length - 10; i += 10)]; the fuel
    bounds the number of rounds. *)
Fixpoint replayLoop (fuel : nat) (genes : StrategyGenes)
    (candles : list Candle) (i : nat) : list SimulatedTrade :=
  match fuel with
  | O => []
  | S fuel' =>
      if (i + 10 <? length candles)%nat then
        match replayWindow genes candles i with
        | Some t => t :: replayLoop fuel' genes candles (i + 10)
        | None => replayLoop fuel' genes candles (i + 10)
        end
      else []
  end.

(** The drawdown scan: [(maxDrawdown, peak, cumulative)]. *)
Definition drawdown (trades : list SimulatedTrade) : Q :=
  fst (fst (fold_left
              (fun '(maxDrawdown, peak, cumulative) trade =>
                 let cumulative := cumulative + st_pnl trade in
                 let peak := if JS.ltb peak cumulative then cumulative else peak in
                 let drawdown := peak - cumulative in
                 ((if JS.ltb maxDrawdown drawdown then drawdown else maxDrawdown),
                  peak, cumulative))
              trades (0, 0, 0))).

Definition runHistoricalBacktest (ticker : string) (startDate endDate : Z)
    (genes : StrategyGenes) (db : DB) : BacktestResult * DB :=
  let candles := loadCandles db ticker startDate endDate in
  if (length candles <? 60)%nat then
    ({| totalTrades := 0; bt_wins := 0; bt_losses := 0; bt_winRate := 0;
        profitFactor := 0; maxDrawdown := 0 |}, db)
  else
    let trades := replayLoop (length candles) genes candles 30 in
    let wins := length (List.filter isWin trades) in
    let losses := (length trades - wins)%nat in
    let winRate :=
      if (0 <? length trades)%nat
      then Technicals.ofNat wins / Technicals.ofNat (length trades) else 0 in
    let totalProfit :=
      Technicals.sum (map st_pnl (List.filter (fun t => JS.ltb 0 (st_pnl t)) trades)) in
    let totalLoss :=
      JS.abs (Technicals.sum
                (map st_pnl (List.filter (fun t => JS.ltb (st_pnl t) 0) trades))) in
    (* an infinite profit factor is reported as 0 *)
    let profitFactor :=
      if JS.ltb 0 totalLoss then totalProfit / totalLoss else 0 in
    let result :=
      {| totalTrades := length trades; bt_wins := wins; bt_losses := losses;
         bt_winRate := winRate; profitFactor := profitFactor;
         maxDrawdown := drawdown trades |} in
    (result,
     with_backtests db
       (backtests db ++
          [{| b_ticker := ticker; b_totalTrades := totalTrades result;
              b_winRate := bt_winRate result;
              b_profitFactor := profitFactor;
              b_maxDrawdown := drawdown trades |}])).

End Backtest.

(** ** server/aurora/reconcile.ts *)

Record GradeResult := mkGradeResult { graded : nat; wins : nat; losses : nat }.

Module Reconcile.

Local Open Scope Q_scope.

(** [ORDER BY timestamp DESC LIMIT 1] over the candles of a ticker. *)
Definition lastCandle (db : DB) (ticker : string) : option Candle :=
  fold_left
    (fun best r =>
       if bool_decide (c_ticker r = ticker) then
         match best with
         | Some b => if (timestamp b <? timestamp (c_candle r))%Z
                     then Some (c_candle r) else best
         | None => Some (c_candle r)
         end
       else best)
    (candles db) None.

(** The premium the grader estimates for an open prediction at the
    current price. *)
Definition currentPremium (pred : PredictionRow) (entryPremium currentPrice : Q)
  : Q :=
  let estimatedDelta :=
    match direction pred with CALL => 5 # 10 | PUT => - (5 # 10) end in
  let underlyingMove := currentPrice - JS.orElse (entryPrice pred) (strike pred) in
  let estimatedPremiumChange := underlyingMove * JS.abs estimatedDelta in
  JS.max (1 # 100) (entryPremium + estimatedPremiumChange).

(** The verdict on one open prediction: [None] when it is skipped,
    otherwise [(pnl, isWin)]. *)
Definition gradeOne (db : DB) (pred : PredictionRow) : option (Q * bool) :=
  let entryPremium := JS.orElse (entryTrigger pred) 0 in
  let stopPremium := JS.orElse (stopLoss pred) 0 in
  let targetPremium := JS.orElse (takeProfit pred) 0 in
  if JS.leb entryPremium 0 then None
  else
    match lastCandle db (ticker pred) with
    | None => None
    | Some lastCandle =>
        let currentPrice := close lastCandle in
        let currentPremium := currentPremium pred entryPremium currentPrice in
        let pnl := currentPremium - entryPremium in
        let isWin :=
          if JS.leb targetPremium currentPremium then true
          else if JS.leb currentPremium stopPremium then false
          else JS.ltb 0 pnl in
        Some (pnl, isWin)
    end.

(** The body of the grading loop for one prediction: the outcome row is
    inserted and the prediction closed. *)
Definition gradeStep (stamp : Timestamp) (acc : GradeResult * DB)
    (pred : PredictionRow) : GradeResult * DB :=
  let '(results, db) := acc in
  match gradeOne db pred with
  | None => (results, db)
  | Some (pnl, isWin) =>
      let i := (outcomeSeq db + 1)%Z in
      let db :=
        with_outcomes db
          (outcomes db ++
             [{| o_id := i; predictionId := Some (id pred);
                 actualPnl := Some pnl;
                 result := Some (if isWin then WIN else LOSS);
                 closedAt := Some stamp |}])
          i in
      let db := update_status (id pred) CLOSED db in
      ({| graded := S (graded results);
          wins := if isWin then S (wins results) else wins results;
          losses := if isWin then losses results else S (losses results) |},
       db)
  end.

Definition gradeOpenTrades (random : nat -> Q) (stamp : Timestamp) (db : DB)
  : GradeResult * DB :=
  let results := {| graded := 0; wins := 0; losses := 0 |} in
  let activePredictions := select_active db in
  match activePredictions with
  | [] => (results, db)
  | _ =>
      let '(results, db) :=
        fold_left (gradeStep stamp) activePredictions (results, db) in
      if (0 <? graded results)%nat then
        let winRate :=
          Technicals.ofNat (wins results) / Technicals.ofNat (graded results) in
        match Evolution.checkAndTriggerEvolution random (epochMs stamp)
                winRate db with
        | Some db' => (results, db')
        | None => (results, db)
        end
      else (results, db)
  end.

(** The loop body of [expireStale]: [(expired, db)]. *)
Definition expireStep (todayDate : string) (acc : nat * DB)
    (pred : PredictionRow) : nat * DB :=
  let '(expired, db) := acc in
  match generatedAt pred with
  | None => (expired, db)
  | Some generatedAt =>
      let generatedDate := isoDate generatedAt in
      if String.ltb generatedDate todayDate
      then (S expired, update_status (id pred) EXPIRED db)
      else (expired, db)
  end.

Definition expireStale (todayDate : string) (db : DB) : nat * DB :=
  fold_left (expireStep todayDate) (select_active db) (O, db).

Record WinRate := mkWinRate { wr_total : nat; wr_wins : nat; winRate : Q }.

(** [getWinRate(days)] reads every outcome row; its argument is unused. *)
Definition getWinRate (days : Z) (db : DB) : WinRate :=
  let outcomes := outcomes db in
  let wins :=
    length (List.filter
              (fun o => match result o with Some WIN => true | _ => false end)
              outcomes) in
  let total := length outcomes in
  {| wr_total := total; wr_wins := wins;
     winRate := if (0 <? total)%nat
                then Technicals.ofNat wins / Technicals.ofNat total * 100
                else 0 |}.

End Reconcile.

(** ** server/aurora/daemon.ts *)

Record TradierGreeks := mkTradierGreeks {
  g_delta : Q; g_gamma : Q; g_theta : Q; g_vega : Q; g_mid_iv : Q
}.

Record TradierOption := mkTradierOption {
  opt_strike : Q;
  option_type : PredictionDirection;
  opt_bid : Q;
  opt_ask : Q;
  greeks : option TradierGreeks
}.

(** What the market-data vendor answers during one tick. *)
Record MarketFeed := mkMarketFeed {
  fetchMultipleQuotes : list string -> list TradierQuote;
  fetchIntradayCandles : string -> list Candle;
  fetchExpirations : string -> list string;
  fetchOptionChain : string -> string -> list TradierOption
}.

(** The clock reading of a tick: the market-zone reading and the database
    clock that stamps the rows it inserts. *)
Record Tick := mkTick {
  now : DateTime;
  stamp : Timestamp;
  feed : MarketFeed
}.

(** The process state: the database and the weights cache of parallax.ts. *)
Record State := mkState {
  db : DB;
  genesCache : gmap string (StrategyGenes * Z)
}.

Module Daemon.

Local Open Scope Q_scope.
Local Open Scope string_scope.

Definition TRACKED_TICKERS : list string := ["SPY"].
Definition DAILY_0DTE : list string := ["SPY"].
Definition FRIDAY_0DTE : list string := [].

Definition getCategory (ticker : string) : PredictionCategory :=
  if bool_decide (ticker = "SPY") then SPY_DAILY
  else if bool_decide (ticker = "SPX") then SPX_DAILY
  else if bool_decide (ticker = "NVDA") then NVDA_FRIDAY
  else if bool_decide (ticker = "TSLA") then TSLA_FRIDAY
  else if bool_decide (ticker = "XOM") then XOM_FRIDAY
  else if bool_decide (ticker = "AAPL") then AAPL_FRIDAY
  else if bool_decide (ticker = "ASML") then ASML_FRIDAY
  else SPY_DAILY.

Definition getActiveTickers (now : DateTime) : list string :=
  if MarketTime.isFriday now then DAILY_0DTE ++ FRIDAY_0DTE else DAILY_0DTE.

Definition fetch0DTEExpiration (t : Tick) (ticker : string) : option string :=
  let expirations := fetchExpirations (feed t) ticker in
  let today := MarketTime.getTodayET (now t) in
  if bool_decide (today ∈ expirations) then Some today
  else head expirations.

Definition storeQuote (ticker : string) (quote : TradierQuote) (db : DB) : DB :=
  with_quotes db (quotes db ++ [{| qr_ticker := ticker; qr_quote := quote |}]).

Definition storeCandles (ticker : string) (cs : list Candle) (db : DB) : DB :=
  match cs with
  | [] => db
  | _ =>
      with_candles db
        (candles db ++ map (fun c => {| c_ticker := ticker; c_candle := c |}) cs)
  end.

(** The overlay of the contract trade plan on a prediction that is about
    to be stored. *)
Definition overlay (prediction : Prediction) (entryPrice entryTrigger stopLoss
    takeProfit riskRewardRatio : Q) : Prediction :=
  {| p_ticker := p_ticker prediction; p_category := p_category prediction;
     p_direction := p_direction prediction; p_strike := p_strike prediction;
     p_entryPrice := Some entryPrice;
     p_confidence := p_confidence prediction;
     p_session := p_session prediction; p_engine := p_engine prediction;
     p_reasoning := p_reasoning prediction;
     p_entryTrigger := Some entryTrigger;
     p_stopLoss := Some stopLoss;
     p_takeProfit := Some takeProfit;
     p_riskRewardRatio := Some riskRewardRatio |}.

Definition withContractPlan (t : Tick) (ticker : string) (currentPrice : Q)
    (prediction : Prediction) : Prediction :=
  match fetch0DTEExpiration t ticker with
  | None => prediction
  | Some expiration =>
      if bool_decide (expiration = "") then prediction
      else
        let chain := fetchOptionChain (feed t) ticker expiration in
        let optionType := p_direction prediction in
        match List.find
                (fun c => JS.eqb (opt_strike c) (p_strike prediction)
                          && bool_decide (option_type c = optionType))
                chain with
        | None => prediction
        | Some contract =>
            if JS.ltb 0 (opt_bid contract) then
              match greeks contract with
              | Some g =>
                  let currentOptionAsk :=
                    OptionsRiskCalculator.getMidPrice (opt_bid contract)
                      (opt_ask contract) in
                  let stockLevels :=
                    {| sl_entry := JS.orElse (p_entryTrigger prediction) currentPrice;
                       sl_stop := JS.orElse (p_stopLoss prediction) currentPrice;
                       sl_target := JS.orElse (p_takeProfit prediction) currentPrice |} in
                  let greeks :=
                    {| delta := JS.abs (g_delta g); gamma := g_gamma g |} in
                  let optionTradePlan :=
                    OptionsRiskCalculator.calculate currentOptionAsk currentPrice
                      stockLevels greeks in
                  overlay prediction (contractEntry optionTradePlan)
                    (contractEntry optionTradePlan)
                    (contractStop optionTradePlan)
                    (contractTarget optionTradePlan)
                    (otp_riskReward optionTradePlan)
              | None =>
                  let premium :=
                    OptionsRiskCalculator.getMidPrice (opt_bid contract)
                      (opt_ask contract) in
                  overlay prediction premium premium
                    (JS.toFixed2 (premium * (5 # 10)))
                    (JS.toFixed2 (premium * 2)) 2
              end
            else prediction
        end
  end.

Section WithTranscendental.

Context `{Transcendental}.

(** The prediction the engines produce for one ticker, with the weights
    cache they leave behind and the candles the tick stores on the
    way. *)
Definition predict (t : Tick) (isTrading isPreMarket : bool)
    (session : MarketSession) (ticker : string) (currentPrice : Q) (s : State)
  : option Prediction * State :=
  let category := getCategory ticker in
  if isPreMarket then
    (Parallax.generateBlackScholesPrediction (now t) ticker category
       currentPrice (25 # 100) Momentum.NEUTRAL, s)
  else if isTrading then
    let cs := fetchIntradayCandles (feed t) ticker in
    let db :=
      if (0 <? length cs)%nat
      then storeCandles ticker (Technicals.lastn 10 cs) (db s)
      else db s in
    if (30 <=? length cs)%nat then
      let '(prediction, genesCache) :=
        Parallax.generateTPOMITPrediction db (now t) (genesCache s) ticker
          category cs currentPrice in
      let prediction :=
        match prediction with
        | Some p => Some p
        | None =>
            if bool_decide (session = OPENING_RANGE) && (30 <=? length cs)%nat
            then Parallax.generateORBPrediction (now t) ticker category
                   (firstn 30 cs) currentPrice
            else None
        end in
      (prediction, {| db := db; genesCache := genesCache |})
    else (None, {| db := db; genesCache := genesCache s |})
  else (None, s).

(** The body of the per-ticker loop of [runPredictionCycle]. *)
Definition cycleTicker (t : Tick) (quotes : list TradierQuote)
    (isTrading isPreMarket : bool) (session : MarketSession)
    (s : State) (ticker : string) : State :=
  match List.find (fun q => bool_decide (q_symbol q = ticker)) quotes with
  | None => s
  | Some quote =>
      if JS.leb (q_last quote) 0 then s
      else
        let currentPrice := q_last quote in
        let '(prediction, s) :=
          predict t isTrading isPreMarket session ticker currentPrice s in
        match prediction with
        | None => s
        | Some prediction =>
            if JS.leb 60 (p_confidence prediction) then
              let existingPredictions :=
                Parallax.getActivePredictions (Some ticker) (db s) in
              let hasSameDirection :=
                existsb
                  (fun p =>
                     bool_decide (direction p = p_direction prediction)
                     && bool_decide (engine p = Some (p_engine prediction)))
                  existingPredictions in
              if hasSameDirection then s
              else
                let prediction :=
                  withContractPlan t ticker currentPrice prediction in
                {| db := snd (Parallax.storePrediction (stamp t) prediction (db s));
                   genesCache := genesCache s |}
            else s
        end
  end.

Definition runPredictionCycle (t : Tick) (s : State) : State :=
  let holidays := MarketCalendar.getHolidaysSet in
  let halfDays := MarketCalendar.getHalfDaysSet in
  match MarketCalendar.getDayType (now t) with
  | MarketCalendar.HOLIDAY | MarketCalendar.WEEKEND => s
  | _ =>
      let session := MarketTime.getSession (now t) holidays halfDays in
      let isTrading := MarketTime.isTradingHours (now t) holidays halfDays in
      let isPreMarket := MarketTime.isPreMarket (now t) holidays in
      if negb isTrading && negb isPreMarket then s
      else
        let activeTickers := getActiveTickers (now t) in
        let quotes := fetchMultipleQuotes (feed t) activeTickers in
        match quotes with
        | [] => s
        | _ =>
            let db :=
              fold_left
                (fun db quote =>
                   if JS.ltb 0 (q_last quote)
                   then storeQuote (q_symbol quote) quote db else db)
                quotes (db s) in
            fold_left (cycleTicker t quotes isTrading isPreMarket session)
              activeTickers {| db := db; genesCache := genesCache s |}
        end
  end.

End WithTranscendental.

Definition expireOldPredictions (now : DateTime) (s : State) : State :=
  let activePredictions := Parallax.getActivePredictions None (db s) in
  let today := MarketTime.getTodayET now in
  {| db :=
       fold_left
         (fun db prediction =>
            match generatedAt prediction with
            | None => db
            | Some generatedAt =>
                if String.ltb (isoDate generatedAt) today
                then Parallax.updatePredictionStatus (id prediction) EXPIRED
                       None db
                else db
            end)
         activePredictions (db s);
     genesCache := genesCache s |}.

Definition initial : State := {| db := emptyDB; genesCache := ∅ |}.

(** The moves of the running daemon, each taken as one uninterrupted step:
    a scheduler tick, the grader, and the two expiry sweeps. *)
Inductive step `{Transcendental} : State -> State -> Prop :=
| step_tick (t : Tick) (s : State) :
    step s (runPredictionCycle t s)
| step_expire (now : DateTime) (s : State) :
    step s (expireOldPredictions now s)
| step_grade (random : nat -> Q) (stamp : Timestamp) (s : State) :
    step s {| db := snd (Reconcile.gradeOpenTrades random stamp (db s));
              genesCache := genesCache s |}
| step_expireStale (todayDate : string) (s : State) :
    step s {| db := snd (Reconcile.expireStale todayDate (db s));
              genesCache := genesCache s |}.

Inductive reachable `{Transcendental} : State -> Prop :=
| reachable_initial : reachable initial
| reachable_step (s s' : State) : reachable s -> step s s' -> reachable s'.

End Daemon.

(** * Vocabulary of the statements and sample inputs *)

(** A half-day of the built-in calendar at 13:30. *)
Definition halfDay_1330 : DateTime :=
  {| ts := 1720027800000; dateStr := "2024-07-03"; weekday := 3;
     hour := 13; minute := 30; second := 0; millisecond := 0 |}.

(** The scenario of the specification: [delta = -0.5], [midNow = 1.20], the
    stop one dollar and the target two dollars away from the entry. *)
Definition scenarioLevels : StockLevels :=
  {| sl_entry := 452; sl_stop := 453; sl_target := 450 |}.
Definition scenarioGreeks : Greeks := {| delta := - (5 # 10); gamma := 1 # 10 |}.

(** The five component weights of a genes vector: their sum, and the
    invariant that none is negative. *)
Definition weightSum (g : StrategyGenes) : Q :=
  (tpoWeight g + rsiWeight g + ibWeight g + cvdWeight g + vwapWeight g)%Q.

Definition nonnegWeights (g : StrategyGenes) : Prop :=
  (0 <= tpoWeight g /\ 0 <= rsiWeight g /\ 0 <= ibWeight g
   /\ 0 <= cvdWeight g /\ 0 <= vwapWeight g)%Q.




(** Sample random draws (0.1, 0.9, 0.1, ...: every mutation test passes and
    every crossover pick takes the first parent) and a genes vector with a
    confidence floor of 70. *)
Definition sampleRandom (n : nat) : Q := if Nat.even n then 1 # 10 else 9 # 10.

Definition sampleGenes : StrategyGenes :=
  {| tpoWeight := 25 # 100; rsiWeight := 20 # 100; ibWeight := 20 # 100;
     cvdWeight := 15 # 100; vwapWeight := 20 # 100; minConfidence := 70;
     orbBreakoutMultiplier := 1; stopLossMultiplier := 5 # 10;
     targetMultiplier := 2 |}.

(** Draws of 0.9 throughout (no mutation test passes), and a genes vector
    whose first component weight is negative. *)
Definition quietRandom (n : nat) : Q := 9 # 10.

Definition negativeGenes : StrategyGenes :=
  {| tpoWeight := - (1); rsiWeight := 1; ibWeight := 1; cvdWeight := 1;
     vwapWeight := 1; minConfidence := 60; orbBreakoutMultiplier := 1;
     stopLossMultiplier := 5 # 10; targetMultiplier := 2 |}.

(** The premium the specification gives for the grader: the stock move
    since the predicted entry, signed by the direction, at a delta of 0.5. *)
Definition claimedPremium (pred : PredictionRow) (entryPremium currentStock : Q)
  : Q :=
  let sign := match direction pred with CALL => 1%Q | PUT => (- (1))%Q end in
  let predictedEntryStock :=
    match entryPrice pred with Some e => e | None => strike pred end in
  Qmax (1 # 100)
    (entryPremium + (currentStock - predictedEntryStock) * sign * (5 # 10))%Q.

(** The grader scenario of the specification on the PUT side: entry stock
    450, entry premium 1.00, stop 0.50, target 2.00, and a last candle that
    closed at 454. *)
Definition putRow : PredictionRow :=
  {| id := 1; ticker := "SPY"; category := SPY_DAILY; direction := PUT;
     strike := 448; entryPrice := Some 450%Q; confidence := 68;
     entryTrigger := Some 1%Q; stopLoss := Some (5 # 10); takeProfit := Some 2%Q;
     riskRewardRatio := Some 2%Q; session := Some MORNING;
     engine := Some TPO_MIT;
     reasoning := {| r_engine := TPO_MIT; confidence_components := [] |};
     status := Some ACTIVE;
     generatedAt := Some {| epochMs := 1700000000000; isoDate := "2023-11-14" |} |}.

Definition putDB : DB :=
  with_candles (with_predictions emptyDB [putRow] 1)
    [{| c_ticker := "SPY";
        c_candle := {| timestamp := 1700000060000; open := 453; high := 455;
                       low := 452; close := 454; volume := 100 |} |}].

(** Thirty one-minute candles that all open and close at 450 between 449
    and 451, a database whose active SPY row asks for a confidence of 70,
    and a clock reading in the morning session. *)
Definition flatCandles : list Candle :=
  map (fun i => {| timestamp := 1700000000000 + Z.of_nat i * 60000;
                   open := 450; high := 451; low := 449; close := 450;
                   volume := 100 |})
    (seq 0 30).

Definition floor70DB : DB :=
  with_parameters emptyDB
    [{| pr_id := 1; pr_name := "SPY"; pr_config := sampleGenes; pr_winRate := 0;
        pr_isActive := true; pr_lastUpdated := 0 |}] 1 [].

Definition morning : DateTime :=
  {| ts := 1700000000000 + 40 * 60000; dateStr := "2023-11-14"; weekday := 2;
     hour := 11; minute := 0; second := 0; millisecond := 0 |}.

Definition nonnegConfidenceWeights (w : ConfidenceWeights) : Prop :=
  (0 <= w_tpo w /\ 0 <= w_rsi w /\ 0 <= w_ib w /\ 0 <= w_cvd w /\ 0 <= w_vwap w)%Q.

(** A component score, when present, lies in [0, 1]. *)
Definition unitScore (c : option Q) : Prop :=
  forall s, c = Some s -> (0 <= s <= 1)%Q.

(** The contribution of a signal to the replay's confidence. *)
Definition replayBonus (fired : bool) (weight : Q) : Q :=
  if fired then (20 * weight)%Q else 0%Q.

(** Stand-ins for the transcendental functions where a statement is tried
    on a concrete input. *)
Definition sampleTranscendental : Transcendental :=
  {| Math_sqrt := fun x => x;
     calculateBlackScholes :=
       fun _ => {| theoreticalPrice := 1; bs_delta := 5 # 10; bs_gamma := 0;
                   theta := 0; vega := 0; rho := 0 |} |}.

(** The number of ACTIVE predictions of a [(ticker, direction, engine)]
    triple, and the number of outcome rows of a prediction. *)
Definition sameTriple (t : string) (d : PredictionDirection)
    (e : option PredictionEngine) (r : PredictionRow) : bool :=
  is_active r && bool_decide (ticker r = t) && bool_decide (direction r = d)
  && bool_decide (engine r = e).

Definition activeCount (ps : list PredictionRow) (t : string)
    (d : PredictionDirection) (e : option PredictionEngine) : nat :=
  length (List.filter (sameTriple t d e) ps).

Definition refersTo (i : Z) (o : OutcomeRow) : bool :=
  bool_decide (predictionId o = Some i).

Definition outcomeCount (os : list OutcomeRow) (i : Z) : nat :=
  length (List.filter (refersTo i) os).

Definition expectedOutcomes (r : PredictionRow) : nat :=
  if bool_decide (status r = Some CLOSED) then 1%nat else 0%nat.

(** The invariant of the predictions and outcomes tables. *)
Record Inv (d : DB) : Prop := mkInv {
  inv_ids : List.NoDup (map id (predictions d));
  inv_seq : forall r, List.In r (predictions d) -> id r <= predictionSeq d;
  inv_refs : forall o, List.In o (outcomes d) ->
               exists r, List.In r (predictions d) /\ predictionId o = Some (id r);
  inv_outcomes : forall r, List.In r (predictions d) ->
                   outcomeCount (outcomes d) (id r) = expectedOutcomes r;
  inv_status : forall r, List.In r (predictions d) ->
                 status r = Some ACTIVE \/ status r = Some CLOSED
                 \/ status r = Some EXPIRED;
  inv_unique : forall t dir e, (activeCount (predictions d) t dir e <= 1)%nat;
  inv_engine : forall r, List.In r (predictions d) -> engine r <> Some BLACK_SCHOLES
}.

(** The elementary moves on the two tables that the daemon's steps are made
    of: a write elsewhere, the insertion of a prediction no ACTIVE row
    duplicates (only when [ins] allows insertions), the expiry of an ACTIVE
    row, and the closing of an ACTIVE row together with the insertion of its
    outcome. *)
Inductive prim (ins : bool) : DB -> DB -> Prop :=
| prim_other (d d' : DB) :
    predictions d' = predictions d -> predictionSeq d' = predictionSeq d ->
    outcomes d' = outcomes d -> prim ins d d'
| prim_insert (d : DB) (stamp : Timestamp) (p : Prediction) :
    ins = true ->
    activeCount (predictions d) (p_ticker p) (p_direction p) (Some (p_engine p))
    = 0%nat ->
    p_engine p <> BLACK_SCHOLES ->
    prim ins d (snd (Parallax.storePrediction stamp p d))
| prim_expire (d : DB) (r : PredictionRow) :
    List.In r (predictions d) -> status r = Some ACTIVE ->
    prim ins d (update_status (id r) EXPIRED d)
| prim_close (d : DB) (r : PredictionRow) (o : OutcomeRow) (i : Z) :
    List.In r (predictions d) -> status r = Some ACTIVE ->
    predictionId o = Some (id r) ->
    prim ins d (update_status (id r) CLOSED (with_outcomes d (outcomes d ++ [o]) i)).

(** A vendor that answers with one SPY quote, the given intraday candles and
    no option expiration; a tick in the morning session on the flat window
    with SPY at 452, and a tick in the pre-market session. *)
Definition spyQuote (last : Q) : TradierQuote :=
  {| q_symbol := "SPY"; q_bid := last; q_ask := last; q_last := last;
     q_volume := 1000 |}.

Definition sampleFeed (cs : list Candle) (last : Q) : MarketFeed :=
  {| fetchMultipleQuotes := fun _ => [spyQuote last];
     fetchIntradayCandles := fun _ => cs;
     fetchExpirations := fun _ => [];
     fetchOptionChain := fun _ _ => [] |}.

Definition morningTick : Tick :=
  {| now := morning;
     stamp := {| epochMs := ts morning; isoDate := "2023-11-14" |};
     feed := sampleFeed flatCandles 452 |}.

Definition preMarket : DateTime :=
  {| ts := 1700000000000 - 140 * 60000; dateStr := "2023-11-14"; weekday := 2;
     hour := 8; minute := 0; second := 0; millisecond := 0 |}.

Definition preMarketTick : Tick :=
  {| now := preMarket;
     stamp := {| epochMs := ts preMarket; isoDate := "2023-11-14" |};
     feed := sampleFeed [] 452 |}.

(** The daemon after one morning tick, after a second identical tick, and
    after a grader run that follows. *)
Definition afterOneTick : State :=
  @Daemon.runPredictionCycle sampleTranscendental morningTick Daemon.initial.

Definition afterTwoTicks : State :=
  @Daemon.runPredictionCycle sampleTranscendental morningTick afterOneTick.

Definition afterGrade : State :=
  {| db := snd (Reconcile.gradeOpenTrades sampleRandom (stamp morningTick)
                  (db afterTwoTicks));
     genesCache := genesCache afterTwoTicks |}.

Definition afterPreMarketTick : State :=
  @Daemon.runPredictionCycle sampleTranscendental preMarketTick afterOneTick.

(** A component score, when present, lies between [lo] and [hi]. *)
Definition boundedScore (lo hi : Q) (c : option Q) : Prop :=
  forall s, c = Some s -> (lo <= s <= hi)%Q.

(** A Saturday noon and a tick at that time. *)
Definition saturday : DateTime :=
  {| ts := 1700326800000; dateStr := "2023-11-18"; weekday := 6;
     hour := 12; minute := 0; second := 0; millisecond := 0 |}.

Definition saturdayTick : Tick :=
  {| now := saturday;
     stamp := {| epochMs := ts saturday; isoDate := "2023-11-18" |};
     feed := sampleFeed flatCandles 452 |}.

(** The clamp ranges of the four genes that are not component weights. *)
Definition geneRanges (g : StrategyGenes) : Prop :=
  (50 <= minConfidence g <= 80
   /\ 3 # 10 <= orbBreakoutMultiplier g <= 3
   /\ 2 # 10 <= stopLossMultiplier g <= 8 # 10
   /\ 12 # 10 <= targetMultiplier g <= 4)%Q.

(** The parameter rows of a ticker. *)
Definition namedRows (tk : string) (rows : list ParameterRow)
  : list ParameterRow :=
  List.filter (fun r => bool_decide (pr_name r = tk)) rows.

(** The levels of an opening range from 449 to 451. *)
Definition sampleLevels : ORBLevels :=
  {| orb_high := 451; orb_low := 449; orb_mid := 450; rangeSize := 2;
     targetBull1 := 453; targetBull2 := 455; targetBear1 := 447;
     targetBear2 := 445; stopLossLong := 450; stopLossShort := 450 |}.

(** The direction an entry signal of [checkORBEntry] stands for. *)
Definition entryDirection (s : ORB.EntrySignal) : PredictionDirection :=
  match s with ORB.ENTRY_LONG => CALL | ORB.ENTRY_SHORT => PUT end.

(** A volume histogram whose prices ascend strictly, as [pricesSorted]. *)
Fixpoint ascending (l : list (Q * Q)) : Prop :=
  match l with
  | [] => True
  | (p, _) :: rest =>
      (forall q, List.In q (map fst rest) -> (p < q)%Q) /\ ascending rest
  end.

(** A prediction generated on a date before [today]. *)
Definition staleOn (today : string) (r : PredictionRow) : bool :=
  match generatedAt r with
  | Some g => String.ltb (isoDate g) today
  | None => false
  end.

(** The profile of the flat window: point of control and value-area low at
    449, value-area high at 450.5. *)
Definition valueProfile : TPOProfile :=
  {| poc := 449; vah := 4505 # 10; val := 449; impulse := Momentum.NEUTRAL;
     profileData := []; totalVolume := 3000; priceRange := (451%Q, 449%Q) |}.

(** * Properties *)

(** ** Comparisons on rationals *)

Module JSFacts.

Local Open Scope Q_scope.

Lemma ltb_lt (a b : Q) : JS.ltb a b = true <-> a < b.
Proof.
  unfold JS.ltb. rewrite Qlt_alt. destruct (a ?= b); split; congruence.
Qed.

Lemma ltb_ge (a b : Q) : JS.ltb a b = false <-> b <= a.
Proof.
  split.
  - intros E. apply Qnot_lt_le. intros L. apply ltb_lt in L. congruence.
  - intros L. destruct (JS.ltb a b) eqn:E; [ | reflexivity ].
    apply ltb_lt in E. exfalso. exact (Qlt_not_le _ _ E L).
Qed.

Lemma leb_le (a b : Q) : JS.leb a b = true <-> a <= b.
Proof.
  unfold JS.leb. rewrite Qle_alt. destruct (a ?= b); split; congruence.
Qed.

Lemma leb_gt (a b : Q) : JS.leb a b = false <-> b < a.
Proof.
  split.
  - intros E. apply Qnot_le_lt. intros L. apply leb_le in L. congruence.
  - intros L. destruct (JS.leb a b) eqn:E; [ | reflexivity ].
    apply leb_le in E. exfalso. exact (Qlt_not_le _ _ L E).
Qed.

Lemma eqb_eq (a b : Q) : JS.eqb a b = true <-> a == b.
Proof.
  unfold JS.eqb. rewrite Qeq_alt. destruct (a ?= b); split; congruence.
Qed.

Lemma eqb_neq (a b : Q) : JS.eqb a b = false <-> ~ a == b.
Proof.
  split.
  - intros E L. apply eqb_eq in L. congruence.
  - intros L. destruct (JS.eqb a b) eqn:E; [ | reflexivity ].
    apply eqb_eq in E. contradiction.
Qed.

Lemma max_spec (a b : Q) :
  (a < b /\ JS.max a b = b) \/ (b <= a /\ JS.max a b = a).
Proof.
  unfold JS.max. destruct (JS.ltb a b) eqn:E.
  - left. split; [now apply ltb_lt | reflexivity].
  - right. split; [now apply ltb_ge | reflexivity].
Qed.

Lemma min_spec (a b : Q) :
  (b < a /\ JS.min a b = b) \/ (a <= b /\ JS.min a b = a).
Proof.
  unfold JS.min. destruct (JS.ltb b a) eqn:E.
  - left. split; [now apply ltb_lt | reflexivity].
  - right. split; [now apply ltb_ge | reflexivity].
Qed.

Lemma max_lower_l (a b : Q) : a <= JS.max a b.
Proof. destruct (max_spec a b) as [[? ->] | [? ->]]; lra. Qed.

Lemma max_lower_r (a b : Q) : b <= JS.max a b.
Proof. destruct (max_spec a b) as [[? ->] | [? ->]]; lra. Qed.

Lemma min_upper_l (a b : Q) : JS.min a b <= a.
Proof. destruct (min_spec a b) as [[? ->] | [? ->]]; lra. Qed.

Lemma min_upper_r (a b : Q) : JS.min a b <= b.
Proof. destruct (min_spec a b) as [[? ->] | [? ->]]; lra. Qed.

(** Rounding to cents moves a value by at most half a cent. *)
Lemma toFixed2_close (a : Q) : Qabs (JS.toFixed2 a - a) <= 1 # 200.
Proof.
  unfold JS.toFixed2.
  pose proof (Qfloor_le (a * 100 + (1 # 2))) as Hlo.
  pose proof (Qlt_floor (a * 100 + (1 # 2))) as Hhi.
  rewrite inject_Z_plus in Hhi.
  set (f := inject_Z (Qfloor (a * 100 + (1 # 2)))) in *.
  change (inject_Z 1) with 1 in Hhi.
  assert (E : f / 100 == f * (1 # 100)) by (unfold Qdiv; reflexivity).
  apply Qabs_Qle_condition. rewrite E. split; lra.
Qed.

(** A value rounded to cents is a whole number of cents. *)
Lemma toFixed2_cents (a : Q) : exists n : Z, JS.toFixed2 a * 100 == inject_Z n.
Proof.
  exists (Qfloor (a * 100 + (1 # 2))). unfold JS.toFixed2. field.
Qed.

End JSFacts.

(** ** The session tag (time.ts) *)

Section SessionTag.

Variable now : DateTime.
Variables holidays halfDays : gset string.

Let m := hour now * 60 + minute now.
Let C := if decide (dateStr now ∈ halfDays) then 780 else 960.

(** C10.  On a date that is neither a weekend day nor a holiday, with
    minute-of-day [m] and close [C] (780 on a half-day, 960 otherwise),
    [getSession] answers CLOSED for [m < 240] or [m >= C], PRE_MARKET for
    [240 <= m < 570], OPENING_RANGE for [570 <= m < min 600 C], MORNING for
    [600 <= m < min 720 C], AFTERNOON for [720 <= m < min 780 C] and
    POWER_HOUR for [780 <= m < C]; 13:30 on a half-day is CLOSED. *)
Theorem getSession_by_minute_of_day :
  weekday now <= 5 ->
  dateStr now ∉ holidays ->
  let session := MarketTime.getSession now holidays halfDays in
  (m < 240 \/ C <= m -> session = SESSION_CLOSED)
  /\ (240 <= m < 570 -> session = PRE_MARKET)
  /\ (570 <= m < Z.min 600 C -> session = OPENING_RANGE)
  /\ (600 <= m < Z.min 720 C -> session = MORNING)
  /\ (720 <= m < Z.min 780 C -> session = AFTERNOON)
  /\ (780 <= m < C -> session = POWER_HOUR)
  /\ (dateStr now ∈ halfDays -> hour now = 13 -> minute now = 30 ->
      session = SESSION_CLOSED).
Proof.
  intros Hday Hhol. subst m C. cbv zeta.
  unfold MarketTime.getSession, MarketTime.closeTime, MarketTime.totalMinutes.
  destruct (Z.ltb_spec 5 (weekday now)) as [Hw | _]; [lia | ].
  destruct (decide (dateStr now ∈ holidays)) as [Hin | _]; [contradiction | ].
  destruct (decide (dateStr now ∈ halfDays)) as [Hhalf | Hfull].
  all: repeat split; intros;
    repeat match goal with
           | |- context [Z.leb ?a ?b] => destruct (Z.leb_spec a b)
           | |- context [Z.ltb ?a ?b] => destruct (Z.ltb_spec a b)
           end; simpl; try reflexivity; try contradiction; lia.
Qed.

End SessionTag.

Lemma getSession_by_minute_of_day_witness :
  MarketTime.getSession halfDay_1330 MarketCalendar.ALL_HOLIDAYS
    MarketCalendar.ALL_HALF_DAYS = SESSION_CLOSED.
Proof.
  assert (Hday : weekday halfDay_1330 <= 5) by (simpl; lia).
  assert (Hhol : dateStr halfDay_1330 ∉ MarketCalendar.ALL_HOLIDAYS)
    by (apply (bool_decide_eq_false_1 _); vm_compute; reflexivity).
  assert (Hhalf : dateStr halfDay_1330 ∈ MarketCalendar.ALL_HALF_DAYS)
    by (apply (bool_decide_eq_true_1 _); vm_compute; reflexivity).
  exact (proj2 (proj2 (proj2 (proj2 (proj2 (proj2
           (getSession_by_minute_of_day halfDay_1330 _ _ Hday Hhol))))))
           Hhalf eq_refl eq_refl).
Defined.

(** ** The risk projector (options_risk.ts) *)

Section RiskProjector.

Local Open Scope Q_scope.

Lemma JS_max_Qmax (a b : Q) : JS.max a b = Qmax a b.
Proof.
  unfold JS.max, JS.ltb, Qmax, GenericMinMax.gmax.
  destruct (a ?= b); reflexivity.
Qed.

Variables midNow currentStock : Q.
Variable levels : StockLevels.
Variable g : Greeks.

Let stop :=
  Qmax (5 # 100)
    (midNow - Qabs (sl_stop levels - sl_entry levels) * Qabs (delta g)).
Let target :=
  Qmax (5 # 100)
    (midNow + Qabs (sl_target levels - sl_entry levels) * Qabs (delta g)).
Let plan := OptionsRiskCalculator.calculate midNow currentStock levels g.

(** C8, amended.  The projector returns the entry, the stop
    [max(0.05, midNow - |stop - entry| * |delta|)] and the target
    [max(0.05, midNow + |target - entry| * |delta|)] each rounded to a
    whole number of cents (so within half a cent of the formula), and as
    risk/reward the ratio [(target - midNow) / (midNow - stop)] of the
    unrounded values, rounded to two decimals, when the denominator is
    positive and 0 otherwise. *)
Theorem calculate_rounds_to_cents :
  contractEntry plan = JS.toFixed2 midNow
  /\ contractStop plan = JS.toFixed2 stop
  /\ Qabs (contractStop plan - stop) <= 1 # 200
  /\ contractTarget plan = JS.toFixed2 target
  /\ Qabs (contractTarget plan - target) <= 1 # 200
  /\ (0 < midNow - stop ->
      otp_riskReward plan = JS.toFixed2 ((target - midNow) / (midNow - stop)))
  /\ (midNow - stop <= 0 -> otp_riskReward plan = 0).
Proof.
  subst plan stop target. unfold OptionsRiskCalculator.calculate. cbv zeta.
  unfold JS.abs. rewrite !JS_max_Qmax. simpl.
  repeat split; try reflexivity; try apply JSFacts.toFixed2_close.
  - intros Hpos. apply JSFacts.ltb_lt in Hpos. now rewrite Hpos.
  - intros Hneg. apply JSFacts.ltb_ge in Hneg. now rewrite Hneg.
Qed.

End RiskProjector.

Lemma calculate_rounds_to_cents_witness :
  let plan :=
    OptionsRiskCalculator.calculate (120 # 100) 452 scenarioLevels scenarioGreeks in
  (contractEntry plan == 120 # 100)%Q /\ (contractStop plan == 70 # 100)%Q
  /\ (contractTarget plan == 220 # 100)%Q /\ (otp_riskReward plan == 2)%Q.
Proof.
  pose proof (calculate_rounds_to_cents (120 # 100) 452 scenarioLevels
                scenarioGreeks) as (He & Hs & _ & Ht & _ & Hr & _).
  cbv zeta. rewrite He, Hs, Ht, Hr by (vm_compute; reflexivity).
  repeat split; vm_compute; reflexivity.
Defined.

(** C8 as stated fails: with [midNow = 1.234] the projected stop is 0.734
    and the projector returns 0.73. *)
Lemma calculate_stop_is_rounded :
  let levels := {| sl_entry := 450; sl_stop := 449; sl_target := 452 |} in
  let g := {| delta := 5 # 10; gamma := 1 # 10 |} in
  let plan := OptionsRiskCalculator.calculate (1234 # 1000) 450 levels g in
  (contractStop plan == 73 # 100)%Q
  /\ ~ (contractStop plan ==
        Qmax (5 # 100)
          ((1234 # 1000) - Qabs (sl_stop levels - sl_entry levels) * Qabs (delta g)))%Q.
Proof.
  cbv zeta. split.
  - vm_compute. reflexivity.
  - vm_compute. discriminate.
Qed.

(** ** The genetic operators (evolution.ts) *)

Section Renormalization.

Local Open Scope Q_scope.

Lemma default_weightSum : weightSum Evolution.DEFAULT_GENES == 1.
Proof. vm_compute. reflexivity. Qed.

Lemma default_nonneg : nonnegWeights Evolution.DEFAULT_GENES.
Proof. unfold nonnegWeights. simpl. repeat split; discriminate. Qed.

Lemma normalizeWeights_sum (g : StrategyGenes) :
  weightSum (Evolution.normalizeWeights g) == 1.
Proof.
  unfold Evolution.normalizeWeights.
  destruct (JS.eqb _ 0) eqn:E.
  - apply default_weightSum.
  - apply JSFacts.eqb_neq in E. unfold weightSum. simpl. field. exact E.
Qed.

Lemma div_nonneg (x t : Q) : 0 <= x -> 0 < t -> 0 <= x / t.
Proof.
  intros Hx Ht. apply Qle_shift_div_l; [exact Ht | lra].
Qed.

Lemma normalizeWeights_nonneg (g : StrategyGenes) :
  nonnegWeights g -> nonnegWeights (Evolution.normalizeWeights g).
Proof.
  intros (Ha & Hb & Hc & Hd & He).
  unfold Evolution.normalizeWeights.
  destruct (JS.eqb _ 0) eqn:E.
  - apply default_nonneg.
  - apply JSFacts.eqb_neq in E.
    assert (Ht : 0 < tpoWeight g + rsiWeight g + ibWeight g + cvdWeight g
                     + vwapWeight g) by lra.
    unfold nonnegWeights. simpl. repeat split; now apply div_nonneg.
Qed.

Lemma clamp_lower (v lo hi : Q) : lo <= Evolution.clamp v lo hi.
Proof. unfold Evolution.clamp. apply JSFacts.max_lower_l. Qed.

Variable random : nat -> Q.

Lemma mutateField_nonneg (v r lo hi : Q) (n : nat) :
  0 <= v -> 0 <= lo -> 0 <= fst (Evolution.mutateField random v r lo hi n).
Proof.
  intros Hv Hlo.
  unfold Evolution.mutateField, Evolution.bind, Evolution.Math_random,
    Evolution.randomInRange, Evolution.ret.
  destruct (JS.ltb (random n) Evolution.MUTATION_RATE); simpl; [ | exact Hv ].
  eapply Qle_trans; [exact Hlo | apply clamp_lower].
Qed.

Lemma pick_cases (x y : Q) (n : nat) :
  fst (Evolution.pick random x y n) = x \/ fst (Evolution.pick random x y n) = y.
Proof.
  unfold Evolution.pick, Evolution.bind, Evolution.Math_random, Evolution.ret.
  destruct (JS.ltb (random n) (1 # 2)); simpl; auto.
Qed.

Lemma pick_nonneg (x y : Q) (n : nat) :
  0 <= x -> 0 <= y -> 0 <= fst (Evolution.pick random x y n).
Proof. intros Hx Hy. destruct (pick_cases x y n) as [-> | ->]; assumption. Qed.

(** Names the result and the next counter of each draw of a chain of
    binds. *)
Ltac step_bind :=
  match goal with
  | |- context [Evolution.mutateField random ?v ?r ?lo ?hi ?n] =>
      let a := fresh "a" in
      let k := fresh "k" in
      let E := fresh "E" in
      pose proof (mutateField_nonneg v r lo hi n) as E;
      destruct (Evolution.mutateField random v r lo hi n) as [a k];
      simpl fst in E
  | |- context [Evolution.pick random ?x ?y ?n] =>
      let a := fresh "a" in
      let k := fresh "k" in
      let E := fresh "E" in
      pose proof (pick_nonneg x y n) as E;
      destruct (Evolution.pick random x y n) as [a k];
      simpl fst in E
  end.

Lemma mutate_result (genes : StrategyGenes) (n : nat) :
  weightSum (fst (Evolution.mutate random genes n)) == 1
  /\ (nonnegWeights genes ->
      nonnegWeights (fst (Evolution.mutate random genes n))).
Proof.
  unfold Evolution.mutate, Evolution.bind.
  repeat step_bind. unfold Evolution.ret. simpl fst.
  split; [apply normalizeWeights_sum | ].
  intros (Ha & Hb & Hc & Hd & He).
  apply normalizeWeights_nonneg. unfold nonnegWeights. simpl.
  repeat split;
    match goal with H : _ -> _ -> 0 <= ?a |- 0 <= ?a => apply H end;
    (assumption || discriminate).
Qed.

Lemma crossover_result (parent1 parent2 : StrategyGenes) (n : nat) :
  weightSum (fst (Evolution.crossover random parent1 parent2 n)) == 1
  /\ (nonnegWeights parent1 -> nonnegWeights parent2 ->
      nonnegWeights (fst (Evolution.crossover random parent1 parent2 n))).
Proof.
  unfold Evolution.crossover, Evolution.bind.
  repeat step_bind. unfold Evolution.ret. simpl fst.
  split; [apply normalizeWeights_sum | ].
  intros (Ha & Hb & Hc & Hd & He) (Ha' & Hb' & Hc' & Hd' & He').
  apply normalizeWeights_nonneg. unfold nonnegWeights. simpl.
  repeat split;
    match goal with H : _ -> _ -> 0 <= ?a |- 0 <= ?a => apply H end;
    assumption.
Qed.

Lemma within_tolerance (x : Q) : x == 1 -> Qabs (x - 1) <= 1 # 1000000000.
Proof.
  intros E. rewrite E. vm_compute. discriminate.
Qed.

(** C9, amended.  Whatever the random draws, for genes whose component
    weights are not negative (for [crossover]: both parents) the genes
    returned by [mutate] and by [crossover] have component weights that
    are not negative and sum to 1 (exactly, hence within 1e-9).  Without
    the condition on the input the renormalisation leaves a negative
    weight negative. *)
Theorem mutate_crossover_renormalize
    (genes parent1 parent2 : StrategyGenes) (n : nat) :
  nonnegWeights genes -> nonnegWeights parent1 -> nonnegWeights parent2 ->
  let mutated := fst (Evolution.mutate random genes n) in
  let child := fst (Evolution.crossover random parent1 parent2 n) in
  (nonnegWeights mutated
   /\ weightSum mutated == 1 /\ Qabs (weightSum mutated - 1) <= 1 # 1000000000)
  /\ (nonnegWeights child
      /\ weightSum child == 1 /\ Qabs (weightSum child - 1) <= 1 # 1000000000).
Proof.
  intros Hg Hp1 Hp2. cbv zeta.
  destruct (mutate_result genes n) as [Hs Hn].
  destruct (crossover_result parent1 parent2 n) as [Hs' Hn'].
  split.
  - split; [ exact (Hn Hg) | ].
    split; [ exact Hs | exact (within_tolerance _ Hs) ].
  - split; [ exact (Hn' Hp1 Hp2) | ].
    split; [ exact Hs' | exact (within_tolerance _ Hs') ].
Qed.

End Renormalization.

Lemma mutate_crossover_renormalize_witness :
  nonnegWeights (fst (Evolution.mutate sampleRandom Evolution.DEFAULT_GENES O))
  /\ nonnegWeights
       (fst (Evolution.crossover sampleRandom Evolution.DEFAULT_GENES sampleGenes O)).
Proof.
  assert (Hd : nonnegWeights Evolution.DEFAULT_GENES)
    by (unfold nonnegWeights; simpl; repeat split; discriminate).
  assert (Hs : nonnegWeights sampleGenes)
    by (unfold nonnegWeights; simpl; repeat split; discriminate).
  pose proof (mutate_crossover_renormalize sampleRandom Evolution.DEFAULT_GENES
                Evolution.DEFAULT_GENES sampleGenes O Hd Hd Hs)
    as ((Hm & _) & (Hc & _)).
  split; [ exact Hm | exact Hc ].
Defined.

(** The claim as worded, for every genes vector, fails: with draws of 0.9
    no mutation fires, and [mutate] on the weights (-1, 1, 1, 1, 1) divides
    by their total 3 and returns a first weight of -1/3. *)
Lemma mutate_keeps_negative_weight :
  let mutated := fst (Evolution.mutate quietRandom negativeGenes O) in
  (tpoWeight mutated == - (1 # 3))%Q
  /\ (tpoWeight mutated < 0)%Q
  /\ (weightSum mutated == 1)%Q
  /\ ~ nonnegWeights mutated.
Proof.
  cbv zeta.
  assert (Hneg : (tpoWeight (fst (Evolution.mutate quietRandom negativeGenes O))
                  < 0)%Q) by (vm_compute; reflexivity).
  split; [ vm_compute; reflexivity | ].
  split; [ exact Hneg | ].
  split; [ vm_compute; reflexivity | ].
  intros (H0 & _). exact (Qlt_not_le _ _ Hneg H0).
Qed.

(** ** The fitness function (evolution.ts) *)

Section Fitness.

Local Open Scope Q_scope.

Local Abbreviation rows_t := (list (OutcomeRow * PredictionRow)).



Variable db : DB.


End Fitness.


(** ** The grader's premium estimate (reconcile.ts) *)

Section GraderPremium.

Local Open Scope Q_scope.

(** On the CALL side the grader's estimate is the formula of the
    specification. *)
Lemma currentPremium_call (pred : PredictionRow) (entryPremium currentStock : Q) :
  direction pred = CALL ->
  Reconcile.currentPremium pred entryPremium currentStock
  == claimedPremium pred entryPremium currentStock.
Proof.
  intros Hd. unfold Reconcile.currentPremium, claimedPremium. rewrite Hd.
  cbv zeta. rewrite JS_max_Qmax. unfold JS.orElse.
  apply Q.max_compat; [ reflexivity | ].
  unfold JS.abs. change (Qabs (5 # 10)) with (5 # 10).
  destruct (entryPrice pred); cbv iota; ring.
Qed.

(** On the PUT side the estimate moves with the stock: the sign of the
    delta is dropped by [Math.abs]. *)
Lemma currentPremium_put (pred : PredictionRow) (entryPremium currentStock : Q) :
  direction pred = PUT ->
  Reconcile.currentPremium pred entryPremium currentStock
  == Qmax (1 # 100)
       (entryPremium
        + (currentStock - JS.orElse (entryPrice pred) (strike pred)) * (5 # 10)).
Proof.
  intros Hd. unfold Reconcile.currentPremium. rewrite Hd.
  cbv zeta. rewrite JS_max_Qmax. reflexivity.
Qed.

(** C1 at a PUT prediction.  Entry stock 450, entry premium 1.00, stop 0.50,
    target 2.00, last close 454: the specification's estimate is
    [max(0.01, 1 - 4 * 0.5) = 0.01], a loss of 0.99 below the stop; the
    grader estimates [max(0.01, 1 + 4 * 0.5) = 3.00] and records a WIN with a
    P&L of 2.00. *)
Theorem grader_put_premium_rises_with_stock :
  Reconcile.lastCandle putDB "SPY"
  = Some {| timestamp := 1700000060000; open := 453; high := 455; low := 452;
            close := 454; volume := 100 |}
  /\ claimedPremium putRow 1 454 == 1 # 100
  /\ Reconcile.currentPremium putRow 1 454 == 3
  /\ ~ Reconcile.currentPremium putRow 1 454 == claimedPremium putRow 1 454
  /\ match Reconcile.gradeOne putDB putRow with
     | Some (pnl, isWin) => pnl == 2 /\ isWin = true
     | None => False
     end.
Proof.
  split; [ reflexivity | ].
  split; [ vm_compute; reflexivity | ].
  split; [ vm_compute; reflexivity | ].
  split; [ vm_compute; discriminate | ].
  vm_compute. split; reflexivity.
Qed.

End GraderPremium.

(** ** The engines (parallax.ts) *)

Section Engines.

Local Open Scope Q_scope.

Context `{Transcendental}.

Lemma addComponent_bounds (c : option Q) (w : Q) (acc : Q * Q) :
  unitScore c -> 0 <= w -> 0 <= fst acc <= snd acc ->
  0 <= fst (Parallax.addComponent c w acc)
    <= snd (Parallax.addComponent c w acc).
Proof.
  intros Hc Hw Hacc. unfold Parallax.addComponent.
  destruct c as [s | ]; [ | exact Hacc ].
  destruct (Hc s eq_refl) as [H0 H1]. simpl.
  assert (0 <= s * w) by (apply Qmult_le_0_compat; assumption).
  assert (s * w <= 1 * w) by (apply Qmult_le_compat_r; assumption).
  lra.
Qed.

Lemma calculateConfidence_bounds (components : Components)
    (weights : ConfidenceWeights) :
  unitScore (c_tpo components) -> unitScore (c_rsi components) ->
  unitScore (c_ib components) -> unitScore (c_cvd components) ->
  unitScore (c_vwap components) ->
  nonnegConfidenceWeights weights ->
  0 <= Parallax.calculateConfidence components weights <= 100.
Proof.
  intros U1 U2 U3 U4 U5 (W1 & W2 & W3 & W4 & W5).
  unfold Parallax.calculateConfidence. cbv zeta.
  set (a0 := (0, 0) : Q * Q).
  assert (B0 : 0 <= fst a0 <= snd a0) by (simpl; lra).
  pose proof (addComponent_bounds _ _ _ U1 W1 B0) as B1.
  pose proof (addComponent_bounds _ _ _ U2 W2 B1) as B2.
  pose proof (addComponent_bounds _ _ _ U3 W3 B2) as B3.
  pose proof (addComponent_bounds _ _ _ U4 W4 B3) as B4.
  pose proof (addComponent_bounds _ _ _ U5 W5 B4) as B5.
  destruct (Parallax.addComponent (c_vwap components) _ _) as [total weightSum].
  simpl in B5.
  destruct (JS.ltb 0 weightSum) eqn:E; [ | lra ].
  apply JSFacts.ltb_lt in E.
  assert (0 <= total / weightSum) by (apply Qle_shift_div_l; lra).
  assert (total / weightSum <= 1) by (apply Qle_shift_div_r; lra).
  lra.
Qed.

Lemma confidenceComponents_unit (tpoSignal : Bias.t) (rsiSignal : RsiSignal.t)
    (ib : option InitialBalance) (orderFlow : option OrderFlowSnapshot)
    (technicals : TechnicalSnapshot) (currentPrice : Q) :
  let c := Parallax.confidenceComponents tpoSignal rsiSignal ib orderFlow
             technicals currentPrice in
  unitScore (c_tpo c) /\ unitScore (c_rsi c) /\ unitScore (c_ib c)
  /\ unitScore (c_cvd c) /\ unitScore (c_vwap c).
Proof.
  cbv zeta. unfold Parallax.confidenceComponents, unitScore. simpl.
  split; [ | split; [ | split; [ | split ] ] ]; intros s Hs;
    repeat match type of Hs with
           | context [match ?x with _ => _ end] => destruct x
           | context [if ?x then _ else _] => destruct x
           end;
    try discriminate; injection Hs as <-; split; discriminate.
Qed.

Lemma score_bounds (weights : ConfidenceWeights) (profile : TPOProfile)
    (candles : list Candle) (currentPrice : Q) :
  nonnegConfidenceWeights weights ->
  0 <= Parallax.sc_confidence (Parallax.score weights profile candles currentPrice)
    <= 100.
Proof.
  intros Hw. unfold Parallax.score. cbv zeta. simpl Parallax.sc_confidence.
  match goal with
  | |- context [Parallax.confidenceComponents ?a ?b ?c ?d ?e ?f] =>
      destruct (confidenceComponents_unit a b c d e f) as (U1 & U2 & U3 & U4 & U5)
  end.
  now apply calculateConfidence_bounds.
Qed.

(** What a prediction of the TPO+MIT engine says about its inputs. *)
Lemma tpomit_emitted (db : DB) (now : DateTime)
    (cache cache' : gmap string (StrategyGenes * Z)) (ticker : string)
    (category : PredictionCategory) (candles : list Candle) (currentPrice : Q)
    (p : Prediction) :
  Parallax.generateTPOMITPrediction db now cache ticker category candles
    currentPrice = (Some p, cache') ->
  exists profile,
    Parallax.profileOf candles = Some profile
    /\ let sc :=
         Parallax.score
           (fst (Parallax.getWeightsFromPraxis db (ts now) ticker cache))
           profile candles currentPrice in
       p_confidence p = Parallax.sc_confidence sc
       /\ 60 <= Parallax.sc_confidence sc
       /\ Parallax.tpomitDirection (Parallax.sc_tpoSignal sc)
            (Parallax.sc_rsiSignal sc) = Some (p_direction p)
       /\ p_engine p = TPO_MIT
       /\ p_ticker p = ticker.
Proof.
  unfold Parallax.generateTPOMITPrediction.
  destruct (length candles <? 30)%nat; [ discriminate | ].
  destruct (Parallax.getWeightsFromPraxis db (ts now) ticker cache)
    as [weights cache1].
  destruct (Parallax.profileOf candles) as [profile | ]; [ | discriminate ].
  cbv zeta.
  destruct (JS.ltb _ 60) eqn:E; [ discriminate | ].
  destruct (Parallax.tpomitDirection _ _) as [d | ] eqn:D; [ | discriminate ].
  intros [= <- <-]. exists profile. split; [ reflexivity | ].
  simpl. apply JSFacts.ltb_ge in E. repeat split; assumption.
Qed.

Lemma breakoutBonus_upper (distance range : Q) :
  Parallax.breakoutBonus distance range <= 20.
Proof.
  unfold Parallax.breakoutBonus. destruct (JS.eqb range 0); [ lra | ].
  apply JSFacts.min_upper_l.
Qed.

Lemma orb_emitted (now : DateTime) (ticker : string)
    (category : PredictionCategory) (candles : list Candle) (currentPrice : Q)
    (p : Prediction) :
  Parallax.generateORBPrediction now ticker category candles currentPrice
    = Some p ->
  60 <= p_confidence p <= 100 /\ p_engine p = ORB_MOMENTUM /\ p_ticker p = ticker.
Proof.
  unfold Parallax.generateORBPrediction. cbv zeta.
  destruct (ts now <? _)%Z; [ discriminate | ].
  destruct (length _ <? 5)%nat; [ discriminate | ].
  destruct (ORB.calculateORB _) as [levels | ]; [ | discriminate ].
  destruct (Parallax.orbSignal levels currentPrice) as [[d | ] confidence] eqn:S;
    [ | discriminate ].
  destruct (JS.ltb confidence 60) eqn:E; [ discriminate | ].
  intros [= <-]. simpl. apply JSFacts.ltb_ge in E.
  repeat split; try assumption.
  unfold Parallax.orbSignal in S.
  destruct (JS.ltb (orb_high levels) currentPrice).
  - injection S as _ <-.
    pose proof (breakoutBonus_upper (currentPrice - orb_high levels)
                  (rangeSize levels)). lra.
  - destruct (JS.ltb currentPrice (orb_low levels)); [ | discriminate ].
    injection S as _ <-.
    pose proof (breakoutBonus_upper (orb_low levels - currentPrice)
                  (rangeSize levels)). lra.
Qed.

Lemma preMarket_neutral (ticker : string) (spotPrice volatility riskFreeRate : Q) :
  BlackScholes.generatePreMarketPrediction ticker spotPrice volatility
    riskFreeRate Momentum.NEUTRAL = None.
Proof. reflexivity. Qed.

Lemma blackScholes_neutral (now : DateTime) (ticker : string)
    (category : PredictionCategory) (spotPrice volatility : Q) :
  Parallax.generateBlackScholesPrediction now ticker category spotPrice
    volatility Momentum.NEUTRAL = None.
Proof. reflexivity. Qed.

Lemma blackScholes_emitted (now : DateTime) (ticker : string)
    (category : PredictionCategory) (spotPrice volatility : Q)
    (bias : Momentum.t) (p : Prediction) :
  Parallax.generateBlackScholesPrediction now ticker category spotPrice
    volatility bias = Some p ->
  60 <= p_confidence p <= 100 /\ bias <> Momentum.NEUTRAL.
Proof.
  unfold Parallax.generateBlackScholesPrediction.
  destruct (BlackScholes.generatePreMarketPrediction _ _ _ _ _) as [pm | ] eqn:G;
    [ | discriminate ].
  destruct (JS.ltb (pm_confidence pm) 60) eqn:E; [ discriminate | ].
  intros [= <-]. simpl. apply JSFacts.ltb_ge in E.
  split; [ split; [ assumption | ] | ].
  - unfold BlackScholes.generatePreMarketPrediction in G.
    destruct bias; try discriminate; injection G as <-; simpl;
      apply JSFacts.min_upper_l.
  - intros ->. discriminate.
Qed.

(** C2, amended.  A prediction leaves an engine only with a confidence of at
    least 60, the floor written into all three engines; the [minConfidence]
    of the active weights row is not read.  The confidence is at most 100
    (for TPO+MIT: when the active component weights are not negative), and a
    TPO+MIT or Black-Scholes prediction has a determined direction. *)
Theorem emitted_confidence_at_least_60 (db : DB) (now : DateTime)
    (cache : gmap string (StrategyGenes * Z)) (ticker : string)
    (category : PredictionCategory) (candles : list Candle)
    (currentPrice volatility : Q) (bias : Momentum.t) :
  (forall p cache',
      Parallax.generateTPOMITPrediction db now cache ticker category candles
        currentPrice = (Some p, cache') ->
      60 <= p_confidence p
      /\ (nonnegConfidenceWeights
            (fst (Parallax.getWeightsFromPraxis db (ts now) ticker cache)) ->
          p_confidence p <= 100)
      /\ exists profile,
           Parallax.profileOf candles = Some profile
           /\ Parallax.tpomitDirection
                (TPO.getTPOSignal currentPrice profile)
                (Parallax.rsiSignalOf
                   (Technicals.computeTechnicalSnapshot candles))
              = Some (p_direction p))
  /\ (forall p,
         Parallax.generateBlackScholesPrediction now ticker category currentPrice
           volatility bias = Some p ->
         60 <= p_confidence p <= 100 /\ bias <> Momentum.NEUTRAL)
  /\ (forall p,
         Parallax.generateORBPrediction now ticker category candles currentPrice
           = Some p ->
         60 <= p_confidence p <= 100).
Proof.
  split; [ | split ].
  - intros p cache' E.
    destruct (tpomit_emitted _ _ _ _ _ _ _ _ _ E)
      as (profile & Hp & Hc & H60 & Hd & _ & _).
    rewrite Hc. split; [ exact H60 | ]. split.
    + intros Hw. now apply score_bounds.
    + exists profile. split; [ exact Hp | exact Hd ].
  - intros p E. now apply blackScholes_emitted in E.
  - intros p E. now apply orb_emitted in E.
Qed.

End Engines.

Lemma emitted_confidence_at_least_60_witness :
  exists p,
    fst (Parallax.generateTPOMITPrediction floor70DB morning ∅ "SPY" SPY_DAILY
           flatCandles 452) = Some p
    /\ (60 <= p_confidence p)%Q /\ (p_confidence p <= 100)%Q.
Proof.
  destruct (Parallax.generateTPOMITPrediction floor70DB morning ∅ "SPY"
              SPY_DAILY flatCandles 452) as [[p | ] c] eqn:E.
  - exists p. split; [ reflexivity | ].
    destruct (proj1 (@emitted_confidence_at_least_60 sampleTranscendental
                       floor70DB morning ∅ "SPY" SPY_DAILY flatCandles 452
                       (25 # 100) Momentum.NEUTRAL) p c E)
      as (H60 & H100 & _).
    split; [ exact H60 | ].
    apply H100. vm_compute. repeat split; discriminate.
  - vm_compute in E. discriminate.
Defined.

(** C2 as stated fails: the active SPY row asks for a confidence of 70 and
    the TPO+MIT engine emits a PUT with a confidence of 68. *)
Lemma tpomit_emits_below_active_minConfidence :
  (minConfidence (Evolution.getActiveGenes floor70DB "SPY") == 70)%Q
  /\ match fst (Parallax.generateTPOMITPrediction floor70DB morning ∅ "SPY"
                  SPY_DAILY flatCandles 452) with
     | Some p =>
         (p_confidence p == 68)%Q
         /\ (p_confidence p < minConfidence (Evolution.getActiveGenes floor70DB "SPY"))%Q
         /\ p_direction p = PUT /\ p_engine p = TPO_MIT
     | None => False
     end.
Proof.
  split; [ vm_compute; reflexivity | ].
  vm_compute. repeat split.
Qed.

(** ** The replay scoring against the live scoring (backtest.ts) *)

Section ReplayScoring.

Local Open Scope Q_scope.

Lemma replayScore_direction (genes : StrategyGenes) (tpoSignal : Bias.t)
    (rsiSignal : RsiSignal.t) :
  snd (Backtest.replayScore genes tpoSignal rsiSignal)
  = Parallax.tpomitDirection tpoSignal rsiSignal.
Proof. destruct tpoSignal, rsiSignal; reflexivity. Qed.

Lemma replayScore_confidence (genes : StrategyGenes) (tpoSignal : Bias.t)
    (rsiSignal : RsiSignal.t) :
  fst (Backtest.replayScore genes tpoSignal rsiSignal)
  == 50 + replayBonus (negb (bool_decide (tpoSignal = Bias.NEUTRAL)))
            (tpoWeight genes)
        + replayBonus (negb (bool_decide (rsiSignal = RsiSignal.NEUTRAL)))
            (rsiWeight genes).
Proof. destruct tpoSignal, rsiSignal; simpl; ring. Qed.

(** C3, amended.  On every window and for every weights, the direction the
    replay computes is the direction the live rule gives on the same TPO and
    RSI signals.  Its confidence is not the live weighted average: it is 50
    plus [20 * tpoWeight] when the TPO bias is LONG or SHORT plus
    [20 * rsiWeight] when the RSI is oversold or overbought. *)
Theorem replay_direction_is_live_direction (genes : StrategyGenes)
    (weights : ConfidenceWeights) (candles : list Candle) (currentPrice : Q) :
  match Backtest.windowScore genes candles currentPrice,
        Parallax.profileOf candles with
  | Some (confidence, direction), Some profile =>
      let live := Parallax.score weights profile candles currentPrice in
      direction
      = Parallax.tpomitDirection (Parallax.sc_tpoSignal live)
          (Parallax.sc_rsiSignal live)
      /\ confidence
         == 50 + replayBonus
                   (negb (bool_decide (Parallax.sc_tpoSignal live = Bias.NEUTRAL)))
                   (tpoWeight genes)
               + replayBonus
                   (negb (bool_decide
                            (Parallax.sc_rsiSignal live = RsiSignal.NEUTRAL)))
                   (rsiWeight genes)
  | None, None => True
  | _, _ => False
  end.
Proof.
  unfold Backtest.windowScore.
  destruct (Parallax.profileOf candles) as [profile | ]; [ | exact I ].
  cbv zeta.
  destruct (Backtest.replayScore _ _ _) as [confidence direction] eqn:E.
  unfold Parallax.score. simpl.
  split.
  - rewrite <- replayScore_direction with (genes := genes). now rewrite E.
  - rewrite <- replayScore_confidence. now rewrite E.
Qed.

(** C3 as stated fails: on the flat window, at its last close and with the
    default weights, the replay computes a confidence of 59 and the live
    scoring one of 61. *)
Lemma replay_confidence_is_not_live_confidence :
  match Backtest.windowScore Evolution.DEFAULT_GENES flatCandles 450,
        Parallax.profileOf flatCandles with
  | Some (confidence, direction), Some profile =>
      let live :=
        Parallax.score (Parallax.weightsOf Evolution.DEFAULT_GENES) profile
          flatCandles 450 in
      confidence == 59 /\ Parallax.sc_confidence live == 61
      /\ ~ confidence == Parallax.sc_confidence live
  | _, _ => False
  end.
Proof.
  vm_compute. repeat split. discriminate.
Qed.

End ReplayScoring.

(** ** The tables under the elementary moves *)

Section Tables.

Lemma same_id_same_row (ps : list PredictionRow) (x r : PredictionRow) :
  List.NoDup (map id ps) -> List.In x ps -> List.In r ps -> id x = id r -> x = r.
Proof.
  induction ps as [ | a ps IH]; simpl; intros Hnd Hx Hr E; [ contradiction | ].
  inversion Hnd as [ | ? ? Hnot Hnd']; subst.
  destruct Hx as [-> | Hx], Hr as [-> | Hr]; auto.
  - exfalso. apply Hnot. rewrite E. now apply in_map.
  - exfalso. apply Hnot. rewrite <- E. now apply in_map.
Qed.

Lemma update_status_predictions (i : Z) (s : PredictionStatus) (d : DB) :
  predictions (update_status i s d) = map (retire i s) (predictions d).
Proof. reflexivity. Qed.

Lemma retire_id (i : Z) (s : PredictionStatus) (r : PredictionRow) :
  id (retire i s r) = id r.
Proof. unfold retire. destruct (id r =? i); reflexivity. Qed.

Lemma retire_ids (i : Z) (s : PredictionStatus) (ps : list PredictionRow) :
  map id (map (retire i s) ps) = map id ps.
Proof.
  rewrite map_map. apply map_ext. intros r. apply retire_id.
Qed.

Lemma retire_engine (i : Z) (s : PredictionStatus) (r : PredictionRow) :
  engine (retire i s r) = engine r.
Proof. unfold retire. destruct (id r =? i); reflexivity. Qed.

Lemma retire_other (i : Z) (s : PredictionStatus) (r : PredictionRow) :
  id r <> i -> retire i s r = r.
Proof.
  intros NE. unfold retire. destruct (Z.eqb_spec (id r) i); congruence.
Qed.

Lemma retire_same (i : Z) (s : PredictionStatus) (r : PredictionRow) :
  id r = i -> retire i s r = set_status s r.
Proof. intros E. unfold retire. now rewrite (proj2 (Z.eqb_eq _ _) E). Qed.

(** Leaving ACTIVE never adds an ACTIVE row to a triple. *)
Lemma retire_not_more_active (i : Z) (s : PredictionStatus)
    (t : string) (dir : PredictionDirection) (e : option PredictionEngine)
    (r : PredictionRow) :
  s <> ACTIVE ->
  sameTriple t dir e (retire i s r) = true -> sameTriple t dir e r = true.
Proof.
  intros Hs. unfold retire. destruct (id r =? i); [ | auto ].
  unfold sameTriple, is_active. simpl. intros Hact.
  apply andb_prop in Hact as [Hact _]. apply andb_prop in Hact as [Hact _].
  apply andb_prop in Hact as [Hact _]. apply bool_decide_eq_true_1 in Hact.
  congruence.
Qed.

Lemma filter_map_length {A} (q : A -> bool) (f : A -> A) (l : list A) :
  (forall x, q (f x) = true -> q x = true) ->
  (length (List.filter q (map f l)) <= length (List.filter q l))%nat.
Proof.
  intros Hq. induction l as [ | a l IH]; simpl; [ lia | ].
  destruct (q (f a)) eqn:E.
  - rewrite (Hq a E). simpl. lia.
  - destruct (q a); simpl; lia.
Qed.

Lemma activeCount_retire (i : Z) (s : PredictionStatus)
    (ps : list PredictionRow) (t : string) (dir : PredictionDirection)
    (e : option PredictionEngine) :
  s <> ACTIVE ->
  (activeCount (map (retire i s) ps) t dir e <= activeCount ps t dir e)%nat.
Proof.
  intros Hs. unfold activeCount. apply filter_map_length.
  intros x. now apply retire_not_more_active.
Qed.

Lemma activeCount_app (ps qs : list PredictionRow) (t : string)
    (dir : PredictionDirection) (e : option PredictionEngine) :
  activeCount (ps ++ qs) t dir e
  = (activeCount ps t dir e + activeCount qs t dir e)%nat.
Proof. unfold activeCount. now rewrite List.filter_app, length_app. Qed.

Lemma outcomeCount_app (os os' : list OutcomeRow) (i : Z) :
  outcomeCount (os ++ os') i = (outcomeCount os i + outcomeCount os' i)%nat.
Proof. unfold outcomeCount. now rewrite List.filter_app, length_app. Qed.

Lemma outcomeCount_none (os : list OutcomeRow) (i : Z) :
  (forall o, List.In o os -> predictionId o <> Some i) -> outcomeCount os i = 0%nat.
Proof.
  intros Hno. unfold outcomeCount.
  induction os as [ | o os IH]; simpl; [ reflexivity | ].
  unfold refersTo at 1.
  rewrite bool_decide_eq_false_2 by (apply Hno; now left).
  apply IH. intros o' Ho'. apply Hno. now right.
Qed.

Lemma expected_active (r : PredictionRow) :
  status r = Some ACTIVE -> expectedOutcomes r = 0%nat.
Proof.
  intros E. unfold expectedOutcomes.
  now rewrite bool_decide_eq_false_2 by (rewrite E; discriminate).
Qed.

End Tables.

Section Preservation.

Lemma in_retire (i : Z) (s : PredictionStatus) (ps : list PredictionRow)
    (r' : PredictionRow) :
  List.In r' (map (retire i s) ps) ->
  exists x, List.In x ps /\ r' = retire i s x.
Proof.
  intros Hin. apply in_map_iff in Hin as (x & <- & Hx). now exists x.
Qed.

Lemma inv_other (d d' : DB) :
  predictions d' = predictions d -> predictionSeq d' = predictionSeq d ->
  outcomes d' = outcomes d -> Inv d -> Inv d'.
Proof.
  intros Ep Es Eo [I1 I2 I3 I4 I5 I6 I7].
  constructor; rewrite ?Ep, ?Es, ?Eo; assumption.
Qed.

Lemma inv_insert (d : DB) (stamp : Timestamp) (p : Prediction) :
  activeCount (predictions d) (p_ticker p) (p_direction p) (Some (p_engine p))
  = 0%nat ->
  p_engine p <> BLACK_SCHOLES ->
  Inv d -> Inv (snd (Parallax.storePrediction stamp p d)).
Proof.
  intros Hfree Heng [I1 I2 I3 I4 I5 I6 I7].
  unfold Parallax.storePrediction. simpl.
  set (row := Parallax.rowOf (predictionSeq d + 1) stamp p).
  constructor; simpl.
  - rewrite map_app. simpl. apply List.NoDup_app; [ exact I1 | | ].
    + constructor; [ intros [] | constructor ].
    + intros x Hx [E | []]. apply in_map_iff in Hx as (r & <- & Hr).
      specialize (I2 r Hr). lia.
  - intros r Hr. apply in_app_iff in Hr as [Hr | [<- | []]].
    + specialize (I2 r Hr). lia.
    + simpl. lia.
  - intros o Ho. destruct (I3 o Ho) as (r & Hr & E).
    exists r. split; [ apply in_app_iff; now left | exact E ].
  - intros r Hr. apply in_app_iff in Hr as [Hr | [<- | []]].
    + now apply I4.
    + simpl. rewrite expected_active by reflexivity.
      apply outcomeCount_none. intros o Ho E.
      destruct (I3 o Ho) as (r & Hr & E'). specialize (I2 r Hr).
      rewrite E in E'. injection E' as E'. lia.
  - intros r Hr. apply in_app_iff in Hr as [Hr | [<- | []]].
    + now apply I5.
    + now left.
  - intros t dir e. rewrite activeCount_app.
    unfold activeCount at 2. simpl.
    destruct (sameTriple t dir e row) eqn:E; simpl; [ | specialize (I6 t dir e); lia ].
    unfold sameTriple in E.
    apply andb_prop in E as [E E3]. apply andb_prop in E as [E E2].
    apply andb_prop in E as [_ E1].
    apply bool_decide_eq_true_1 in E1, E2, E3. simpl in E1, E2, E3.
    subst t dir e. rewrite Hfree. lia.
  - intros r Hr. apply in_app_iff in Hr as [Hr | [<- | []]].
    + now apply I7.
    + simpl. congruence.
Qed.

(** An ACTIVE row that leaves ACTIVE, with the outcome rows [os] added for
    it: the invariant holds again when [os] is what the new status asks
    for. *)
Lemma inv_retire (d : DB) (r : PredictionRow) (s : PredictionStatus)
    (os : list OutcomeRow) (i : Z) :
  List.In r (predictions d) -> status r = Some ACTIVE ->
  s = CLOSED \/ s = EXPIRED ->
  (forall o, List.In o os -> predictionId o = Some (id r)) ->
  length os = (if bool_decide (s = CLOSED) then 1 else 0)%nat ->
  Inv d ->
  Inv (update_status (id r) s (with_outcomes d (outcomes d ++ os) i)).
Proof.
  intros Hr Hact Hs Hos Hlen [I1 I2 I3 I4 I5 I6 I7].
  assert (Hs' : s <> ACTIVE) by (destruct Hs; subst; discriminate).
  constructor; simpl.
  - rewrite retire_ids. exact I1.
  - intros r' Hr'. apply in_retire in Hr' as (x & Hx & ->).
    rewrite retire_id. now apply I2.
  - intros o Ho. apply in_app_iff in Ho as [Ho | Ho].
    + destruct (I3 o Ho) as (x & Hx & E).
      exists (retire (id r) s x). split; [ now apply in_map | ].
      now rewrite retire_id.
    + exists (retire (id r) s r). split; [ now apply in_map | ].
      rewrite retire_id. now apply Hos.
  - intros r' Hr'. apply in_retire in Hr' as (x & Hx & ->).
    rewrite retire_id, outcomeCount_app.
    destruct (Z.eq_dec (id x) (id r)) as [E | NE].
    + assert (x = r) by (eapply same_id_same_row; eauto). subst x.
      rewrite (I4 r Hr), expected_active by exact Hact.
      rewrite retire_same by reflexivity.
      unfold outcomeCount. rewrite List.forallb_filter_id.
      * rewrite Hlen. unfold expectedOutcomes. simpl.
        destruct Hs; subst; reflexivity.
      * apply forallb_forall. intros o Ho. unfold refersTo.
        apply bool_decide_eq_true_2. now apply Hos.
    + rewrite retire_other by exact NE. rewrite (I4 x Hx).
      rewrite (outcomeCount_none os); [ lia | ].
      intros o Ho E. rewrite (Hos o Ho) in E. congruence.
  - intros r' Hr'. apply in_retire in Hr' as (x & Hx & ->).
    unfold retire. destruct (id x =? id r); [ | now apply I5 ].
    simpl. destruct Hs; subst; auto.
  - intros t dir e.
    eapply Nat.le_trans; [ now apply activeCount_retire | apply I6 ].
  - intros r' Hr'. apply in_retire in Hr' as (x & Hx & ->).
    rewrite retire_engine. now apply I7.
Qed.

Lemma prim_preserves (ins : bool) (d d' : DB) :
  prim ins d d' -> Inv d -> Inv d'.
Proof.
  intros Hp Hi. destruct Hp as [d d' Ep Es Eo | d stamp p _ Hfree Heng
                               | d r Hr Hact | d r o i Hr Hact Ho].
  - now apply (inv_other d d').
  - now apply inv_insert.
  - assert (E : update_status (id r) EXPIRED d
                = update_status (id r) EXPIRED
                    (with_outcomes d (outcomes d ++ []) (outcomeSeq d))).
    { unfold update_status, with_predictions, with_outcomes. simpl.
      now rewrite app_nil_r. }
    rewrite E. apply inv_retire; auto.
    intros o [].
  - apply inv_retire; auto.
    intros o' [<- | []]. exact Ho.
Qed.

Lemma prims_preserve (ins : bool) (d d' : DB) :
  rtc (prim ins) d d' -> Inv d -> Inv d'.
Proof.
  induction 1 as [ | d d1 d' Hp _ IH]; [ auto | ].
  intros Hi. apply IH. now apply (prim_preserves ins d d1).
Qed.

(** Without insertions no triple gains an ACTIVE row. *)
Lemma prim_quiet (d d' : DB) (t : string) (dir : PredictionDirection)
    (e : option PredictionEngine) :
  prim false d d' ->
  (activeCount (predictions d') t dir e <= activeCount (predictions d) t dir e)%nat.
Proof.
  intros Hp. destruct Hp as [d d' Ep Es Eo | d stamp p Hins Hfree Heng
                            | d r Hr Hact | d r o i Hr Hact Ho].
  - rewrite Ep. lia.
  - discriminate.
  - rewrite update_status_predictions. now apply activeCount_retire.
  - rewrite update_status_predictions. now apply activeCount_retire.
Qed.

Lemma prims_quiet (d d' : DB) (t : string) (dir : PredictionDirection)
    (e : option PredictionEngine) :
  rtc (prim false) d d' ->
  (activeCount (predictions d') t dir e <= activeCount (predictions d) t dir e)%nat.
Proof.
  induction 1 as [ | d d1 d' Hp _ IH]; [ lia | ].
  pose proof (prim_quiet d d1 t dir e Hp). lia.
Qed.

Lemma prim_lift (d d' : DB) : prim false d d' -> prim true d d'.
Proof.
  intros Hp. destruct Hp as [d d' Ep Es Eo | d stamp p Hins Hfree Heng
                            | d r Hr Hact | d r o i Hr Hact Ho].
  - now apply prim_other.
  - discriminate.
  - now apply prim_expire.
  - now apply prim_close.
Qed.

Lemma prims_lift (d d' : DB) : rtc (prim false) d d' -> rtc (prim true) d d'.
Proof.
  induction 1 as [ | d d1 d' Hp _ IH]; [ apply rtc_refl | ].
  eapply rtc_l; [ apply prim_lift; exact Hp | exact IH ].
Qed.

Lemma inv_empty : Inv emptyDB.
Proof.
  constructor; simpl.
  - constructor.
  - intros r [].
  - intros o [].
  - intros r [].
  - intros r [].
  - intros t dir e. unfold activeCount. simpl. lia.
  - intros r [].
Qed.

End Preservation.

(** ** The steps of the daemon as elementary moves *)

Section Steps.

Context `{Transcendental}.

Lemma nodup_ids_filter (q : PredictionRow -> bool) (ps : list PredictionRow) :
  List.NoDup (map id ps) -> List.NoDup (map id (List.filter q ps)).
Proof.
  induction ps as [ | a ps IH]; simpl; intros Hnd; [ constructor | ].
  inversion Hnd as [ | ? ? Hnot Hnd']; subst.
  destruct (q a); simpl; [ | now apply IH ].
  constructor; [ | now apply IH ].
  intros Hin. apply Hnot. apply in_map_iff in Hin as (x & E & Hx).
  apply filter_In in Hx as [Hx _]. apply in_map_iff. now exists x.
Qed.

Lemma select_active_snapshot (d : DB) :
  Inv d ->
  List.NoDup (map id (select_active d))
  /\ forall p, List.In p (select_active d) ->
       List.In p (predictions d) /\ status p = Some ACTIVE.
Proof.
  intros Hi. split.
  - apply nodup_ids_filter. apply (inv_ids d Hi).
  - intros p Hp. apply filter_In in Hp as [Hp Hact]. split; [ exact Hp | ].
    now apply bool_decide_eq_true_1 in Hact.
Qed.

(** A loop over a snapshot of the ACTIVE rows whose body, given a row that
    is still in the table, makes elementary moves and leaves the rows of
    other ids alone. *)
Lemma snapshot_loop {X : Type} (ins : bool) (getdb : X -> DB)
    (f : X -> PredictionRow -> X) :
  (forall x pred,
      Inv (getdb x) -> List.In pred (predictions (getdb x)) ->
      status pred = Some ACTIVE ->
      rtc (prim ins) (getdb x) (getdb (f x pred))
      /\ forall r, List.In r (predictions (getdb x)) -> id r <> id pred ->
           List.In r (predictions (getdb (f x pred)))) ->
  forall snapshot x,
    Inv (getdb x) -> List.NoDup (map id snapshot) ->
    (forall p, List.In p snapshot ->
       List.In p (predictions (getdb x)) /\ status p = Some ACTIVE) ->
    rtc (prim ins) (getdb x) (getdb (fold_left f snapshot x)).
Proof.
  intros Hbody snapshot.
  induction snapshot as [ | a l IH]; intros x Hi Hnd Hsnap; simpl.
  - apply rtc_refl.
  - inversion Hnd as [ | ? ? Hnot Hnd']; subst.
    destruct (Hsnap a (or_introl eq_refl)) as [Ha Hact].
    destruct (Hbody x a Hi Ha Hact) as [Hmoves Hkeep].
    eapply rtc_trans; [ exact Hmoves | ].
    apply IH; [ now apply (prims_preserve ins (getdb x)) | exact Hnd' | ].
    intros p Hp. destruct (Hsnap p (or_intror Hp)) as [Hin Hst].
    split; [ | exact Hst ].
    apply Hkeep; [ exact Hin | ].
    intros E. apply Hnot. rewrite <- E. now apply in_map.
Qed.

Lemma update_status_keeps (i : Z) (s : PredictionStatus) (d : DB)
    (r : PredictionRow) :
  List.In r (predictions d) -> id r <> i ->
  List.In r (predictions (update_status i s d)).
Proof.
  intros Hr NE. rewrite update_status_predictions.
  rewrite <- (retire_other i s r NE). now apply in_map.
Qed.

(** *** The grader *)

Lemma gradeStep_moves (stamp : Timestamp) (x : GradeResult * DB)
    (pred : PredictionRow) :
  Inv (snd x) -> List.In pred (predictions (snd x)) ->
  status pred = Some ACTIVE ->
  rtc (prim false) (snd x) (snd (Reconcile.gradeStep stamp x pred))
  /\ forall r, List.In r (predictions (snd x)) -> id r <> id pred ->
       List.In r (predictions (snd (Reconcile.gradeStep stamp x pred))).
Proof.
  destruct x as [results d]. simpl. intros Hi Hin Hact.
  unfold Reconcile.gradeStep.
  destruct (Reconcile.gradeOne d pred) as [[pnl isWin] | ]; simpl.
  - split.
    + apply rtc_once. now apply prim_close.
    + intros r Hr NE. apply update_status_keeps; [ exact Hr | exact NE ].
  - split; [ apply rtc_refl | auto ].
Qed.

Lemma saveAlphaGenes_tables (now : Z) (ticker : string) (genes : StrategyGenes)
    (winRate : Q) (d : DB) :
  let d' := Evolution.saveAlphaGenes now ticker genes winRate d in
  predictions d' = predictions d /\ predictionSeq d' = predictionSeq d
  /\ outcomes d' = outcomes d.
Proof.
  cbv zeta. unfold Evolution.saveAlphaGenes.
  destruct (List.filter _ (parameters d)); simpl; auto.
Qed.

Lemma checkAndTriggerEvolution_moves (random : nat -> Q) (now : Z)
    (winRate : Q) (d d' : DB) :
  Evolution.checkAndTriggerEvolution random now winRate d = Some d' ->
  prim false d d'.
Proof.
  unfold Evolution.checkAndTriggerEvolution.
  destruct (JS.ltb winRate Evolution.TARGET_ACCURACY).
  - destruct (fst (Evolution.evolve random d 0%nat)) as [genes | ];
      [ | discriminate ].
    intros [= <-].
    destruct (saveAlphaGenes_tables now "SPY" genes winRate d) as (E1 & E2 & E3).
    now apply prim_other.
  - intros [= <-]. now apply prim_other.
Qed.

Lemma gradeOpenTrades_moves (random : nat -> Q) (stamp : Timestamp) (d : DB) :
  Inv d -> rtc (prim false) d (snd (Reconcile.gradeOpenTrades random stamp d)).
Proof.
  intros Hi. unfold Reconcile.gradeOpenTrades.
  destruct (select_active_snapshot d Hi) as [Hnd Hsnap].
  destruct (select_active d) as [ | a l] eqn:Esel; [ apply rtc_refl | ].
  pose proof (snapshot_loop false snd (Reconcile.gradeStep stamp)
                (gradeStep_moves stamp) (a :: l)
                ({| graded := 0; wins := 0; losses := 0 |}, d) Hi Hnd Hsnap)
    as Hloop.
  simpl snd in Hloop at 1.
  destruct (fold_left (Reconcile.gradeStep stamp) (a :: l) _) as [results d1].
  simpl snd in Hloop.
  destruct (0 <? graded results)%nat; [ | exact Hloop ].
  destruct (Evolution.checkAndTriggerEvolution _ _ _ d1) as [d2 | ] eqn:Eev;
    [ | exact Hloop ].
  simpl. eapply rtc_r; [ exact Hloop | ].
  now apply checkAndTriggerEvolution_moves in Eev.
Qed.

(** *** The expiry sweeps *)

Lemma expireStep_moves (todayDate : string) (x : nat * DB) (pred : PredictionRow) :
  Inv (snd x) -> List.In pred (predictions (snd x)) ->
  status pred = Some ACTIVE ->
  rtc (prim false) (snd x) (snd (Reconcile.expireStep todayDate x pred))
  /\ forall r, List.In r (predictions (snd x)) -> id r <> id pred ->
       List.In r (predictions (snd (Reconcile.expireStep todayDate x pred))).
Proof.
  destruct x as [n d]. simpl. intros Hi Hin Hact.
  unfold Reconcile.expireStep.
  destruct (generatedAt pred) as [g | ]; simpl;
    [ | split; [ apply rtc_refl | auto ] ].
  destruct (String.ltb (isoDate g) todayDate); simpl.
  - split.
    + apply rtc_once. now apply prim_expire.
    + intros r Hr NE. now apply update_status_keeps.
  - split; [ apply rtc_refl | auto ].
Qed.

Lemma expireStale_moves (todayDate : string) (d : DB) :
  Inv d -> rtc (prim false) d (snd (Reconcile.expireStale todayDate d)).
Proof.
  intros Hi. unfold Reconcile.expireStale.
  destruct (select_active_snapshot d Hi) as [Hnd Hsnap].
  exact (snapshot_loop false snd (Reconcile.expireStep todayDate)
           (expireStep_moves todayDate) (select_active d) (0%nat, d) Hi Hnd Hsnap).
Qed.

Lemma expireOldPredictions_moves (now : DateTime) (s : State) :
  Inv (db s) -> rtc (prim false) (db s) (db (Daemon.expireOldPredictions now s)).
Proof.
  intros Hi. unfold Daemon.expireOldPredictions. simpl.
  destruct (select_active_snapshot (db s) Hi) as [Hnd Hsnap].
  apply (snapshot_loop false (fun d => d)); auto.
  intros d pred Hd Hin Hact.
  destruct (generatedAt pred) as [g | ]; [ | split; [ apply rtc_refl | auto ] ].
  destruct (String.ltb (isoDate g) (MarketTime.getTodayET now)).
  - unfold Parallax.updatePredictionStatus. split.
    + apply rtc_once. now apply prim_expire.
    + intros r Hr NE. now apply update_status_keeps.
  - split; [ apply rtc_refl | auto ].
Qed.

(** *** The scheduler tick *)

Lemma withContractPlan_keeps (t : Tick) (ticker : string) (currentPrice : Q)
    (p : Prediction) :
  let p' := Daemon.withContractPlan t ticker currentPrice p in
  p_ticker p' = p_ticker p /\ p_direction p' = p_direction p
  /\ p_engine p' = p_engine p.
Proof.
  cbv zeta. unfold Daemon.withContractPlan.
  destruct (Daemon.fetch0DTEExpiration t ticker) as [expiration | ]; [ | auto ].
  destruct (bool_decide (expiration = "")); [ auto | ].
  destruct (List.find _ _) as [contract | ]; [ | auto ].
  destruct (JS.ltb 0 (opt_bid contract)); [ | auto ].
  destruct (greeks contract); simpl; auto.
Qed.

Lemma storeCandles_tables (ticker : string) (cs : list Candle) (d : DB) :
  let d' := Daemon.storeCandles ticker cs d in
  predictions d' = predictions d /\ predictionSeq d' = predictionSeq d
  /\ outcomes d' = outcomes d.
Proof. cbv zeta. unfold Daemon.storeCandles. destruct cs; simpl; auto. Qed.

(** The engines write no prediction row themselves, and what they return is
    a prediction for the ticker they were asked about, never one of the
    Black-Scholes engine. *)
Lemma predict_effect (t : Tick) (isTrading isPreMarket : bool)
    (session : MarketSession) (ticker : string) (currentPrice : Q)
    (s s1 : State) (prediction : option Prediction) :
  Daemon.predict t isTrading isPreMarket session ticker currentPrice s
  = (prediction, s1) ->
  (predictions (db s1) = predictions (db s)
   /\ predictionSeq (db s1) = predictionSeq (db s)
   /\ outcomes (db s1) = outcomes (db s))
  /\ forall p, prediction = Some p ->
       p_ticker p = ticker /\ p_engine p <> BLACK_SCHOLES.
Proof.
  unfold Daemon.predict. cbv zeta.
  destruct isPreMarket.
  - rewrite blackScholes_neutral. intros [= <- <-].
    split; [ auto | discriminate ].
  - destruct isTrading; [ | intros [= <- <-]; split; [ auto | discriminate ] ].
    set (cs := fetchIntradayCandles (feed t) ticker).
    set (d1 := if (0 <? length cs)%nat
               then Daemon.storeCandles ticker (Technicals.lastn 10 cs) (db s)
               else db s).
    assert (Hd1 : predictions d1 = predictions (db s)
                  /\ predictionSeq d1 = predictionSeq (db s)
                  /\ outcomes d1 = outcomes (db s)).
    { subst d1. destruct (0 <? length cs)%nat; [ | auto ].
      apply storeCandles_tables. }
    destruct (30 <=? length cs)%nat;
      [ | intros [= <- <-]; split; [ exact Hd1 | discriminate ] ].
    destruct (Parallax.generateTPOMITPrediction d1 (now t) (genesCache s) ticker
                (Daemon.getCategory ticker) cs currentPrice)
      as [[p0 | ] cache1] eqn:Etpo.
    + intros [= <- <-]. split; [ exact Hd1 | ].
      intros p [= <-].
      destruct (tpomit_emitted _ _ _ _ _ _ _ _ _ Etpo)
        as (_ & _ & _ & _ & _ & Heng & Htick).
      split; [ exact Htick | rewrite Heng; discriminate ].
    + intros [= <- <-]. split; [ exact Hd1 | ].
      intros p Hp.
      destruct (bool_decide (session = OPENING_RANGE) && true);
        [ | discriminate ].
      apply orb_emitted in Hp as (_ & Heng & Htick).
      split; [ exact Htick | rewrite Heng; discriminate ].
Qed.

(** The duplicate test of the tick, read on the table. *)
Lemma guard_free (ticker : string) (p : Prediction) (d : DB) :
  existsb
    (fun r => bool_decide (direction r = p_direction p)
              && bool_decide (engine r = Some (p_engine p)))
    (Parallax.getActivePredictions (Some ticker) d) = false ->
  activeCount (predictions d) ticker (p_direction p) (Some (p_engine p)) = 0%nat.
Proof.
  intros Hguard. unfold activeCount.
  destruct (List.filter _ (predictions d)) as [ | r l] eqn:E; [ reflexivity | ].
  exfalso.
  assert (Hr : List.In r (List.filter
                            (sameTriple ticker (p_direction p)
                               (Some (p_engine p))) (predictions d)))
    by (rewrite E; now left).
  apply filter_In in Hr as [Hr Hsame]. unfold sameTriple in Hsame.
  apply andb_prop in Hsame as [Hsame E3]. apply andb_prop in Hsame as [Hsame E2].
  apply andb_prop in Hsame as [Hact E1].
  assert (Hex : existsb
                  (fun r => bool_decide (direction r = p_direction p)
                            && bool_decide (engine r = Some (p_engine p)))
                  (Parallax.getActivePredictions (Some ticker) d) = true).
  { apply existsb_exists. exists r. split.
    - unfold Parallax.getActivePredictions. apply filter_In.
      split; [ exact Hr | now rewrite Hact, E1 ].
    - now rewrite E2, E3. }
  congruence.
Qed.

Lemma cycleTicker_moves (t : Tick) (quotes : list TradierQuote)
    (isTrading isPreMarket : bool) (session : MarketSession) (s : State)
    (ticker : string) :
  rtc (prim true) (db s)
    (db (Daemon.cycleTicker t quotes isTrading isPreMarket session s ticker)).
Proof.
  unfold Daemon.cycleTicker.
  destruct (List.find _ quotes) as [quote | ]; [ | apply rtc_refl ].
  destruct (JS.leb (q_last quote) 0); [ apply rtc_refl | ].
  destruct (Daemon.predict t isTrading isPreMarket session ticker
              (q_last quote) s) as [prediction s1] eqn:Ep.
  destruct (predict_effect _ _ _ _ _ _ _ _ _ Ep) as [(E1 & E2 & E3) Hp].
  assert (Hother : rtc (prim true) (db s) (db s1))
    by (apply rtc_once; now apply prim_other).
  destruct prediction as [p | ]; [ | exact Hother ].
  destruct (Hp p eq_refl) as [Htick Heng].
  destruct (JS.leb 60 (p_confidence p)); [ | exact Hother ].
  destruct (existsb _ _) eqn:Hguard; [ exact Hother | ].
  simpl. eapply rtc_r; [ exact Hother | ].
  destruct (withContractPlan_keeps t ticker (q_last quote) p) as (K1 & K2 & K3).
  apply prim_insert.
  - reflexivity.
  - rewrite K1, K2, K3, Htick. now apply guard_free.
  - now rewrite K3.
Qed.

Lemma storeQuotes_tables (quotes : list TradierQuote) (d : DB) :
  let d' :=
    fold_left
      (fun db quote =>
         if JS.ltb 0 (q_last quote)
         then Daemon.storeQuote (q_symbol quote) quote db else db)
      quotes d in
  predictions d' = predictions d /\ predictionSeq d' = predictionSeq d
  /\ outcomes d' = outcomes d.
Proof.
  cbv zeta. revert d. induction quotes as [ | q quotes IH]; intros d; simpl;
    [ auto | ].
  destruct (IH (if JS.ltb 0 (q_last q)
                then Daemon.storeQuote (q_symbol q) q d else d))
    as (E1 & E2 & E3).
  rewrite E1, E2, E3. destruct (JS.ltb 0 (q_last q)); simpl; auto.
Qed.

Lemma cycleTickers_moves (t : Tick) (quotes : list TradierQuote)
    (isTrading isPreMarket : bool) (session : MarketSession)
    (tickers : list string) (s : State) :
  rtc (prim true) (db s)
    (db (fold_left (Daemon.cycleTicker t quotes isTrading isPreMarket session)
           tickers s)).
Proof.
  revert s. induction tickers as [ | ticker tickers IH]; intros s; simpl.
  - apply rtc_refl.
  - eapply rtc_trans; [ apply cycleTicker_moves | apply IH ].
Qed.

Lemma runPredictionCycle_moves (t : Tick) (s : State) :
  rtc (prim true) (db s) (db (Daemon.runPredictionCycle t s)).
Proof.
  unfold Daemon.runPredictionCycle. cbv zeta.
  destruct (MarketCalendar.getDayType (now t)); try apply rtc_refl.
  all: destruct (negb _ && negb _); [ apply rtc_refl | ].
  all: destruct (fetchMultipleQuotes (feed t) _) as [ | q quotes] eqn:Eq;
    [ apply rtc_refl | ].
  all: eapply rtc_l; [ | apply cycleTickers_moves ].
  all: destruct (storeQuotes_tables (q :: quotes) (db s)) as (E1 & E2 & E3).
  all: now apply prim_other.
Qed.

(** Every step of the daemon is a sequence of elementary moves. *)
Lemma step_moves (s s' : State) :
  Inv (db s) -> Daemon.step s s' -> rtc (prim true) (db s) (db s').
Proof.
  intros Hi Hstep. destruct Hstep.
  - apply runPredictionCycle_moves.
  - apply prims_lift. now apply expireOldPredictions_moves.
  - apply prims_lift. now apply gradeOpenTrades_moves.
  - apply prims_lift. now apply expireStale_moves.
Qed.

(** The invariant holds in every reachable state. *)
Lemma reachable_inv (s : State) : Daemon.reachable s -> Inv (db s).
Proof.
  induction 1 as [ | s s' _ IH Hstep].
  - apply inv_empty.
  - apply (prims_preserve true (db s)); [ | exact IH ].
    apply step_moves; [ exact IH | exact Hstep ].
Qed.

End Steps.

(** ** Reachable states of the daemon *)

Section Reachable.

Context `{Transcendental}.

Lemma preMarket_session (now : DateTime) (holidays halfDays : gset string) :
  MarketTime.getSession now holidays halfDays = PRE_MARKET ->
  MarketTime.isPreMarket now holidays = true.
Proof.
  unfold MarketTime.getSession, MarketTime.isPreMarket.
  destruct (5 <? weekday now); [ discriminate | ].
  destruct (decide (dateStr now ∈ holidays)); [ discriminate | ].
  cbv zeta.
  destruct (_ || _); [ discriminate | ].
  destruct ((240 <=? MarketTime.totalMinutes now)
            && (MarketTime.totalMinutes now <? 570)); [ reflexivity | ].
  repeat match goal with
         | |- context [if ?b then _ else _] => destruct b
         end; discriminate.
Qed.

(** C5.  With a NEUTRAL bias [generatePreMarketPrediction] returns null; a
    tick in the pre-market session calls the Black-Scholes engine with the
    bias NEUTRAL and gets no prediction; and no state the daemon reaches
    holds a prediction whose engine is BLACK_SCHOLES. *)
Theorem black_scholes_never_persisted (s : State) :
  Daemon.reachable s ->
  (forall ticker spotPrice volatility riskFreeRate,
      BlackScholes.generatePreMarketPrediction ticker spotPrice volatility
        riskFreeRate Momentum.NEUTRAL = None)
  /\ (forall (t : Tick) (ticker : string) (currentPrice : Q) (s0 : State),
         let holidays := MarketCalendar.getHolidaysSet in
         let halfDays := MarketCalendar.getHalfDaysSet in
         let session := MarketTime.getSession (now t) holidays halfDays in
         session = PRE_MARKET ->
         Daemon.predict t (MarketTime.isTradingHours (now t) holidays halfDays)
           (MarketTime.isPreMarket (now t) holidays) session ticker
           currentPrice s0
         = (Parallax.generateBlackScholesPrediction (now t) ticker
              (Daemon.getCategory ticker) currentPrice (25 # 100)
              Momentum.NEUTRAL, s0)
         /\ Parallax.generateBlackScholesPrediction (now t) ticker
              (Daemon.getCategory ticker) currentPrice (25 # 100)
              Momentum.NEUTRAL = None)
  /\ (forall r, List.In r (predictions (db s)) ->
        engine r <> Some BLACK_SCHOLES).
Proof.
  intros Hreach. split; [ | split ].
  - intros. reflexivity.
  - intros t ticker currentPrice s0 holidays halfDays session Hs.
    apply preMarket_session in Hs. unfold Daemon.predict.
    rewrite Hs. split; reflexivity.
  - apply (inv_engine (db s)). now apply reachable_inv.
Qed.

(** C6.  In every state the daemon reaches, each
    [(ticker, direction, engine)] has at most one ACTIVE prediction; a
    grader run and either expiry sweep leave no triple with more ACTIVE
    predictions than before. *)
Theorem at_most_one_active_per_triple (s : State) :
  Daemon.reachable s ->
  (forall t dir e, (activeCount (predictions (db s)) t dir e <= 1)%nat)
  /\ (forall random stamp t dir e,
         (activeCount
            (predictions (snd (Reconcile.gradeOpenTrades random stamp (db s))))
            t dir e
          <= activeCount (predictions (db s)) t dir e)%nat)
  /\ (forall todayDate t dir e,
         (activeCount
            (predictions (snd (Reconcile.expireStale todayDate (db s)))) t dir e
          <= activeCount (predictions (db s)) t dir e)%nat)
  /\ (forall now t dir e,
         (activeCount (predictions (db (Daemon.expireOldPredictions now s)))
            t dir e
          <= activeCount (predictions (db s)) t dir e)%nat).
Proof.
  intros Hreach. pose proof (reachable_inv s Hreach) as Hi.
  split; [ apply (inv_unique (db s) Hi) | ].
  split; [ | split ]; intros; apply prims_quiet.
  - now apply gradeOpenTrades_moves.
  - now apply expireStale_moves.
  - now apply expireOldPredictions_moves.
Qed.

Lemma outcomeCount_positive (os : list OutcomeRow) (i : Z) :
  (exists o, List.In o os /\ predictionId o = Some i)
  <-> (0 < outcomeCount os i)%nat.
Proof.
  unfold outcomeCount. split.
  - intros (o & Ho & E).
    assert (Hin : List.In o (List.filter (refersTo i) os)).
    { apply filter_In. split; [ exact Ho | ].
      unfold refersTo. now apply bool_decide_eq_true_2. }
    destruct (List.filter (refersTo i) os); [ contradiction | simpl; lia ].
  - intros Hpos.
    destruct (List.filter (refersTo i) os) as [ | o l] eqn:E;
      [ simpl in Hpos; lia | ].
    assert (Hin : List.In o (List.filter (refersTo i) os))
      by (rewrite E; now left).
    apply filter_In in Hin as [Ho Hr]. exists o. split; [ exact Ho | ].
    now apply bool_decide_eq_true_1 in Hr.
Qed.

Lemma expireStale_outcomes (todayDate : string) (d : DB) :
  outcomes (snd (Reconcile.expireStale todayDate d)) = outcomes d.
Proof.
  unfold Reconcile.expireStale.
  change (outcomes d) with (outcomes (snd (0%nat, d))).
  generalize (0%nat, d) as x. generalize (select_active d) as l.
  induction l as [ | a l IH]; intros x; simpl; [ reflexivity | ].
  rewrite IH. destruct x as [n d0]. unfold Reconcile.expireStep.
  destruct (generatedAt a) as [g | ]; [ | reflexivity ].
  destruct (String.ltb (isoDate g) todayDate); reflexivity.
Qed.

Lemma expireOldPredictions_outcomes (now : DateTime) (s : State) :
  outcomes (db (Daemon.expireOldPredictions now s)) = outcomes (db s).
Proof.
  unfold Daemon.expireOldPredictions. simpl.
  match goal with
  | |- outcomes (fold_left ?f _ _) = _ =>
      assert (Hgen : forall rows d0, outcomes (fold_left f rows d0) = outcomes d0);
      [ | apply Hgen ]
  end.
  induction rows as [ | a l IH]; intros d; simpl; [ reflexivity | ].
  rewrite IH.
  destruct (generatedAt a) as [g | ]; [ | reflexivity ].
  destruct (String.ltb (isoDate g) (MarketTime.getTodayET now)); reflexivity.
Qed.

Lemma prims_same_ids (d d' : DB) :
  rtc (prim false) d d' -> map id (predictions d') = map id (predictions d).
Proof.
  induction 1 as [ | d d1 d' Hp _ IH]; [ reflexivity | ].
  rewrite IH. clear IH.
  destruct Hp as [? ? Ep Es Eo | ? ? ? Hins Hfree Heng
                 | ? r Hr Hact | ? r o i Hr Hact Ho].
  - now rewrite Ep.
  - discriminate.
  - rewrite update_status_predictions. apply retire_ids.
  - rewrite update_status_predictions. apply retire_ids.
Qed.

(** C7.  In every state the daemon reaches, a prediction has an outcome row
    exactly when its status is CLOSED, and then it has exactly one; the
    expiry sweeps write no outcome row; and after a grader run every
    prediction is still there with one outcome row if it is CLOSED and none
    otherwise. *)
Theorem outcome_iff_closed (s : State) :
  Daemon.reachable s ->
  (forall r, List.In r (predictions (db s)) ->
      ((exists o, List.In o (outcomes (db s)) /\ predictionId o = Some (id r))
       <-> status r = Some CLOSED)
      /\ (status r = Some CLOSED ->
          outcomeCount (outcomes (db s)) (id r) = 1%nat)
      /\ (status r = Some EXPIRED ->
          outcomeCount (outcomes (db s)) (id r) = 0%nat))
  /\ (forall todayDate,
         outcomes (snd (Reconcile.expireStale todayDate (db s)))
         = outcomes (db s))
  /\ (forall now,
         outcomes (db (Daemon.expireOldPredictions now s)) = outcomes (db s))
  /\ (forall random stamp r,
         List.In r (predictions (db s)) ->
         let d' := snd (Reconcile.gradeOpenTrades random stamp (db s)) in
         exists r',
           List.In r' (predictions d') /\ id r' = id r
           /\ outcomeCount (outcomes d') (id r)
              = (if bool_decide (status r' = Some CLOSED) then 1 else 0)%nat).
Proof.
  intros Hreach. pose proof (reachable_inv s Hreach) as Hi.
  split; [ | split; [ | split ] ].
  - intros r Hr. pose proof (inv_outcomes (db s) Hi r Hr) as Hc.
    unfold expectedOutcomes in Hc.
    rewrite outcomeCount_positive, Hc.
    destruct (decide (status r = Some CLOSED)) as [E | NE].
    + rewrite bool_decide_eq_true_2 by exact E.
      split; [ split; [ auto | lia ] | ].
      split; [ reflexivity | rewrite E; discriminate ].
    + rewrite bool_decide_eq_false_2 by exact NE.
      split; [ split; [ lia | contradiction ] | ].
      split; [ contradiction | reflexivity ].
  - intros todayDate. apply expireStale_outcomes.
  - intros now. apply expireOldPredictions_outcomes.
  - intros random stamp r Hr d'.
    pose proof (gradeOpenTrades_moves random stamp (db s) Hi) as Hmoves.
    fold d' in Hmoves.
    pose proof (prims_preserve false _ _ Hmoves Hi) as Hi'.
    assert (Hid : List.In (id r) (map id (predictions d'))).
    { rewrite (prims_same_ids _ _ Hmoves). now apply in_map. }
    apply in_map_iff in Hid as (r' & E & Hr').
    exists r'. split; [ exact Hr' | ]. split; [ exact E | ].
    rewrite <- E. apply (inv_outcomes d' Hi' r' Hr').
Qed.

End Reachable.

(** ** The scenarios on the sample states *)

Lemma afterOneTick_reachable : @Daemon.reachable sampleTranscendental afterOneTick.
Proof.
  apply (Daemon.reachable_step Daemon.initial); [ constructor | ].
  apply Daemon.step_tick.
Qed.

Lemma afterTwoTicks_reachable : @Daemon.reachable sampleTranscendental afterTwoTicks.
Proof.
  apply (Daemon.reachable_step afterOneTick); [ apply afterOneTick_reachable | ].
  apply Daemon.step_tick.
Qed.

Lemma afterGrade_reachable : @Daemon.reachable sampleTranscendental afterGrade.
Proof.
  apply (Daemon.reachable_step afterTwoTicks); [ apply afterTwoTicks_reachable | ].
  apply (Daemon.step_grade sampleRandom (stamp morningTick) afterTwoTicks).
Qed.

Lemma afterPreMarketTick_reachable :
  @Daemon.reachable sampleTranscendental afterPreMarketTick.
Proof.
  apply (Daemon.reachable_step afterOneTick); [ apply afterOneTick_reachable | ].
  apply Daemon.step_tick.
Qed.

(** Two identical morning ticks leave one ACTIVE prediction, a PUT of the
    TPO+MIT engine; the grader then closes it and writes its outcome. *)
Lemma two_ticks_one_active :
  map (fun r => (id r, direction r, engine r, status r))
    (predictions (db afterTwoTicks))
  = [(1, PUT, Some TPO_MIT, Some ACTIVE)]
  /\ activeCount (predictions (db afterTwoTicks)) "SPY" PUT (Some TPO_MIT) = 1%nat
  /\ map (fun r => (id r, status r)) (predictions (db afterGrade))
     = [(1, Some CLOSED)]
  /\ map predictionId (outcomes (db afterGrade)) = [Some 1].
Proof. vm_compute. repeat split. Qed.

Lemma black_scholes_never_persisted_witness :
  List.Forall (fun r => engine r <> Some BLACK_SCHOLES)
    (predictions (db afterPreMarketTick)).
Proof.
  apply List.Forall_forall.
  exact (proj2 (proj2 (@black_scholes_never_persisted sampleTranscendental
                         afterPreMarketTick afterPreMarketTick_reachable))).
Defined.

Lemma at_most_one_active_per_triple_witness :
  (activeCount (predictions (db afterTwoTicks)) "SPY" PUT (Some TPO_MIT) <= 1)%nat.
Proof.
  exact (proj1 (@at_most_one_active_per_triple sampleTranscendental
                  afterTwoTicks afterTwoTicks_reachable)
           "SPY" PUT (Some TPO_MIT)).
Defined.

Lemma outcome_iff_closed_witness :
  List.Forall
    (fun r =>
       (exists o, List.In o (outcomes (db afterGrade))
                  /\ predictionId o = Some (id r))
       <-> status r = Some CLOSED)
    (predictions (db afterGrade)).
Proof.
  apply List.Forall_forall. intros r Hr.
  exact (proj1 (proj1 (@outcome_iff_closed sampleTranscendental afterGrade
                         afterGrade_reachable) r Hr)).
Defined.

(** * Further properties of the code *)

(** ** Session predicates (time.ts) *)

Ltac bool_to_prop :=
  repeat match goal with
         | H : andb _ _ = true |- _ => apply andb_true_iff in H; destruct H
         | H : andb _ _ = false |- _ => apply andb_false_iff in H
         | H : orb _ _ = true |- _ => apply orb_true_iff in H
         | H : orb _ _ = false |- _ => apply orb_false_iff in H; destruct H
         | H : Z.leb _ _ = true |- _ => apply Z.leb_le in H
         | H : Z.leb _ _ = false |- _ => apply Z.leb_gt in H
         | H : Z.ltb _ _ = true |- _ => apply Z.ltb_lt in H
         | H : Z.ltb _ _ = false |- _ => apply Z.ltb_ge in H
         | H : _ \/ _ |- _ =>
             progress rewrite ?Z.leb_le, ?Z.leb_gt, ?Z.ltb_lt, ?Z.ltb_ge in H
         end.

Section SessionPredicates.

Variable now : DateTime.
Variables holidays halfDays : gset string.

(** X1.  [getDetailedSession] and [getSession] return the same tag at every
    clock reading, and the tag OPEN, the fallback of [getSession], is never
    returned. *)
Theorem getDetailedSession_is_getSession :
  MarketTime.getDetailedSession now holidays halfDays
  = MarketTime.getSession now holidays halfDays
  /\ MarketTime.getSession now holidays halfDays <> OPEN.
Proof.
  unfold MarketTime.getDetailedSession, MarketTime.getSession.
  destruct (5 <? weekday now); [ split; [ reflexivity | discriminate ] | ].
  destruct (decide (dateStr now ∈ holidays));
    [ split; [ reflexivity | discriminate ] | ].
  cbv zeta.
  set (m := MarketTime.totalMinutes now).
  set (C := MarketTime.closeTime now halfDays).
  destruct ((C <=? m) || (m <? 240)) eqn:E0;
    [ split; [ reflexivity | discriminate ] | ].
  destruct ((240 <=? m) && (m <? 570)) eqn:E1;
    [ split; [ reflexivity | discriminate ] | ].
  destruct ((570 <=? m) && (m <? Z.min 600 C)) eqn:E2;
    [ split; [ reflexivity | discriminate ] | ].
  destruct ((600 <=? m) && (m <? Z.min 720 C)) eqn:E3;
    [ split; [ reflexivity | discriminate ] | ].
  destruct ((720 <=? m) && (m <? Z.min 780 C)) eqn:E4;
    [ split; [ reflexivity | discriminate ] | ].
  destruct ((780 <=? m) && (m <? C)) eqn:E5;
    [ split; [ reflexivity | discriminate ] | ].
  destruct ((570 <=? m) && (m <? C)) eqn:E6;
    [ | split; [ reflexivity | discriminate ] ].
  exfalso. bool_to_prop. lia.
Qed.

(** X2.  [isTradingHours] holds exactly when the session tag is one of
    OPENING_RANGE, MORNING, AFTERNOON and POWER_HOUR, and [isPreMarket]
    exactly when it is PRE_MARKET; the two never hold together. *)
Theorem predicates_follow_session :
  let session := MarketTime.getSession now holidays halfDays in
  (MarketTime.isTradingHours now holidays halfDays = true
   <-> session = OPENING_RANGE \/ session = MORNING \/ session = AFTERNOON
       \/ session = POWER_HOUR)
  /\ (MarketTime.isPreMarket now holidays = true <-> session = PRE_MARKET)
  /\ MarketTime.isTradingHours now holidays halfDays
     && MarketTime.isPreMarket now holidays = false.
Proof.
  cbv zeta.
  unfold MarketTime.isTradingHours, MarketTime.isPreMarket,
    MarketTime.getSession.
  destruct (5 <? weekday now).
  { repeat split; try discriminate; intros; intuition discriminate. }
  destruct (decide (dateStr now ∈ holidays)).
  { repeat split; try discriminate; intros; intuition discriminate. }
  cbv zeta.
  set (m := MarketTime.totalMinutes now).
  set (C := MarketTime.closeTime now halfDays).
  assert (HC : C = 780 \/ C = 960).
  { subst C. unfold MarketTime.closeTime.
    destruct (decide (dateStr now ∈ halfDays)); auto. }
  destruct ((570 <=? m) && (m <? C)) eqn:T;
    destruct ((240 <=? m) && (m <? 570)) eqn:P;
    try (exfalso; bool_to_prop; lia).
  - destruct ((C <=? m) || (m <? 240)) eqn:E0;
      [ exfalso; bool_to_prop; lia | ].
    destruct ((570 <=? m) && (m <? Z.min 600 C)) eqn:E2;
      [ repeat split; auto; discriminate | ].
    destruct ((600 <=? m) && (m <? Z.min 720 C)) eqn:E3;
      [ repeat split; auto; discriminate | ].
    destruct ((720 <=? m) && (m <? Z.min 780 C)) eqn:E4;
      [ repeat split; auto; discriminate | ].
    destruct ((780 <=? m) && (m <? C)) eqn:E5;
      [ repeat split; auto; discriminate | ].
    exfalso. bool_to_prop. lia.
  - destruct ((C <=? m) || (m <? 240)) eqn:E0;
      [ exfalso; bool_to_prop; lia | ].
    repeat split; auto; try discriminate. intros [? | [? | [? | ?]]]; discriminate.
  - destruct ((C <=? m) || (m <? 240)) eqn:E0.
    { repeat split; auto; try discriminate; intros; intuition discriminate. }
    destruct ((570 <=? m) && (m <? Z.min 600 C)) eqn:E2;
      [ exfalso; bool_to_prop; lia | ].
    destruct ((600 <=? m) && (m <? Z.min 720 C)) eqn:E3;
      [ exfalso; bool_to_prop; lia | ].
    destruct ((720 <=? m) && (m <? Z.min 780 C)) eqn:E4;
      [ exfalso; bool_to_prop; lia | ].
    destruct ((780 <=? m) && (m <? C)) eqn:E5;
      [ exfalso; bool_to_prop; lia | ].
    repeat split; auto; try discriminate; intros; intuition discriminate.
Qed.

End SessionPredicates.

(** X3.  At every clock reading the minutes since the open and the minutes
    to the close add up to the length of the session: 390 on a regular day
    and 210 on a half-day. *)
Theorem minutes_since_open_plus_to_close (dt : DateTime) (isHalfDay : bool) :
  (MarketTime.minutesSinceOpen dt + MarketTime.minutesToClose dt isHalfDay
   == if isHalfDay then 210 else 390)%Q.
Proof.
  unfold MarketTime.minutesSinceOpen, MarketTime.minutesToClose,
    MarketTime.diffMinutes, MarketTime.getMarketOpen, MarketTime.getMarketClose,
    MarketTime.setClock.
  cbv zeta. simpl ts.
  set (w := (((hour dt * 60 + minute dt) * 60 + second dt) * 1000
             + millisecond dt)%Z).
  assert (E : forall a b : Z,
             (inject_Z a / 60000 + inject_Z b / 60000
              == inject_Z (a + b) / 60000)%Q).
  { intros a b. rewrite inject_Z_plus. field. }
  rewrite E.
  destruct isHalfDay.
  - replace (ts dt - (ts dt - w + (9 * 60 + 30) * 60000)
             + (ts dt - w + (13 * 60 + 0) * 60000 - ts dt))%Z
      with (210 * 60000)%Z by lia.
    reflexivity.
  - replace (ts dt - (ts dt - w + (9 * 60 + 30) * 60000)
             + (ts dt - w + (16 * 60 + 0) * 60000 - ts dt))%Z
      with (390 * 60000)%Z by lia.
    reflexivity.
Qed.

(** ** Premium helpers (options_risk.ts, risk.ts) *)

Section PremiumHelpers.

Local Open Scope Q_scope.

(** X4.  The mid price is never negative; with a positive bid and ask it
    lies between them, with only one of them positive it is that one, and
    the copies of [getMidPrice] in options_risk.ts and risk.ts agree. *)
Theorem getMidPrice_between (bid ask : Q) :
  let mid := OptionsRiskCalculator.getMidPrice bid ask in
  0 <= mid
  /\ (0 < bid -> 0 < ask -> Qmin bid ask <= mid <= Qmax bid ask)
  /\ (bid <= 0 -> 0 < ask -> mid = ask)
  /\ (0 < bid -> ask <= 0 -> mid = bid)
  /\ RiskCalculator.getMidPrice bid ask = mid.
Proof.
  cbv zeta. unfold OptionsRiskCalculator.getMidPrice, RiskCalculator.getMidPrice.
  destruct (JS.leb bid 0) eqn:Eb, (JS.leb ask 0) eqn:Ea; simpl;
    try apply JSFacts.leb_le in Eb; try apply JSFacts.leb_gt in Eb;
    try apply JSFacts.leb_le in Ea; try apply JSFacts.leb_gt in Ea.
  - repeat split; try reflexivity; intros; lra.
  - repeat split; try reflexivity; intros; lra.
  - repeat split; try reflexivity; intros; lra.
  - assert (Hm : (bid + ask) / 2 == (bid + ask) * (1 # 2)) by field.
    split; [ rewrite Hm; lra | ].
    split; [ | repeat split; try reflexivity; intros; lra ].
    intros _ _. rewrite Hm.
    destruct (Q.min_spec bid ask) as [[? ->] | [? ->]],
             (Q.max_spec bid ask) as [[? ->] | [? ->]]; split; lra.
Qed.

End PremiumHelpers.

(** ** The scheduler tick (daemon.ts) *)

Section TickEffects.

Local Open Scope Q_scope.

Context `{Transcendental}.

Lemma withContractPlan_confidence (t : Tick) (tk : string) (currentPrice : Q)
    (p : Prediction) :
  p_confidence (Daemon.withContractPlan t tk currentPrice p) = p_confidence p.
Proof.
  unfold Daemon.withContractPlan.
  destruct (Daemon.fetch0DTEExpiration t tk) as [expiration | ]; [ | auto ].
  destruct (bool_decide (expiration = "")); [ auto | ].
  destruct (List.find _ _) as [contract | ]; [ | auto ].
  destruct (JS.ltb 0 (opt_bid contract)); [ | auto ].
  destruct (greeks contract); simpl; auto.
Qed.

Lemma cycleTicker_appends (t : Tick) (quotes : list TradierQuote)
    (isTrading isPreMarket : bool) (session : MarketSession) (s : State)
    (tk : string) :
  let s' := Daemon.cycleTicker t quotes isTrading isPreMarket session s tk in
  exists new,
    predictions (db s') = predictions (db s) ++ new
    /\ (length new <= 1)%nat
    /\ List.Forall
         (fun r => status r = Some ACTIVE /\ generatedAt r = Some (stamp t)
                   /\ 60 <= confidence r /\ ticker r = tk) new
    /\ outcomes (db s') = outcomes (db s).
Proof.
  cbv zeta. unfold Daemon.cycleTicker.
  assert (Hnil : forall s1 : State,
             predictions (db s1) = predictions (db s) ->
             outcomes (db s1) = outcomes (db s) ->
             exists new,
               predictions (db s1) = predictions (db s) ++ new
               /\ (length new <= 1)%nat
               /\ List.Forall
                    (fun r => status r = Some ACTIVE
                              /\ generatedAt r = Some (stamp t)
                              /\ 60 <= confidence r /\ ticker r = tk) new
               /\ outcomes (db s1) = outcomes (db s)).
  { intros s1 E1 E3. exists []. rewrite app_nil_r.
    split; [ exact E1 | split; [ simpl; lia | split; [ constructor | exact E3 ] ] ]. }
  destruct (List.find _ quotes) as [quote | ]; [ | now apply Hnil ].
  destruct (JS.leb (q_last quote) 0); [ now apply Hnil | ].
  destruct (Daemon.predict t isTrading isPreMarket session tk
              (q_last quote) s) as [prediction s1] eqn:Ep.
  destruct (predict_effect _ _ _ _ _ _ _ _ _ Ep) as [(E1 & E2 & E3) Hp].
  destruct prediction as [p | ]; [ | now apply Hnil ].
  destruct (Hp p eq_refl) as [Htick _].
  destruct (JS.leb 60 (p_confidence p)) eqn:Hconf; [ | now apply Hnil ].
  destruct (existsb _ _); [ now apply Hnil | ].
  apply JSFacts.leb_le in Hconf.
  destruct (withContractPlan_keeps t tk (q_last quote) p) as (K1 & _ & _).
  eexists. simpl. rewrite E1. split; [ reflexivity | ].
  split; [ simpl; lia | ]. split; [ | exact E3 ].
  constructor; [ | constructor ]. simpl.
  rewrite withContractPlan_confidence, K1.
  split; [ reflexivity | split; [ reflexivity | split; [ exact Hconf | exact Htick ] ] ].
Qed.

Lemma cycleTickers_append (t : Tick) (quotes : list TradierQuote)
    (isTrading isPreMarket : bool) (session : MarketSession)
    (tickers : list string) (s : State) :
  let s' :=
    fold_left (Daemon.cycleTicker t quotes isTrading isPreMarket session)
      tickers s in
  exists new,
    predictions (db s') = predictions (db s) ++ new
    /\ (length new <= length tickers)%nat
    /\ List.Forall
         (fun r => status r = Some ACTIVE /\ generatedAt r = Some (stamp t)
                   /\ 60 <= confidence r /\ List.In (ticker r) tickers) new
    /\ outcomes (db s') = outcomes (db s).
Proof.
  cbv zeta. revert s.
  induction tickers as [ | tk tickers IH]; intros s; simpl fold_left.
  - exists []. rewrite app_nil_r.
    split; [ reflexivity | split; [ simpl; lia | split; [ constructor | reflexivity ] ] ].
  - destruct (cycleTicker_appends t quotes isTrading isPreMarket session s tk)
      as (new1 & P1 & L1 & F1 & O1).
    destruct (IH (Daemon.cycleTicker t quotes isTrading isPreMarket session s tk))
      as (new2 & P2 & L2 & F2 & O2).
    exists (new1 ++ new2).
    split; [ rewrite P2, P1, app_assoc; reflexivity | ].
    split; [ rewrite length_app; simpl; lia | ].
    split; [ | rewrite O2; exact O1 ].
    apply List.Forall_app. split.
    + eapply List.Forall_impl; [ | exact F1 ].
      intros r (A & B & C & D). repeat split; auto. now left.
    + eapply List.Forall_impl; [ | exact F2 ].
      intros r (A & B & C & D). repeat split; auto. now right.
Qed.

Lemma tick_appends_rows (t : Tick) (s : State) :
  let s' := Daemon.runPredictionCycle t s in
  exists new,
    predictions (db s') = predictions (db s) ++ new
    /\ (length new <= length (Daemon.getActiveTickers (now t)))%nat
    /\ List.Forall
         (fun r => status r = Some ACTIVE /\ generatedAt r = Some (stamp t)
                   /\ 60 <= confidence r
                   /\ List.In (ticker r) (Daemon.getActiveTickers (now t))) new
    /\ outcomes (db s') = outcomes (db s).
Proof.
  cbv zeta.
  assert (Hnil : exists new,
             predictions (db s) = predictions (db s) ++ new
             /\ (length new <= length (Daemon.getActiveTickers (now t)))%nat
             /\ List.Forall
                  (fun r => status r = Some ACTIVE
                            /\ generatedAt r = Some (stamp t)
                            /\ 60 <= confidence r
                            /\ List.In (ticker r)
                                 (Daemon.getActiveTickers (now t))) new
             /\ outcomes (db s) = outcomes (db s)).
  { exists []. rewrite app_nil_r.
    split; [ reflexivity | split; [ simpl; lia | split; [ constructor | reflexivity ] ] ]. }
  unfold Daemon.runPredictionCycle. cbv zeta.
  destruct (MarketCalendar.getDayType (now t)); try exact Hnil.
  all: destruct (negb _ && negb _); [ exact Hnil | ].
  all: destruct (fetchMultipleQuotes (feed t) _) as [ | q quotes] eqn:Eq;
    [ exact Hnil | ].
  all: destruct (storeQuotes_tables (q :: quotes) (db s)) as (E1 & _ & E3).
  all: match goal with
       | |- context [fold_left (Daemon.cycleTicker ?t ?qs ?a ?b ?c) ?tks ?s0] =>
           destruct (cycleTickers_append t qs a b c tks s0)
             as (new & P & L & F & O)
       end.
  all: cbn [db] in P, O; rewrite E1 in P; rewrite E3 in O.
  all: exists new; auto.
Qed.

(** X5.  A scheduler tick leaves the stored predictions in place and only
    appends to them: at most one row per active ticker, each ACTIVE, stamped
    with the tick's database clock, of a confidence of at least 60 and for
    one of the active tickers; the outcomes table is not written. *)
Theorem tick_only_appends (t : Tick) (s : State) :
  let s' := Daemon.runPredictionCycle t s in
  exists new,
    predictions (db s') = predictions (db s) ++ new
    /\ (length new <= length (Daemon.getActiveTickers (now t)))%nat
    /\ List.Forall
         (fun r => status r = Some ACTIVE /\ generatedAt r = Some (stamp t)
                   /\ 60 <= confidence r
                   /\ List.In (ticker r) (Daemon.getActiveTickers (now t))) new
    /\ outcomes (db s') = outcomes (db s).
Proof. exact (tick_appends_rows t s). Qed.

Lemma closed_session_flags (now : DateTime) (holidays halfDays : gset string) :
  (let session := MarketTime.getSession now holidays halfDays in
   session = CLOSED_WEEKEND \/ session = CLOSED_HOLIDAY
   \/ session = SESSION_CLOSED) ->
  negb (MarketTime.isTradingHours now holidays halfDays)
  && negb (MarketTime.isPreMarket now holidays) = true.
Proof.
  cbv zeta.
  unfold MarketTime.isTradingHours, MarketTime.isPreMarket,
    MarketTime.getSession.
  destruct (5 <? weekday now)%Z; [ reflexivity | ].
  destruct (decide (dateStr now ∈ holidays)); [ reflexivity | ].
  cbv zeta.
  set (m := MarketTime.totalMinutes now).
  set (C := MarketTime.closeTime now halfDays).
  assert (HC : C = 780%Z \/ C = 960%Z).
  { subst C. unfold MarketTime.closeTime.
    destruct (decide (dateStr now ∈ halfDays)); auto. }
  destruct ((C <=? m) || (m <? 240))%Z eqn:E0.
  { intros _.
    destruct ((570 <=? m) && (m <? C))%Z eqn:T;
      [ exfalso; bool_to_prop; lia | ].
    destruct ((240 <=? m) && (m <? 570))%Z eqn:P;
      [ exfalso; bool_to_prop; lia | reflexivity ]. }
  destruct ((240 <=? m) && (m <? 570))%Z eqn:E1;
    [ intros [? | [? | ?]]; discriminate | ].
  destruct ((570 <=? m) && (m <? Z.min 600 C))%Z eqn:E2;
    [ intros [? | [? | ?]]; discriminate | ].
  destruct ((600 <=? m) && (m <? Z.min 720 C))%Z eqn:E3;
    [ intros [? | [? | ?]]; discriminate | ].
  destruct ((720 <=? m) && (m <? Z.min 780 C))%Z eqn:E4;
    [ intros [? | [? | ?]]; discriminate | ].
  destruct ((780 <=? m) && (m <? C))%Z eqn:E5;
    [ intros [? | [? | ?]]; discriminate | ].
  destruct ((570 <=? m) && (m <? C))%Z eqn:E6;
    [ intros [? | [? | ?]]; discriminate | ].
  intros _. reflexivity.
Qed.

(** X6.  Outside the sessions (weekend, holiday, or a closed session) and
    when the vendor answers with no quote, a tick changes nothing: neither
    the database nor the weights cache. *)
Theorem tick_idle_when_closed (t : Tick) (s : State) :
  (let session :=
     MarketTime.getSession (now t) MarketCalendar.getHolidaysSet
       MarketCalendar.getHalfDaysSet in
   session = CLOSED_WEEKEND \/ session = CLOSED_HOLIDAY
   \/ session = SESSION_CLOSED)
  \/ fetchMultipleQuotes (feed t) (Daemon.getActiveTickers (now t)) = [] ->
  Daemon.runPredictionCycle t s = s.
Proof.
  intros Hclosed.
  unfold Daemon.runPredictionCycle. cbv zeta.
  destruct (MarketCalendar.getDayType (now t)); try reflexivity.
  all: destruct Hclosed as [Hclosed | Hquotes];
    [ now rewrite (closed_session_flags _ _ _ Hclosed)
    | rewrite Hquotes; now destruct (negb _ && negb _) ].
Qed.

Lemma prim_false_confidence (d d' : DB) :
  prim false d d' ->
  List.Forall (fun r => 60 <= confidence r) (predictions d) ->
  List.Forall (fun r => 60 <= confidence r) (predictions d').
Proof.
  intros Hp Hall.
  assert (Hret : forall i st,
             List.Forall (fun r => 60 <= confidence r)
               (map (retire i st) (predictions d))).
  { intros i st. apply List.Forall_forall. intros r' Hr'.
    apply in_retire in Hr' as (x & Hx & ->).
    rewrite List.Forall_forall in Hall. specialize (Hall x Hx).
    unfold retire. destruct (id x =? i)%Z; exact Hall. }
  destruct Hp as [d d' E _ _ | d st p Hins _ _ | d r _ _ | d r o i _ _ _].
  - now rewrite E.
  - discriminate.
  - rewrite update_status_predictions. apply Hret.
  - rewrite update_status_predictions. apply Hret.
Qed.

Lemma prims_false_confidence (d d' : DB) :
  rtc (prim false) d d' ->
  List.Forall (fun r => 60 <= confidence r) (predictions d) ->
  List.Forall (fun r => 60 <= confidence r) (predictions d').
Proof.
  induction 1 as [ | d d1 d' Hp _ IH]; [ auto | ].
  intros Hall. apply IH. now apply (prim_false_confidence d).
Qed.

(** X7.  In every state the daemon reaches, every stored prediction has a
    confidence of at least 60: the tick stores none below it, and neither
    the grader nor the expiry sweeps rewrite the field. *)
Theorem stored_confidence_at_least_60 (s : State) :
  Daemon.reachable s ->
  List.Forall (fun r => 60 <= confidence r) (predictions (db s)).
Proof.
  induction 1 as [ | s s' Hreach IH Hstep].
  - constructor.
  - pose proof (reachable_inv s Hreach) as Hi.
    destruct Hstep.
    + destruct (tick_appends_rows t s) as (new & P & _ & F & _).
      rewrite P. apply List.Forall_app. split; [ exact IH | ].
      eapply List.Forall_impl; [ | exact F ]. intros r (_ & _ & C & _). exact C.
    + apply (prims_false_confidence (db s)); [ | exact IH ].
      now apply expireOldPredictions_moves.
    + apply (prims_false_confidence (db s)); [ | exact IH ].
      now apply gradeOpenTrades_moves.
    + apply (prims_false_confidence (db s)); [ | exact IH ].
      now apply expireStale_moves.
Qed.

End TickEffects.

(** ** The engines' scoring helpers (parallax.ts) *)

Section ScoringHelpers.

Local Open Scope Q_scope.

(** X8.  The weights cache: after a call for a ticker the cache holds the
    genes whose weights were returned; a later call within 60 seconds of
    the entry's refresh returns those weights whatever the database then
    holds, a call after that reads the active genes again, and the entries
    of other tickers are untouched. *)
Theorem weights_cache_ttl (d : DB) (now : Z) (tk : string)
    (cache : gmap string (StrategyGenes * Z)) :
  let r := Parallax.getWeightsFromPraxis d now tk cache in
  exists genes lastRefresh,
    snd r !! tk = Some (genes, lastRefresh)
    /\ fst r = Parallax.weightsOf genes
    /\ (forall tk', tk' <> tk -> snd r !! tk' = cache !! tk')
    /\ (forall d' now', (now' - lastRefresh <= 60000)%Z ->
          Parallax.getWeightsFromPraxis d' now' tk (snd r) = r)
    /\ (forall d' now', (60000 < now' - lastRefresh)%Z ->
          Parallax.getWeightsFromPraxis d' now' tk (snd r)
          = (Parallax.weightsOf (Evolution.getActiveGenes d' tk),
             <[tk := (Evolution.getActiveGenes d' tk, now')]> (snd r))).
Proof.
  cbv zeta.
  assert (Hfresh : forall c : gmap string (StrategyGenes * Z),
    let r := (Parallax.weightsOf (Evolution.getActiveGenes d tk),
              <[tk := (Evolution.getActiveGenes d tk, now)]> c) in
    exists genes lastRefresh,
      snd r !! tk = Some (genes, lastRefresh)
      /\ fst r = Parallax.weightsOf genes
      /\ (forall tk', tk' <> tk -> snd r !! tk' = c !! tk')
      /\ (forall d' now', (now' - lastRefresh <= 60000)%Z ->
            Parallax.getWeightsFromPraxis d' now' tk (snd r) = r)
      /\ (forall d' now', (60000 < now' - lastRefresh)%Z ->
            Parallax.getWeightsFromPraxis d' now' tk (snd r)
            = (Parallax.weightsOf (Evolution.getActiveGenes d' tk),
               <[tk := (Evolution.getActiveGenes d' tk, now')]> (snd r)))).
  { intros c. cbv zeta. simpl fst. simpl snd.
    exists (Evolution.getActiveGenes d tk), now.
    split; [ apply lookup_insert_eq | ].
    split; [ reflexivity | ].
    split; [ intros tk' NE; now apply lookup_insert_ne | ].
    split; intros d' now' Hage; unfold Parallax.getWeightsFromPraxis;
      rewrite lookup_insert_eq; unfold Parallax.GENES_REFRESH_INTERVAL.
    - destruct (Z.ltb_spec 60000 (now' - now)); [ lia | reflexivity ].
    - destruct (Z.ltb_spec 60000 (now' - now)); [ reflexivity | lia ]. }
  assert (Hshape :
    Parallax.getWeightsFromPraxis d now tk cache
    = (Parallax.weightsOf (Evolution.getActiveGenes d tk),
       <[tk := (Evolution.getActiveGenes d tk, now)]> cache)
    \/ exists genes lastRefresh,
         cache !! tk = Some (genes, lastRefresh)
         /\ Parallax.getWeightsFromPraxis d now tk cache
            = (Parallax.weightsOf genes, cache)).
  { unfold Parallax.getWeightsFromPraxis.
    destruct (cache !! tk) as [[genes lastRefresh] | ]; [ | now left ].
    destruct (_ <? _)%Z; [ now left | ].
    right. exists genes, lastRefresh. split; reflexivity. }
  destruct Hshape as [-> | (genes & lastRefresh & Ec & ->)];
    [ exact (Hfresh cache) | ].
  simpl fst. simpl snd. exists genes, lastRefresh.
  split; [ exact Ec | ]. split; [ reflexivity | ].
  split; [ reflexivity | ].
  split; intros d' now' Hage; unfold Parallax.getWeightsFromPraxis;
    rewrite Ec; unfold Parallax.GENES_REFRESH_INTERVAL.
  - destruct (Z.ltb_spec 60000 (now' - lastRefresh)); [ lia | reflexivity ].
  - destruct (Z.ltb_spec 60000 (now' - lastRefresh)); [ reflexivity | lia ].
Qed.

Lemma addComponent_range (lo hi : Q) (c : option Q) (w : Q) (acc : Q * Q) :
  boundedScore lo hi c -> 0 <= w ->
  lo * snd acc <= fst acc <= hi * snd acc ->
  lo * snd (Parallax.addComponent c w acc)
  <= fst (Parallax.addComponent c w acc)
  <= hi * snd (Parallax.addComponent c w acc).
Proof.
  intros Hc Hw Hacc. unfold Parallax.addComponent.
  destruct c as [s | ]; [ | exact Hacc ].
  destruct (Hc s eq_refl) as [Hlo Hhi]. simpl.
  assert (lo * w <= s * w) by (apply Qmult_le_compat_r; assumption).
  assert (s * w <= hi * w) by (apply Qmult_le_compat_r; assumption).
  split; lra.
Qed.

Lemma calculateConfidence_range (lo hi : Q) (components : Components)
    (weights : ConfidenceWeights) :
  lo <= 5 # 10 <= hi ->
  boundedScore lo hi (c_tpo components) -> boundedScore lo hi (c_rsi components) ->
  boundedScore lo hi (c_ib components) -> boundedScore lo hi (c_cvd components) ->
  boundedScore lo hi (c_vwap components) ->
  nonnegConfidenceWeights weights ->
  lo * 100 <= Parallax.calculateConfidence components weights <= hi * 100.
Proof.
  intros Hhalf H1 H2 H3 H4 H5 (W1 & W2 & W3 & W4 & W5).
  unfold Parallax.calculateConfidence. cbv zeta.
  set (a1 := Parallax.addComponent (c_tpo components) (w_tpo weights) (0, 0)).
  set (a2 := Parallax.addComponent (c_rsi components) (w_rsi weights) a1).
  set (a3 := Parallax.addComponent (c_ib components) (w_ib weights) a2).
  set (a4 := Parallax.addComponent (c_cvd components) (w_cvd weights) a3).
  set (a5 := Parallax.addComponent (c_vwap components) (w_vwap weights) a4).
  assert (B1 : lo * snd a1 <= fst a1 <= hi * snd a1).
  { apply addComponent_range; auto. simpl. split; lra. }
  assert (B2 : lo * snd a2 <= fst a2 <= hi * snd a2)
    by (apply addComponent_range; auto).
  assert (B3 : lo * snd a3 <= fst a3 <= hi * snd a3)
    by (apply addComponent_range; auto).
  assert (B4 : lo * snd a4 <= fst a4 <= hi * snd a4)
    by (apply addComponent_range; auto).
  assert (B5 : lo * snd a5 <= fst a5 <= hi * snd a5)
    by (apply addComponent_range; auto).
  destruct a5 as [total weightSum]. simpl fst in B5. simpl snd in B5.
  destruct (JS.ltb 0 weightSum) eqn:E.
  - apply JSFacts.ltb_lt in E.
    assert (Hd : total / weightSum * 100 == total * 100 / weightSum)
      by (field; lra).
    rewrite Hd. split.
    + apply Qle_shift_div_l; [ exact E | lra ].
    + apply Qle_shift_div_r; [ exact E | lra ].
  - lra.
Qed.

Lemma confidenceComponents_range (tpoSignal : Bias.t) (rsiSignal : RsiSignal.t)
    (ib : option InitialBalance) (orderFlow : option OrderFlowSnapshot)
    (technicals : TechnicalSnapshot) (currentPrice : Q) :
  let c := Parallax.confidenceComponents tpoSignal rsiSignal ib orderFlow
             technicals currentPrice in
  boundedScore (3 # 10) (8 # 10) (c_tpo c)
  /\ boundedScore (3 # 10) (8 # 10) (c_rsi c)
  /\ boundedScore (3 # 10) (8 # 10) (c_ib c)
  /\ boundedScore (3 # 10) (8 # 10) (c_cvd c)
  /\ boundedScore (3 # 10) (8 # 10) (c_vwap c).
Proof.
  cbv zeta. unfold boundedScore, Parallax.confidenceComponents. simpl.
  split; [ | split; [ | split; [ | split ] ] ]; intros s Hs.
  - destruct tpoSignal; injection Hs as <-; split; lra.
  - destruct rsiSignal; injection Hs as <-; split; lra.
  - destruct ib as [ib0 | ]; [ | discriminate ]. injection Hs as <-.
    destruct (_ || _); split; lra.
  - destruct orderFlow as [o | ]; [ | discriminate ]. injection Hs as <-.
    destruct (cvdDivergence o); split; lra.
  - destruct orderFlow as [o | ]; [ | discriminate ].
    destruct (vwap technicals) as [v | ]; [ | discriminate ].
    injection Hs as <-.
    destruct (JS.ratioBelow _ _ (1 # 100));
      [ split; lra | destruct (JS.ratioBelow _ _ (2 # 100)); split; lra ].
Qed.

(** X9.  With weights none of which is negative, the confidence the TPO+MIT
    engine computes lies between 30 and 80, whatever the candles and the
    price are. *)
Theorem tpomit_confidence_between_30_and_80 (weights : ConfidenceWeights)
    (profile : TPOProfile) (candles : list Candle) (currentPrice : Q) :
  nonnegConfidenceWeights weights ->
  30 <= Parallax.sc_confidence (Parallax.score weights profile candles currentPrice)
     <= 80.
Proof.
  intros Hw. unfold Parallax.score. cbv zeta. simpl Parallax.sc_confidence.
  match goal with
  | |- context [Parallax.confidenceComponents ?a ?b ?c ?d ?e ?f] =>
      destruct (confidenceComponents_range a b c d e f) as (B1 & B2 & B3 & B4 & B5);
      pose proof (calculateConfidence_range (3 # 10) (8 # 10)
                    (Parallax.confidenceComponents a b c d e f) weights) as Hr
  end.
  assert (Hhalf : 3 # 10 <= 5 # 10 <= 8 # 10) by (split; lra).
  specialize (Hr Hhalf B1 B2 B3 B4 B5 Hw).
  split; [ | lra ]. destruct Hr as [Hlo _]. lra.
Qed.

Lemma round_near (x : Q) :
  x - (1 # 2) < inject_Z (JS.round x) <= x + (1 # 2).
Proof.
  unfold JS.round. split.
  - pose proof (Qlt_floor (x + (1 # 2))) as Hlt.
    rewrite inject_Z_plus in Hlt. change (inject_Z 1) with 1 in Hlt. lra.
  - apply Qfloor_le.
Qed.

(** X10.  The strike is a whole number within half a dollar of the price
    moved by 0.5 percent towards the direction; from a price of 100 on it
    is out of the money: not below the price for a CALL, not above it for a
    PUT. *)
Theorem selectStrike_out_of_the_money (currentPrice : Q) :
  Qabs (Parallax.selectStrike currentPrice CALL 1
        - currentPrice * (1005 # 1000)) <= 1 # 2
  /\ Qabs (Parallax.selectStrike currentPrice PUT 1
           - currentPrice * (995 # 1000)) <= 1 # 2
  /\ (forall direction, exists n : Z,
        Parallax.selectStrike currentPrice direction 1 == inject_Z n)
  /\ (100 <= currentPrice ->
      currentPrice <= Parallax.selectStrike currentPrice CALL 1
      /\ Parallax.selectStrike currentPrice PUT 1 <= currentPrice).
Proof.
  unfold Parallax.selectStrike. cbv zeta.
  set (rc := (currentPrice + 1 * (currentPrice * (5 # 1000))) / 1).
  set (rp := (currentPrice + - (1) * (currentPrice * (5 # 1000))) / 1).
  assert (Ec : rc == currentPrice * (1005 # 1000)) by (subst rc; field).
  assert (Ep : rp == currentPrice * (995 # 1000)) by (subst rp; field).
  pose proof (round_near rc) as [Hc1 Hc2].
  pose proof (round_near rp) as [Hp1 Hp2].
  split; [ apply Qabs_Qle_condition; split; lra | ].
  split; [ apply Qabs_Qle_condition; split; lra | ].
  split.
  - intros direction. destruct direction; eexists; rewrite Qmult_1_r; reflexivity.
  - intros Hp. split; lra.
Qed.

(** X11.  The ORB engine reads the same position as [getORBPosition]: CALL
    above the range, PUT below it, no direction inside it.  With a range
    that is not negative its confidence lies between 55 and 75, and it
    reaches the emission floor of 60 exactly when the price is beyond the
    range by at least one eighth of the range. *)
Theorem orbSignal_breakout_threshold (levels : ORBLevels) (currentPrice : Q) :
  0 <= rangeSize levels ->
  let (direction, confidence) := Parallax.orbSignal levels currentPrice in
  55 <= confidence <= 75
  /\ match ORB.getORBPosition currentPrice levels with
     | ORB.ABOVE =>
         direction = Some CALL
         /\ (60 <= confidence
             <-> rangeSize levels / 8 <= currentPrice - orb_high levels)
     | ORB.BELOW =>
         direction = Some PUT
         /\ (60 <= confidence
             <-> rangeSize levels / 8 <= orb_low levels - currentPrice)
     | ORB.INSIDE => direction = None /\ confidence == 55
     end.
Proof.
  intros Hr. unfold Parallax.orbSignal, ORB.getORBPosition. cbv zeta.
  assert (Hbonus : forall distance, 0 < distance ->
            let b := Parallax.breakoutBonus distance (rangeSize levels) in
            0 <= b <= 20 /\ (5 <= b <-> rangeSize levels / 8 <= distance)).
  { intros distance Hd. cbv zeta. unfold Parallax.breakoutBonus.
    destruct (JS.eqb (rangeSize levels) 0) eqn:E0.
    - apply JSFacts.eqb_eq in E0. split; [ split; lra | ].
      assert (E8 : rangeSize levels / 8 == rangeSize levels * (1 # 8)) by field.
      rewrite E8. split; [ intros _; lra | intros _; lra ].
    - apply JSFacts.eqb_neq in E0.
      assert (Hpos : 0 < rangeSize levels).
      { destruct (Qlt_le_dec 0 (rangeSize levels)) as [ | Hle]; [ assumption | ].
        exfalso. apply E0. lra. }
      set (x := distance / rangeSize levels * 40).
      assert (Hx : x == distance * 40 / rangeSize levels)
        by (subst x; field; lra).
      assert (Hx0 : 0 <= x).
      { rewrite Hx. apply Qle_shift_div_l; [ exact Hpos | lra ]. }
      assert (Hiff : 5 <= x <-> rangeSize levels / 8 <= distance).
      { rewrite Hx. split; intros Hc.
        - apply Qle_shift_div_r; [ lra | ].
          assert (5 * rangeSize levels <= distance * 40).
          { apply (Qmult_le_r _ _ (/ rangeSize levels));
              [ now apply Qinv_lt_0_compat | ].
            assert (E5 : 5 * rangeSize levels * / rangeSize levels == 5)
              by (field; lra).
            rewrite E5. exact Hc. }
          lra.
        - apply Qle_shift_div_l; [ exact Hpos | ].
          assert (rangeSize levels <= distance * 8).
          { apply (Qmult_le_r _ _ (/ 8)); [ reflexivity | ].
            assert (E8 : distance * 8 * / 8 == distance) by field.
            rewrite E8. exact Hc. }
          lra. }
      destruct (JSFacts.min_spec 20 x) as [[Hlt ->] | [Hle ->]].
      + split; [ split; lra | exact Hiff ].
      + split; [ split; lra | ].
        split; [ intros _; apply Hiff; lra | intros _; lra ]. }
  destruct (JS.ltb (orb_high levels) currentPrice) eqn:Eh.
  - apply JSFacts.ltb_lt in Eh.
    destruct (Hbonus (currentPrice - orb_high levels)) as [[B0 B1] Biff]; [ lra | ].
    split; [ split; lra | ]. split; [ reflexivity | ].
    rewrite <- Biff. split; intros; lra.
  - destruct (JS.ltb currentPrice (orb_low levels)) eqn:El.
    + apply JSFacts.ltb_lt in El.
      destruct (Hbonus (orb_low levels - currentPrice)) as [[B0 B1] Biff]; [ lra | ].
      split; [ split; lra | ]. split; [ reflexivity | ].
      rewrite <- Biff. split; intros; lra.
    + split; [ split; lra | ]. split; reflexivity.
Qed.

End ScoringHelpers.

(** ** The genetic solver (evolution.ts) *)

Section DegenerateSelection.

Local Open Scope Q_scope.

Variable random : nat -> Q.
Variable d : DB.

Lemma insertByFitness_last (x : Evolution.Individual)
    (l : list Evolution.Individual) :
  (forall y, List.In y l -> Evolution.fitness y = Evolution.fitness x) ->
  Evolution.insertByFitness x l = l ++ [x].
Proof.
  induction l as [ | y l IH]; intros Hall; simpl; [ reflexivity | ].
  rewrite (Hall y (or_introl eq_refl)).
  assert (E : JS.ltb (Evolution.fitness x) (Evolution.fitness x) = false)
    by (apply JSFacts.ltb_ge; apply Qle_refl).
  rewrite E. f_equal. apply IH. intros z Hz. apply Hall. now right.
Qed.

Lemma sortByFitness_flat (f : Q) (l acc : list Evolution.Individual) :
  (forall y, List.In y (acc ++ l) -> Evolution.fitness y = f) ->
  fold_left (fun acc x => Evolution.insertByFitness x acc) l acc = acc ++ l.
Proof.
  revert acc. induction l as [ | x l IH]; intros acc Hall; simpl.
  - now rewrite app_nil_r.
  - rewrite insertByFitness_last.
    + rewrite IH; [ now rewrite <- app_assoc | ].
      intros y Hy. apply Hall. rewrite <- app_assoc in Hy. exact Hy.
    + intros y Hy. rewrite (Hall y), (Hall x); [ reflexivity | | ];
        apply in_or_app; [ right; now left | now left ].
Qed.

Lemma evaluate_sorted (population : list Evolution.Individual) :
  Evolution.sortByFitness (Evolution.evaluate d population)
  = Evolution.evaluate d population.
Proof.
  unfold Evolution.sortByFitness.
  rewrite (sortByFitness_flat
             (Evolution.calculateFitness d Evolution.DEFAULT_GENES));
    [ reflexivity | ].
  intros y Hy. simpl in Hy. unfold Evolution.evaluate in Hy.
  apply in_map_iff in Hy as (x & <- & _). reflexivity.
Qed.

Lemma initPopulation_shape (n k : nat) :
  exists population k',
    Evolution.initPopulation random n k = (population, k')
    /\ length population = n
    /\ (n <> O ->
        head population
        = Some {| Evolution.genes := fst (Evolution.createRandomGenes random k);
                  Evolution.fitness := 0 |}).
Proof.
  revert k. induction n as [ | n IH]; intros k.
  - exists [], k. split; [ reflexivity | split; [ reflexivity | congruence ] ].
  - cbn [Evolution.initPopulation]. unfold Evolution.bind at 1.
    destruct (Evolution.createRandomGenes random k) as [g k1].
    unfold Evolution.bind.
    destruct (IH k1) as (rest & k2 & E & L & _). rewrite E.
    exists ({| Evolution.genes := g; Evolution.fitness := 0 |} :: rest), k2.
    split; [ reflexivity | ]. split; [ simpl; now rewrite L | ].
    intros _. reflexivity.
Qed.

Hypothesis random_unit : forall n, 0 <= random n < 1.

Lemma selectParent_some (pool : list Evolution.Individual) (k : nat) :
  pool <> [] ->
  exists individual,
    Evolution.selectParent random pool k = (Some individual, S k).
Proof.
  intros Hne. unfold Evolution.selectParent.
  destruct (JS.eqb _ 0).
  - unfold Evolution.bind, Evolution.Math_random, Evolution.ret.
    destruct (random_unit k) as [R0 R1].
    set (L := length pool).
    assert (HL : (0 < L)%nat) by (subst L; destruct pool; simpl; [ congruence | lia ]).
    assert (Hidx : (Z.to_nat (JS.floor (random k * inject_Z (Z.of_nat L))) < L)%nat).
    { unfold JS.floor.
      assert (Hlt : (Qfloor (random k * inject_Z (Z.of_nat L)) < Z.of_nat L)%Z).
      { rewrite Zlt_Qlt.
        eapply Qle_lt_trans; [ apply Qfloor_le | ].
        assert (HLq : 0 < inject_Z (Z.of_nat L)).
        { change 0 with (inject_Z 0). rewrite <- Zlt_Qlt. lia. }
        assert (random k * inject_Z (Z.of_nat L) < 1 * inject_Z (Z.of_nat L))
          by (apply Qmult_lt_compat_r; assumption).
        lra. }
      lia. }
    destruct (nth_error pool _) as [individual | ] eqn:En.
    + now exists individual.
    + apply nth_error_None in En. fold L in En. lia.
  - unfold Evolution.bind, Evolution.Math_random, Evolution.ret.
    destruct (Evolution.roulette _ pool) as [individual | ].
    + now exists individual.
    + destruct (last pool) as [individual | ] eqn:El.
      * now exists individual.
      * apply last_None in El. congruence.
Qed.

Lemma breed_some (n : nat) (population : list Evolution.Individual) (k : nat) :
  firstn (Evolution.POPULATION_SIZE / 2) population <> [] ->
  exists children k',
    Evolution.breed random n population k = (Some children, k').
Proof.
  intros Hne. revert k. induction n as [ | n IH]; intros k.
  - exists [], k. reflexivity.
  - cbn [Evolution.breed]. unfold Evolution.bind at 1.
    destruct (selectParent_some _ k Hne) as [parent1 E1]. rewrite E1.
    unfold Evolution.bind at 1.
    destruct (selectParent_some _ (S k) Hne) as [parent2 E2]. rewrite E2.
    unfold Evolution.bind at 1. unfold Evolution.Math_random at 1.
    unfold Evolution.bind at 1.
    destruct ((if JS.ltb (random (S (S k))) Evolution.CROSSOVER_RATE
               then Evolution.crossover random (Evolution.genes parent1)
                      (Evolution.genes parent2)
               else Evolution.ret (Evolution.genes parent1)) (S (S (S k))))
      as [childGenes k3].
    unfold Evolution.bind at 1.
    destruct (Evolution.mutate random childGenes k3) as [mutated k4].
    unfold Evolution.bind at 1.
    destruct (IH k4) as (rest & k5 & Er). rewrite Er.
    eexists. eexists. reflexivity.
Qed.

(** X12.  With draws in [0, 1), [evolve] returns the genes of the first
    individual it created: the fitness does not depend on the genes, so
    both sorts leave the order as it is and the first elite stays in
    front.  The returned weights are the raw draws of [createRandomGenes],
    not renormalised. *)
Theorem evolve_returns_first_created_genes :
  fst (Evolution.evolve random d O)
  = Some (fst (Evolution.createRandomGenes random O)).
Proof.
  unfold Evolution.evolve. unfold Evolution.bind at 1.
  destruct (initPopulation_shape Evolution.POPULATION_SIZE O)
    as (population & k1 & E & L & Hhead).
  rewrite E. rewrite evaluate_sorted.
  destruct population as [ | first population];
    [ discriminate L | ].
  specialize (Hhead ltac:(discriminate)). simpl in Hhead.
  injection Hhead as Hfirst.
  unfold Evolution.bind.
  destruct (breed_some
              (Evolution.POPULATION_SIZE
               - length (firstn Evolution.ELITE_COUNT
                           (Evolution.evaluate d (first :: population))))
              (Evolution.evaluate d (first :: population)) k1)
    as (children & k2 & Eb); [ discriminate | ].
  rewrite Eb. unfold Evolution.ret. cbn [fst].
  rewrite evaluate_sorted. simpl. now rewrite Hfirst.
Qed.

End DegenerateSelection.

Section GeneRanges.

Local Open Scope Q_scope.

Variable random : nat -> Q.

Lemma clamp_range (v lo hi : Q) :
  lo <= hi -> lo <= Evolution.clamp v lo hi <= hi.
Proof.
  intros Hlh. unfold Evolution.clamp.
  destruct (JSFacts.max_spec lo (JS.min hi v)) as [[Hlt ->] | [Hle ->]].
  - split; [ lra | apply JSFacts.min_upper_l ].
  - split; [ lra | exact Hlh ].
Qed.

Lemma mutateField_range (v r lo hi : Q) (n : nat) :
  lo <= hi -> lo <= v <= hi ->
  lo <= fst (Evolution.mutateField random v r lo hi n) <= hi.
Proof.
  intros Hlh Hv.
  unfold Evolution.mutateField, Evolution.bind, Evolution.Math_random,
    Evolution.randomInRange, Evolution.ret.
  destruct (JS.ltb (random n) Evolution.MUTATION_RATE); simpl; [ | exact Hv ].
  now apply clamp_range.
Qed.

Lemma pick_range (x y lo hi : Q) (n : nat) :
  lo <= x <= hi -> lo <= y <= hi ->
  lo <= fst (Evolution.pick random x y n) <= hi.
Proof. intros Hx Hy. destruct (pick_cases random x y n) as [-> | ->]; assumption. Qed.

Lemma normalizeWeights_ranges (g : StrategyGenes) :
  geneRanges g -> geneRanges (Evolution.normalizeWeights g).
Proof.
  intros Hg. unfold Evolution.normalizeWeights.
  destruct (JS.eqb _ 0); [ | exact Hg ].
  unfold geneRanges. simpl. repeat split; lra.
Qed.

(** Names the result and the next counter of each draw of a chain of
    binds, with the range the result stays in. *)
Ltac step_range :=
  match goal with
  | |- context [Evolution.mutateField random ?v ?r ?lo ?hi ?n] =>
      let a := fresh "a" in
      let k := fresh "k" in
      let E := fresh "E" in
      pose proof (mutateField_range v r lo hi n) as E;
      destruct (Evolution.mutateField random v r lo hi n) as [a k];
      simpl fst in E
  | |- context [Evolution.pick random ?x ?y ?n] =>
      let a := fresh "a" in
      let k := fresh "k" in
      let E := fresh "E" in
      pose proof (fun lo hi => pick_range x y lo hi n) as E;
      destruct (Evolution.pick random x y n) as [a k];
      simpl fst in E
  end.

(** X13.  The four genes that are not component weights stay in their
    clamp ranges (minConfidence in [50, 80], orbBreakoutMultiplier in
    [0.3, 3], stopLossMultiplier in [0.2, 0.8], targetMultiplier in
    [1.2, 4]): [mutate] keeps genes in the ranges, [crossover] of two
    parents in the ranges is in the ranges, and so are freshly created
    genes when the draws lie in [0, 1]. *)
Theorem genes_stay_in_ranges (genes parent1 parent2 : StrategyGenes) (n : nat) :
  (geneRanges genes -> geneRanges (fst (Evolution.mutate random genes n)))
  /\ (geneRanges parent1 -> geneRanges parent2 ->
      geneRanges (fst (Evolution.crossover random parent1 parent2 n)))
  /\ ((forall k, 0 <= random k <= 1) ->
      geneRanges (fst (Evolution.createRandomGenes random n))).
Proof.
  split; [ | split ].
  - intros (G1 & G2 & G3 & G4).
    unfold Evolution.mutate, Evolution.bind.
    repeat step_range. unfold Evolution.ret. simpl fst.
    apply normalizeWeights_ranges. unfold geneRanges. simpl.
    repeat split;
      match goal with
      | H : _ -> _ -> ?lo <= ?a <= _ |- ?lo <= ?a => apply H
      | H : _ -> _ -> _ <= ?a <= ?hi |- ?a <= ?hi => apply H
      end; (assumption || lra).
  - intros (G1 & G2 & G3 & G4) (G1' & G2' & G3' & G4').
    unfold Evolution.crossover, Evolution.bind.
    repeat step_range. unfold Evolution.ret. simpl fst.
    apply normalizeWeights_ranges. unfold geneRanges. simpl.
    split; [ apply E4; assumption | ].
    split; [ apply E5; assumption | ].
    split; [ apply E6; assumption | apply E7; assumption ].
  - intros Hr.
    unfold Evolution.createRandomGenes, Evolution.bind, Evolution.randomInRange,
      Evolution.Math_random, Evolution.ret.
    simpl. unfold geneRanges. simpl.
    pose proof (Hr (5 + n)%nat) as H5. pose proof (Hr (6 + n)%nat) as H6.
    pose proof (Hr (7 + n)%nat) as H7. pose proof (Hr (8 + n)%nat) as H8.
    simpl in H5, H6, H7, H8.
    repeat split; lra.
Qed.

End GeneRanges.

Section AlphaGenes.

Local Open Scope Q_scope.

Lemma latestParameter_filter (keep : ParameterRow -> bool)
    (rows : list ParameterRow) (best : option ParameterRow) :
  fold_left
    (fun best r =>
       if keep r then
         match best with
         | Some b => if (pr_lastUpdated b <? pr_lastUpdated r)%Z
                     then Some r else best
         | None => Some r
         end
       else best)
    rows best
  = fold_left
      (fun best r =>
         match best with
         | Some b => if (pr_lastUpdated b <? pr_lastUpdated r)%Z
                     then Some r else best
         | None => Some r
         end)
      (List.filter keep rows) best.
Proof.
  revert best. induction rows as [ | r rows IH]; intros best; simpl;
    [ reflexivity | ].
  destruct (keep r); simpl; apply IH.
Qed.

Lemma latestParameter_single (keep : ParameterRow -> bool)
    (rows : list ParameterRow) (r : ParameterRow) :
  List.filter keep rows = [r] -> Evolution.latestParameter keep rows = Some r.
Proof.
  intros E. unfold Evolution.latestParameter.
  rewrite latestParameter_filter, E. reflexivity.
Qed.

Lemma filter_map_comm {A B} (q : B -> bool) (f : A -> B) (l : list A) :
  List.filter q (map f l) = map f (List.filter (fun x => q (f x)) l).
Proof.
  induction l as [ | x l IH]; simpl; [ reflexivity | ].
  destruct (q (f x)); simpl; now rewrite IH.
Qed.

(** X14.  Saving alpha genes for a ticker that has at most one parameter
    row, an active one, makes them the active genes of that ticker and
    leaves one row for it; a delta row is logged exactly when a row
    existed, and it records the configuration that was replaced. *)
Theorem saveAlphaGenes_then_getActiveGenes (now : Z) (tk : string)
    (genes : StrategyGenes) (winRate : Q) (d : DB) :
  (length (namedRows tk (parameters d)) <= 1)%nat ->
  (forall r, List.In r (parameters d) -> pr_name r = tk -> pr_isActive r = true) ->
  let d' := Evolution.saveAlphaGenes now tk genes winRate d in
  Evolution.getActiveGenes d' tk = genes
  /\ length (namedRows tk (parameters d')) = 1%nat
  /\ match namedRows tk (parameters d) with
     | [] => deltas d' = deltas d
     | existing :: _ =>
         deltas d'
         = deltas d ++ [{| d_parameterId := pr_id existing;
                           d_oldConfig := pr_config existing;
                           d_newConfig := genes; d_winRate := winRate |}]
         /\ length (parameters d') = length (parameters d)
     end.
Proof.
  intros Hone Hactive. cbv zeta.
  unfold Evolution.saveAlphaGenes, Evolution.getActiveGenes, namedRows in *.
  destruct (List.filter (fun r => bool_decide (pr_name r = tk)) (parameters d))
    as [ | existing others] eqn:En.
  - simpl parameters. simpl deltas.
    assert (Hkeep : List.filter
                      (fun r => bool_decide (pr_name r = tk) && pr_isActive r)
                      (parameters d) = []).
    { destruct (List.filter
                  (fun r => bool_decide (pr_name r = tk) && pr_isActive r)
                  (parameters d)) as [ | x l] eqn:Ef; [ reflexivity | ].
      assert (Hx : List.In x (List.filter
                                (fun r => bool_decide (pr_name r = tk)
                                          && pr_isActive r) (parameters d)))
        by (rewrite Ef; now left).
      apply filter_In in Hx as [Hx Hq]. apply andb_prop in Hq as [Hq _].
      assert (Hx' : List.In x (List.filter
                                 (fun r => bool_decide (pr_name r = tk))
                                 (parameters d)))
        by (apply filter_In; split; assumption).
      rewrite En in Hx'. destruct Hx'. }
    split; [ | split; [ | reflexivity ] ].
    + erewrite latestParameter_single; cycle 1.
      { rewrite List.filter_app, Hkeep. simpl.
        rewrite bool_decide_eq_true_2 by reflexivity. reflexivity. }
      reflexivity.
    + rewrite List.filter_app, En. simpl.
      rewrite bool_decide_eq_true_2 by reflexivity. reflexivity.
  - destruct others as [ | x others]; [ | simpl in Hone; lia ].
    simpl parameters. simpl deltas.
    assert (Hin : List.In existing (parameters d) /\ pr_name existing = tk).
    { assert (Hx : List.In existing
                     (List.filter (fun r => bool_decide (pr_name r = tk))
                        (parameters d))) by (rewrite En; now left).
      apply filter_In in Hx as [Hx Hq].
      split; [ exact Hx | now apply bool_decide_eq_true_1 in Hq ]. }
    destruct Hin as [Hin Hname].
    set (upd := fun r : ParameterRow =>
                  if (pr_id r =? pr_id existing)%Z
                  then {| pr_id := pr_id r; pr_name := pr_name r;
                          pr_config := genes; pr_winRate := winRate;
                          pr_isActive := pr_isActive r; pr_lastUpdated := now |}
                  else r).
    assert (Hupd_name : forall r, pr_name (upd r) = pr_name r)
      by (intros r; unfold upd; now destruct (_ =? _)%Z).
    assert (Hupd_active : forall r, pr_isActive (upd r) = pr_isActive r)
      by (intros r; unfold upd; now destruct (_ =? _)%Z).
    assert (Hnamed : List.filter (fun r => bool_decide (pr_name r = tk))
                       (map upd (parameters d)) = [upd existing]).
    { rewrite filter_map_comm.
      rewrite (List.filter_ext _ (fun r => bool_decide (pr_name r = tk))),
        En; [ reflexivity | ].
      intros r. now rewrite Hupd_name. }
    assert (Hkeep : List.filter
                      (fun r => bool_decide (pr_name r = tk) && pr_isActive r)
                      (map upd (parameters d)) = [upd existing]).
    { rewrite filter_map_comm.
      rewrite (List.filter_ext_in _ (fun r => bool_decide (pr_name r = tk))),
        En; [ reflexivity | ].
      intros r Hr. rewrite Hupd_name, Hupd_active.
      destruct (bool_decide (pr_name r = tk)) eqn:Eq; [ | reflexivity ].
      apply bool_decide_eq_true_1 in Eq. now rewrite (Hactive r Hr Eq). }
    split; [ | split; [ | split ] ].
    + erewrite latestParameter_single; [ | exact Hkeep ].
      unfold upd. now rewrite Z.eqb_refl.
    + now rewrite Hnamed.
    + reflexivity.
    + now rewrite length_map.
Qed.

End AlphaGenes.

(** ** Indicators (technicals.ts) *)

Section Indicators.

Local Open Scope Q_scope.

Lemma changes_length (closes : list Q) :
  length (Technicals.changes closes) = (length closes - 1)%nat.
Proof.
  induction closes as [ | a [ | b rest] IH]; [ reflexivity | reflexivity | ].
  change (Technicals.changes (a :: b :: rest))
    with ((b - a) :: Technicals.changes (b :: rest)).
  simpl length in *. rewrite IH. lia.
Qed.

Lemma trueRanges_length (candles : list Candle) :
  length (Technicals.trueRanges candles) = (length candles - 1)%nat.
Proof.
  induction candles as [ | a [ | b rest] IH]; [ reflexivity | reflexivity | ].
  cbn [Technicals.trueRanges]. simpl length in *. rewrite IH. lia.
Qed.

Lemma fold_sum_nonneg (l : list Q) (acc : Q) :
  0 <= acc -> List.Forall (fun x => 0 <= x) l -> 0 <= fold_left Qplus l acc.
Proof.
  revert acc. induction l as [ | x l IH]; intros acc Hacc Hall; simpl;
    [ exact Hacc | ].
  inversion Hall as [ | ? ? Hx Hl]; subst.
  apply IH; [ lra | exact Hl ].
Qed.

Lemma sum_nonneg (l : list Q) :
  List.Forall (fun x => 0 <= x) l -> 0 <= Technicals.sum l.
Proof. apply fold_sum_nonneg. lra. Qed.

Lemma ofNat_pos (period : nat) : (0 < period)%nat -> 1 <= Technicals.ofNat period.
Proof.
  intros Hp. unfold Technicals.ofNat. change 1 with (inject_Z 1).
  rewrite <- Zle_Qle. lia.
Qed.

Lemma wilder_nonneg (period : nat) (init : Q) (rest : list Q) :
  (0 < period)%nat -> 0 <= init -> List.Forall (fun x => 0 <= x) rest ->
  0 <= Technicals.wilder period init rest.
Proof.
  intros Hp. pose proof (ofNat_pos period Hp) as Hn.
  unfold Technicals.wilder. revert init.
  induction rest as [ | x rest IH]; intros init Hinit Hall; simpl;
    [ exact Hinit | ].
  inversion Hall as [ | ? ? Hx Hl]; subst.
  apply IH; [ | exact Hl ].
  apply Qle_shift_div_l; [ lra | ].
  assert (0 <= init * (Technicals.ofNat period - 1))
    by (apply Qmult_le_0_compat; lra).
  lra.
Qed.

Lemma average_nonneg (period : nat) (l : list Q) :
  (0 < period)%nat -> List.Forall (fun x => 0 <= x) l ->
  0 <= Technicals.sum l / Technicals.ofNat period.
Proof.
  intros Hp Hall. pose proof (ofNat_pos period Hp).
  pose proof (sum_nonneg l Hall).
  apply Qle_shift_div_l; lra.
Qed.

(** X15.  For a positive period the RSI is undefined up to [period]
    closes, and from [period + 1] closes on it is defined and lies between
    0 and 100. *)
Theorem calculateRSI_between_0_and_100 (closes : list Q) (period : nat) :
  (0 < period)%nat ->
  ((length closes <= period)%nat -> Technicals.calculateRSI closes period = None)
  /\ ((period < length closes)%nat ->
      exists v, Technicals.calculateRSI closes period = Some v /\ 0 <= v <= 100).
Proof.
  intros Hp. unfold Technicals.calculateRSI. cbv zeta. split.
  - intros Hlen. destruct (Nat.ltb_spec (length closes) (period + 1)); [ reflexivity | lia ].
  - intros Hlen.
    destruct (Nat.ltb_spec (length closes) (period + 1)); [ lia | ].
    rewrite length_map, changes_length.
    destruct (Nat.ltb_spec (length closes - 1) period); [ lia | ].
    set (gains := map (fun change => if JS.ltb 0 change then change else 0)
                    (Technicals.changes closes)).
    set (losses := map (fun change => if JS.ltb change 0 then JS.abs change else 0)
                     (Technicals.changes closes)).
    assert (Hg : List.Forall (fun x => 0 <= x) gains).
    { apply List.Forall_forall. intros x Hx. apply in_map_iff in Hx as (c & <- & _).
      destruct (JS.ltb 0 c) eqn:E; [ apply JSFacts.ltb_lt in E; lra | lra ]. }
    assert (Hl : List.Forall (fun x => 0 <= x) losses).
    { apply List.Forall_forall. intros x Hx. apply in_map_iff in Hx as (c & <- & _).
      destruct (JS.ltb c 0); [ apply Qabs_nonneg | lra ]. }
    set (avgGain := Technicals.wilder period
                      (Technicals.sum (firstn period gains) / Technicals.ofNat period)
                      (skipn period gains)).
    set (avgLoss := Technicals.wilder period
                      (Technicals.sum (firstn period losses) / Technicals.ofNat period)
                      (skipn period losses)).
    assert (HG : 0 <= avgGain).
    { apply wilder_nonneg; [ exact Hp | | now apply Forall_drop ].
      apply average_nonneg; [ exact Hp | now apply Forall_take ]. }
    assert (HL : 0 <= avgLoss).
    { apply wilder_nonneg; [ exact Hp | | now apply Forall_drop ].
      apply average_nonneg; [ exact Hp | now apply Forall_take ]. }
    destruct (JS.eqb avgLoss 0) eqn:E0.
    + exists 100. split; [ reflexivity | split; lra ].
    + apply JSFacts.eqb_neq in E0. eexists. split; [ reflexivity | ].
      assert (HLpos : 0 < avgLoss).
      { destruct (Qlt_le_dec 0 avgLoss) as [ | Hle]; [ assumption | ].
        exfalso. apply E0. lra. }
      assert (Hrs : 0 <= avgGain / avgLoss)
        by (apply Qle_shift_div_l; lra).
      set (rs := avgGain / avgLoss) in *.
      assert (Hq : 0 <= 100 / (1 + rs) <= 100).
      { split.
        - apply Qle_shift_div_l; lra.
        - apply Qle_shift_div_r; lra. }
      lra.
Qed.

(** X16.  For a positive period the ATR is undefined up to [period]
    candles, and from [period + 1] candles on it is defined and not
    negative. *)
Theorem calculateATR_not_negative (candles : list Candle) (period : nat) :
  (0 < period)%nat ->
  ((length candles <= period)%nat -> Technicals.calculateATR candles period = None)
  /\ ((period < length candles)%nat ->
      exists v, Technicals.calculateATR candles period = Some v /\ 0 <= v).
Proof.
  intros Hp. unfold Technicals.calculateATR. cbv zeta. split.
  - intros Hlen.
    destruct (Nat.ltb_spec (length candles) (period + 1)); [ reflexivity | lia ].
  - intros Hlen.
    destruct (Nat.ltb_spec (length candles) (period + 1)); [ lia | ].
    rewrite trueRanges_length.
    destruct (Nat.ltb_spec (length candles - 1) period); [ lia | ].
    eexists. split; [ reflexivity | ].
    assert (Ht : List.Forall (fun x => 0 <= x) (Technicals.trueRanges candles)).
    { clear. induction candles as [ | a [ | b rest] IH];
        [ constructor | constructor | ].
      cbn [Technicals.trueRanges]. constructor; [ | exact IH ].
      eapply Qle_trans; [ | apply JSFacts.max_lower_r ]. apply Qabs_nonneg. }
    apply wilder_nonneg; [ exact Hp | | now apply Forall_drop ].
    apply average_nonneg; [ exact Hp | now apply Forall_take ].
Qed.

End Indicators.

(** ** The opening range (orb.ts) *)

Section OpeningRange.

Local Open Scope Q_scope.

Lemma scan_fold (candles : list Candle) (h l : Q) :
  exists h' l',
    fold_left
      (fun '(rangeHigh, rangeLow) c =>
         (match rangeHigh with
          | None => Some (high c)
          | Some h => if JS.ltb h (high c) then Some (high c) else Some h
          end,
          match rangeLow with
          | None => Some (low c)
          | Some l => if JS.ltb (low c) l then Some (low c) else Some l
          end))
      candles (Some h, Some l) = (Some h', Some l')
    /\ h <= h' /\ l' <= l
    /\ (forall c, List.In c candles -> high c <= h' /\ l' <= low c)
    /\ (h' = h \/ exists c, List.In c candles /\ high c = h')
    /\ (l' = l \/ exists c, List.In c candles /\ low c = l').
Proof.
  revert h l. induction candles as [ | c candles IH]; intros h l.
  - exists h, l. simpl.
    split; [ reflexivity | ]. split; [ lra | ]. split; [ lra | ].
    split; [ intros c [] | ]. split; now left.
  - cbn [fold_left].
    set (h1 := if JS.ltb h (high c) then high c else h).
    set (l1 := if JS.ltb (low c) l then low c else l).
    assert (Hh1 : h <= h1 /\ high c <= h1 /\ (h1 = h \/ h1 = high c)).
    { subst h1. destruct (JS.ltb h (high c)) eqn:E.
      - apply JSFacts.ltb_lt in E. repeat split; try lra. now right.
      - apply JSFacts.ltb_ge in E. repeat split; try lra. now left. }
    assert (Hl1 : l1 <= l /\ l1 <= low c /\ (l1 = l \/ l1 = low c)).
    { subst l1. destruct (JS.ltb (low c) l) eqn:E.
      - apply JSFacts.ltb_lt in E. repeat split; try lra. now right.
      - apply JSFacts.ltb_ge in E. repeat split; try lra. now left. }
    destruct (IH h1 l1) as (h' & l' & E & Hh & Hl & Hall & Hhin & Hlin).
    exists h', l'.
    split.
    { rewrite <- E. f_equal. subst h1 l1.
      destruct (JS.ltb h (high c)), (JS.ltb (low c) l); reflexivity. }
    destruct Hh1 as (A1 & A2 & A3). destruct Hl1 as (B1 & B2 & B3).
    split; [ lra | ]. split; [ lra | ].
    split.
    { intros x [<- | Hx]; [ split; lra | now apply Hall ]. }
    split.
    + destruct Hhin as [-> | (x & Hx & Ex)].
      * destruct A3 as [-> | ->]; [ now left | right; exists c; split; [ now left | reflexivity ] ].
      * right. exists x. split; [ now right | exact Ex ].
    + destruct Hlin as [-> | (x & Hx & Ex)].
      * destruct B3 as [-> | ->]; [ now left | right; exists c; split; [ now left | reflexivity ] ].
      * right. exists x. split; [ now right | exact Ex ].
Qed.

(** X17.  From a non-empty list of candles [calculateORB] gives levels
    whose high and low are the highest high and the lowest low of the
    candles, each attained by a candle; the range is their difference, the
    mid point their mean, and the first targets lie one range beyond the
    extremes.  The range is not negative when the candles have their low
    at or below their high. *)
Theorem calculateORB_extremes (candles : list Candle) :
  candles <> [] ->
  exists levels,
    ORB.calculateORB candles = Some levels
    /\ (forall c, List.In c candles ->
          high c <= orb_high levels /\ orb_low levels <= low c)
    /\ (exists c, List.In c candles /\ high c = orb_high levels)
    /\ (exists c, List.In c candles /\ low c = orb_low levels)
    /\ rangeSize levels == orb_high levels - orb_low levels
    /\ orb_mid levels * 2 == orb_high levels + orb_low levels
    /\ targetBull1 levels - orb_high levels == rangeSize levels
    /\ orb_low levels - targetBear1 levels == rangeSize levels
    /\ ((forall c, List.In c candles -> low c <= high c) ->
        0 <= rangeSize levels).
Proof.
  intros Hne. destruct candles as [ | c0 candles]; [ congruence | ].
  unfold ORB.calculateORB, ORB.scan. cbn [fold_left].
  destruct (scan_fold candles (high c0) (low c0))
    as (h' & l' & E & Hh & Hl & Hall & Hhin & Hlin).
  rewrite E. eexists. split; [ reflexivity | ]. simpl.
  split.
  { intros x [<- | Hx]; [ split; lra | now apply Hall ]. }
  split.
  { destruct Hhin as [-> | (x & Hx & Ex)].
    - exists c0. split; [ now left | reflexivity ].
    - exists x. split; [ now right | exact Ex ]. }
  split.
  { destruct Hlin as [-> | (x & Hx & Ex)].
    - exists c0. split; [ now left | reflexivity ].
    - exists x. split; [ now right | exact Ex ]. }
  split; [ reflexivity | ].
  split; [ field | ].
  split; [ ring | ].
  split; [ ring | ].
  intros Hwf. pose proof (Hwf c0 (or_introl eq_refl)). lra.
Qed.

(** X18.  When [checkORBEntry] signals an entry, its entry, stop, target
    and risk/reward are those of [RiskCalculator.fromORB] for the matching
    direction and the price has left the range by more than the buffer of
    0.05 on the side of the momentum; on levels whose low is not above
    their high the ORB engine of parallax.ts reads the same direction. *)
Theorem checkORBEntry_agrees_with_fromORB (currentPrice : Q)
    (levels : ORBLevels) (momentum : Momentum.t) (e : ORB.ORBEntry) :
  ORB.checkORBEntry currentPrice levels momentum = Some e ->
  let direction := entryDirection (ORB.signal e) in
  let plan := RiskCalculator.fromORB levels direction in
  ORB.e_entry e = tp_entry plan /\ ORB.e_stop e = tp_stop plan
  /\ ORB.e_target e = tp_target plan /\ ORB.e_riskReward e = tp_riskReward plan
  /\ (orb_low levels <= orb_high levels ->
      fst (Parallax.orbSignal levels currentPrice) = Some direction)
  /\ match ORB.signal e with
     | ORB.ENTRY_LONG =>
         momentum = Momentum.BULLISH
         /\ orb_high levels + (5 # 100) < currentPrice
     | ORB.ENTRY_SHORT =>
         momentum = Momentum.BEARISH
         /\ currentPrice < orb_low levels - (5 # 100)
     end.
Proof.
  unfold ORB.checkORBEntry. cbv zeta.
  destruct (_ && JS.ltb (orb_high levels + (5 # 100)) currentPrice) eqn:Elong.
  - intros [= <-]. simpl.
    apply andb_prop in Elong as [Em Ep]. apply JSFacts.ltb_lt in Ep.
    split; [ reflexivity | ]. split; [ reflexivity | ].
    split; [ reflexivity | ]. split; [ reflexivity | ].
    split.
    + intros _. unfold Parallax.orbSignal.
      assert (Eh : JS.ltb (orb_high levels) currentPrice = true)
        by (apply JSFacts.ltb_lt; lra).
      now rewrite Eh.
    + split; [ | exact Ep ].
      destruct momentum; (reflexivity || discriminate).
  - destruct (_ && JS.ltb currentPrice (orb_low levels - (5 # 100))) eqn:Eshort;
      [ | discriminate ].
    intros [= <-]. simpl.
    apply andb_prop in Eshort as [Em Ep]. apply JSFacts.ltb_lt in Ep.
    split; [ reflexivity | ]. split; [ reflexivity | ].
    split; [ reflexivity | ]. split; [ reflexivity | ].
    split.
    + intros Hwf. unfold Parallax.orbSignal.
      assert (Eh : JS.ltb (orb_high levels) currentPrice = false)
        by (apply JSFacts.ltb_ge; lra).
      assert (El : JS.ltb currentPrice (orb_low levels) = true)
        by (apply JSFacts.ltb_lt; lra).
      now rewrite Eh, El.
    + split; [ | exact Ep ].
      destruct momentum; (reflexivity || discriminate).
Qed.

End OpeningRange.

(** ** The volume profile (tpo.ts) *)

Section VolumeProfile.

Local Open Scope Q_scope.

(** X19.  The TPO signal fades the extremes: SHORT above the value-area
    high, LONG below the value-area low, and NEUTRAL only inside the value
    area; the TPO+MIT engine follows it whatever the RSI says, PUT on
    SHORT and CALL on LONG. *)
Theorem getTPOSignal_fades_extremes (currentPrice : Q) (profile : TPOProfile) :
  let tpoSignal := TPO.getTPOSignal currentPrice profile in
  (vah profile < currentPrice -> tpoSignal = Bias.SHORT)
  /\ (currentPrice <= vah profile -> currentPrice < val profile ->
      tpoSignal = Bias.LONG)
  /\ (tpoSignal = Bias.NEUTRAL ->
      TPO.isPriceInValueArea currentPrice profile = true)
  /\ forall rsiSignal,
       (tpoSignal = Bias.SHORT ->
        Parallax.tpomitDirection tpoSignal rsiSignal = Some PUT)
       /\ (tpoSignal = Bias.LONG ->
           Parallax.tpomitDirection tpoSignal rsiSignal = Some CALL).
Proof.
  cbv zeta. unfold TPO.getTPOSignal, TPO.isPriceInValueArea.
  split; [ | split; [ | split ] ].
  - intros Hp. apply JSFacts.ltb_lt in Hp. now rewrite Hp.
  - intros Hle Hlt. apply JSFacts.ltb_ge in Hle. apply JSFacts.ltb_lt in Hlt.
    now rewrite Hle, Hlt.
  - destruct (JS.ltb (vah profile) currentPrice) eqn:E1; [ discriminate | ].
    destruct (JS.ltb currentPrice (val profile)) eqn:E2; [ discriminate | ].
    intros _. apply JSFacts.ltb_ge in E1. apply JSFacts.ltb_ge in E2.
    apply andb_true_intro. split; now apply JSFacts.leb_le.
  - intros rsiSignal. split; intros ->; destruct rsiSignal; reflexivity.
Qed.

Lemma addVolume_keys (price v : Q) (l : list (Q * Q)) (q : Q) :
  List.In q (map fst (TPO.addVolume price v l)) ->
  q = price \/ List.In q (map fst l).
Proof.
  induction l as [ | [p w] rest IH]; simpl.
  - intros [<- | []]. now left.
  - destruct (price ?= p); simpl.
    + intros [<- | Hq]; auto.
    + intros [<- | [<- | Hq]]; auto.
    + intros [<- | Hq]; [ auto | ].
      destruct (IH Hq) as [-> | Hin]; auto.
Qed.

Lemma addVolume_ascending (price v : Q) (l : list (Q * Q)) :
  ascending l -> ascending (TPO.addVolume price v l).
Proof.
  induction l as [ | [p w] rest IH]; simpl.
  - intros _. split; [ intros q [] | exact I ].
  - intros [Hp Hrest].
    destruct (price ?= p) eqn:E; simpl.
    + split; assumption.
    + apply Qlt_alt in E.
      split; [ | split; assumption ].
      intros q [<- | Hq]; [ exact E | ].
      eapply Qlt_trans; [ exact E | now apply Hp ].
    + apply Qgt_alt in E.
      split; [ | now apply IH ].
      intros q Hq. apply addVolume_keys in Hq as [-> | Hq];
        [ exact E | now apply Hp ].
Qed.

Lemma addVolume_nonempty (price v : Q) (l : list (Q * Q)) :
  TPO.addVolume price v l <> [].
Proof.
  destruct l as [ | [p w] rest]; simpl; [ discriminate | ].
  destruct (price ?= p); discriminate.
Qed.

Lemma spread_ascending (fuel : nat) (price high' tick v : Q)
    (acc : list (Q * Q) * Q) :
  ascending (fst acc) ->
  ascending (fst (TPO.spread fuel price high' tick v acc)).
Proof.
  revert price acc. induction fuel as [ | fuel IH]; intros price acc Hacc;
    simpl; [ exact Hacc | ].
  destruct (JS.leb price high'); [ | exact Hacc ].
  apply IH. simpl. now apply addVolume_ascending.
Qed.

Lemma spread_nonempty (fuel : nat) (price high' tick v : Q)
    (acc : list (Q * Q) * Q) :
  fst acc <> [] -> fst (TPO.spread fuel price high' tick v acc) <> [].
Proof.
  revert price acc. induction fuel as [ | fuel IH]; intros price acc Hacc;
    simpl; [ exact Hacc | ].
  destruct (JS.leb price high'); [ | exact Hacc ].
  apply IH. simpl. apply addVolume_nonempty.
Qed.

Lemma roundToTick_mono (x y tick : Q) :
  0 < tick -> x <= y -> TPO.roundToTick x tick <= TPO.roundToTick y tick.
Proof.
  intros Ht Hxy. unfold TPO.roundToTick, JS.round.
  apply Qmult_le_compat_r; [ | lra ].
  rewrite <- Zle_Qle. apply Qfloor_resp_le.
  assert (x / tick <= y / tick).
  { unfold Qdiv. apply Qmult_le_compat_r; [ exact Hxy | ].
    apply Qlt_le_weak. now apply Qinv_lt_0_compat. }
  lra.
Qed.

Lemma addCandle_shape (tick : Q) (a : TPO.Accum) (candle : Candle) :
  let a' := TPO.addCandle tick a candle in
  (ascending (TPO.volumeByPrice a) -> ascending (TPO.volumeByPrice a'))
  /\ (TPO.volumeByPrice a <> [] -> TPO.volumeByPrice a' <> [])
  /\ (0 < tick -> low candle <= high candle -> TPO.volumeByPrice a' <> [])
  /\ (exists h l, TPO.sessionHigh a' = Some h /\ TPO.sessionLow a' = Some l).
Proof.
  cbv zeta. unfold TPO.addCandle. cbv zeta.
  set (low' := TPO.roundToTick (low candle) tick).
  set (high' := TPO.roundToTick (high candle) tick).
  set (numTicks := Z.max 1 (JS.round ((high' - low') / tick) + 1)).
  set (v := volume candle / inject_Z numTicks).
  destruct (TPO.spread (Z.to_nat numTicks) low' high' tick v
              (TPO.volumeByPrice a, TPO.totalVol a)) as [vbp tot] eqn:Es.
  simpl.
  assert (Evbp : vbp = fst (TPO.spread (Z.to_nat numTicks) low' high' tick v
                              (TPO.volumeByPrice a, TPO.totalVol a)))
    by now rewrite Es.
  split; [ | split; [ | split ] ].
  - intros Hasc. rewrite Evbp. now apply spread_ascending.
  - intros Hne. rewrite Evbp. now apply spread_nonempty.
  - intros Ht Hwf. rewrite Evbp.
    destruct (Z.to_nat numTicks) as [ | fuel] eqn:Ef; [ subst numTicks; lia | ].
    simpl.
    assert (Hle : JS.leb low' high' = true).
    { apply JSFacts.leb_le. subst low' high'. now apply roundToTick_mono. }
    rewrite Hle. apply spread_nonempty. simpl. apply addVolume_nonempty.
  - unfold TPO.maxInf, TPO.minInf.
    destruct (TPO.sessionHigh a), (TPO.sessionLow a); eauto.
Qed.

Lemma fold_addCandle_shape (tick : Q) (candles : list Candle) (a : TPO.Accum) :
  let a' := fold_left (TPO.addCandle tick) candles a in
  (ascending (TPO.volumeByPrice a) -> ascending (TPO.volumeByPrice a'))
  /\ (TPO.volumeByPrice a <> [] -> TPO.volumeByPrice a' <> [])
  /\ (candles <> [] -> 0 < tick ->
      (forall c, List.In c candles -> low c <= high c) ->
      TPO.volumeByPrice a' <> [])
  /\ (candles <> [] ->
      exists h l, TPO.sessionHigh a' = Some h /\ TPO.sessionLow a' = Some l).
Proof.
  cbv zeta. revert a. induction candles as [ | c candles IH]; intros a.
  - simpl. repeat split; auto; congruence.
  - cbn [fold_left].
    destruct (IH (TPO.addCandle tick a c)) as (I1 & I2 & I3 & I4).
    destruct (addCandle_shape tick a c) as (A1 & A2 & A3 & A4).
    split; [ auto | ]. split; [ auto | ].
    split.
    + intros _ Ht Hwf. apply I2. apply A3; [ exact Ht | ].
      apply Hwf. now left.
    + intros _. destruct candles as [ | c' candles']; [ exact A4 | ].
      apply I4. discriminate.
Qed.

Lemma findPoc_in (vbp : list (Q * Q)) (first : Q) :
  TPO.findPoc vbp first = first
  \/ List.In (TPO.findPoc vbp first) (map fst vbp).
Proof.
  unfold TPO.findPoc.
  assert (Hgen : forall acc : Q * Q,
            fst (fold_left
                   (fun '(poc, maxVolume) '(price, v) =>
                      if JS.ltb maxVolume v then (price, v) else (poc, maxVolume))
                   vbp acc) = fst acc
            \/ List.In
                 (fst (fold_left
                         (fun '(poc, maxVolume) '(price, v) =>
                            if JS.ltb maxVolume v then (price, v)
                            else (poc, maxVolume))
                         vbp acc)) (map fst vbp)).
  { induction vbp as [ | [p w] rest IH]; intros [poc maxVolume]; simpl;
      [ now left | ].
    destruct (JS.ltb maxVolume w).
    - destruct (IH (p, w)) as [E | Hin]; [ right; left; now rewrite E | auto ].
    - destruct (IH (poc, maxVolume)) as [E | Hin]; auto. }
  apply (Hgen (first, 0)).
Qed.

Lemma indexOf_found (vbp : list (Q * Q)) (x : Q) :
  List.In x (map fst vbp) ->
  exists p w, nth_error vbp (TPO.indexOf vbp x) = Some (p, w) /\ p == x.
Proof.
  induction vbp as [ | [p w] rest IH]; simpl; [ intros [] | ].
  intros Hin. destruct (JS.eqb p x) eqn:E.
  - apply JSFacts.eqb_eq in E. exists p, w. split; [ reflexivity | exact E ].
  - apply JSFacts.eqb_neq in E. destruct Hin as [-> | Hin];
      [ exfalso; apply E; reflexivity | ].
    simpl. now apply IH.
Qed.

Lemma expand_bounds (fuel : nat) (vbp : list (Q * Q)) (target : Q)
    (lowIndex highIndex : nat) (currentVolume : Q) :
  (lowIndex <= highIndex < length vbp)%nat ->
  let r := TPO.expand fuel vbp target lowIndex highIndex currentVolume in
  (fst r <= lowIndex /\ highIndex <= snd r /\ snd r < length vbp)%nat.
Proof.
  cbv zeta. revert lowIndex highIndex currentVolume.
  induction fuel as [ | fuel IH]; intros lo hi cv Hb; simpl; [ lia | ].
  destruct (JS.ltb cv target && ((0 <? lo)%nat || (S hi <? length vbp)%nat));
    [ | simpl; lia ].
  destruct (Nat.ltb_spec 0 lo) as [Hlo | Hlo];
    destruct (Nat.ltb_spec (S hi) (length vbp)) as [Hhi | Hhi]; simpl;
    repeat match goal with
           | |- context [if ?b then _ else _] => destruct b
           end;
    simpl; try lia;
    match goal with
    | |- context [TPO.expand fuel vbp target ?l ?h ?c] =>
        specialize (IH l h c); lia
    end.
Qed.

Lemma ascending_nth (l : list (Q * Q)) (i j : nat) (p q wi wj : Q) :
  ascending l -> (i <= j)%nat ->
  nth_error l i = Some (p, wi) -> nth_error l j = Some (q, wj) -> p <= q.
Proof.
  revert i j. induction l as [ | [k w] rest IH]; intros i j Hasc Hij Hi Hj.
  - destruct i; discriminate.
  - destruct Hasc as [Hk Hrest].
    destruct i as [ | i], j as [ | j]; simpl in Hi, Hj.
    + injection Hi as <- <-. injection Hj as <- <-. lra.
    + injection Hi as <- <-. apply Qlt_le_weak. apply Hk.
      apply nth_error_In in Hj. apply in_map_iff. exists (q, wj). auto.
    + lia.
    + apply (IH i j); auto. lia.
Qed.

(** X20.  With a positive tick size every profile [buildTPOProfile] gives
    has its value-area low at or below the point of control and the point
    of control at or below the value-area high; and a profile is given for
    every non-empty list of candles whose lows are not above their
    highs. *)
Theorem buildTPOProfile_value_area (candles : list Candle) (config : TPOConfig) :
  0 < tickSize config ->
  (forall profile,
      TPO.buildTPOProfile candles config = Some profile ->
      val profile <= poc profile <= vah profile)
  /\ (candles <> [] ->
      (forall c, List.In c candles -> low c <= high c) ->
      exists profile, TPO.buildTPOProfile candles config = Some profile).
Proof.
  intros Ht. unfold TPO.buildTPOProfile.
  destruct candles as [ | first candles];
    [ split; [ discriminate | congruence ] | ].
  cbv zeta.
  set (a := fold_left (TPO.addCandle (tickSize config)) (first :: candles)
              {| TPO.volumeByPrice := []; TPO.totalVol := 0;
                 TPO.sessionHigh := None; TPO.sessionLow := None |}).
  destruct (fold_addCandle_shape (tickSize config) (first :: candles)
              {| TPO.volumeByPrice := []; TPO.totalVol := 0;
                 TPO.sessionHigh := None; TPO.sessionLow := None |})
    as (Hasc & _ & Hne & Hsession).
  fold a in Hasc, Hne, Hsession. simpl in Hasc. specialize (Hasc I).
  split.
  - intros profile.
    destruct (TPO.volumeByPrice a) as [ | [p0 w0] rest] eqn:Ev; [ discriminate | ].
    destruct (TPO.sessionHigh a) as [sh | ]; [ | discriminate ].
    destruct (TPO.sessionLow a) as [sl | ]; [ | discriminate ].
    set (vbp := (p0, w0) :: rest) in *.
    set (pocKey := TPO.findPoc vbp p0).
    assert (Hin : List.In pocKey (map fst vbp)).
    { destruct (findPoc_in vbp p0) as [E | Hin]; [ | exact Hin ].
      subst pocKey. rewrite E. now left. }
    destruct (indexOf_found vbp pocKey Hin) as (pk & wk & Hnth & Hpk).
    set (pocIndex := TPO.indexOf vbp pocKey) in *.
    assert (Hidx : (pocIndex < length vbp)%nat)
      by (apply nth_error_Some; congruence).
    assert (Hb0 : (pocIndex <= pocIndex < length vbp)%nat)
      by (split; [ apply Nat.le_refl | exact Hidx ]).
    pose proof (expand_bounds (length vbp) vbp
                  (TPO.totalVol a * valueAreaPercent config) pocIndex pocIndex
                  (TPO.volAt vbp pocIndex) Hb0) as Hb.
    cbv zeta in Hb.
    destruct (TPO.expand (length vbp) vbp _ pocIndex pocIndex _)
      as [lowIndex highIndex].
    cbn [fst snd] in Hb. destruct Hb as (Hlo & Hhi & Hlen).
    intros [= <-]. simpl.
    destruct (nth_error vbp lowIndex) as [[pl wl] | ] eqn:El;
      [ | apply nth_error_None in El; lia ].
    destruct (nth_error vbp highIndex) as [[ph wh] | ] eqn:Eh;
      [ | apply nth_error_None in Eh; lia ].
    unfold TPO.keyAt. rewrite El, Eh.
    pose proof (ascending_nth vbp lowIndex pocIndex pl pk wl wk Hasc Hlo El Hnth).
    pose proof (ascending_nth vbp pocIndex highIndex pk ph wk wh Hasc Hhi Hnth Eh).
    split; apply roundToTick_mono; try exact Ht; lra.
  - intros _ Hwf. specialize (Hne ltac:(discriminate) Ht Hwf).
    destruct (Hsession ltac:(discriminate)) as (sh & sl & -> & ->).
    destruct (TPO.volumeByPrice a) as [ | [p0 w0] rest] eqn:Ev; [ congruence | ].
    destruct (TPO.expand _ _ _ _ _ _). eexists. reflexivity.
Qed.

End VolumeProfile.

(** ** Premium trade plans and position size (risk.ts) *)

Section PremiumPlans.

Local Open Scope Q_scope.

(** X21.  For a positive premium and a positive stop-loss fraction the
    premium plan has a risk/reward of (targetMultiple - 1) / stopLossPct;
    with the defaults the stop is half the premium, the target twice the
    premium, the risk/reward 2 and the plan acceptable;
    [fromContract] is the plan of the mid price. *)
Theorem fromOptionPremium_risk_reward (premium stopLossPct targetMultiple : Q) :
  0 < premium -> 0 < stopLossPct ->
  let plan := RiskCalculator.fromOptionPremium premium stopLossPct targetMultiple in
  let default :=
    RiskCalculator.fromOptionPremium premium RiskCalculator.DEFAULT_STOP_LOSS_PCT
      RiskCalculator.DEFAULT_TARGET_MULT in
  tp_riskReward plan == (targetMultiple - 1) / stopLossPct
  /\ tp_stop plan < tp_entry plan
  /\ tp_stop default == premium / 2 /\ tp_target default == premium * 2
  /\ tp_riskReward default == 2
  /\ RiskCalculator.isAcceptable default 1 = true
  /\ forall bid ask,
       RiskCalculator.fromContract bid ask stopLossPct targetMultiple
       = RiskCalculator.fromOptionPremium
           (OptionsRiskCalculator.getMidPrice bid ask) stopLossPct targetMultiple.
Proof.
  intros Hp Hs. cbv zeta.
  assert (Hrr : forall s m, 0 < s ->
            tp_riskReward (RiskCalculator.fromOptionPremium premium s m)
            == (m - 1) / s).
  { intros s m Hs'. unfold RiskCalculator.fromOptionPremium. cbv zeta.
    cbn [tp_riskReward].
    assert (Hrisk : 0 < premium - premium * (1 - s)).
    { assert (0 < premium * s) by (apply Qmult_lt_0_compat; assumption). lra. }
    apply JSFacts.ltb_lt in Hrisk as Hb. rewrite Hb. field. split; lra. }
  split; [ now apply Hrr | ].
  split.
  { unfold RiskCalculator.fromOptionPremium. cbn [tp_stop tp_entry].
    assert (0 < premium * stopLossPct) by (apply Qmult_lt_0_compat; assumption).
    lra. }
  assert (Hd : tp_riskReward
                 (RiskCalculator.fromOptionPremium premium
                    RiskCalculator.DEFAULT_STOP_LOSS_PCT
                    RiskCalculator.DEFAULT_TARGET_MULT) == 2).
  { rewrite Hrr; [ | reflexivity ]. reflexivity. }
  split.
  { unfold RiskCalculator.fromOptionPremium, RiskCalculator.DEFAULT_STOP_LOSS_PCT.
    cbn [tp_stop]. field. }
  split.
  { unfold RiskCalculator.fromOptionPremium, RiskCalculator.DEFAULT_TARGET_MULT.
    cbn [tp_target]. reflexivity. }
  split; [ exact Hd | ].
  split.
  - unfold RiskCalculator.isAcceptable. apply JSFacts.leb_le. rewrite Hd. lra.
  - intros bid ask. reflexivity.
Qed.

(** X22.  The position size is the largest whole number of contracts, at
    100 times the premium each, that the risk budget (the balance times
    the risk percentage) pays for; it is 0 when the premium is not
    positive. *)
Theorem calculateContracts_within_budget (accountBalance riskPercent premium : Q) :
  let n := RiskCalculator.calculateContracts accountBalance riskPercent premium in
  let budget := accountBalance * (riskPercent / 100) in
  (0 < premium ->
   inject_Z n * (premium * 100) <= budget
   /\ budget < (inject_Z n + 1) * (premium * 100)
   /\ (0 <= budget -> (0 <= n)%Z))
  /\ (premium <= 0 -> n = 0%Z).
Proof.
  cbv zeta. unfold RiskCalculator.calculateContracts. cbv zeta. split.
  - intros Hp.
    assert (Hc : 0 < premium * 100) by lra.
    apply JSFacts.ltb_lt in Hc as Hb. rewrite Hb. unfold JS.floor.
    set (cost := premium * 100) in *.
    set (budget := accountBalance * (riskPercent / 100)).
    pose proof (Qfloor_le (budget / cost)) as Hlo.
    pose proof (Qlt_floor (budget / cost)) as Hhi.
    rewrite inject_Z_plus in Hhi. change (inject_Z 1) with 1 in Hhi.
    split; [ | split ].
    + apply (Qmult_le_compat_r _ _ cost) in Hlo; [ | lra ].
      assert (E : budget / cost * cost == budget) by (field; lra).
      rewrite E in Hlo. exact Hlo.
    + apply (Qmult_lt_compat_r _ _ cost) in Hhi; [ | exact Hc ].
      assert (E : budget / cost * cost == budget) by (field; lra).
      rewrite E in Hhi. exact Hhi.
    + intros Hbudget.
      assert (H0 : 0 <= budget / cost) by (apply Qle_shift_div_l; lra).
      apply Qfloor_resp_le in H0. exact H0.
  - intros Hp.
    assert (Hb : JS.ltb 0 (premium * 100) = false) by (apply JSFacts.ltb_ge; lra).
    now rewrite Hb.
Qed.

End PremiumPlans.

(** ** The grader and the expiry sweeps (reconcile.ts, daemon.ts) *)

Section Sweeps.

Local Open Scope Q_scope.

Lemma expireStep_unfold (today : string) (n : nat) (d : DB) (p : PredictionRow) :
  Reconcile.expireStep today (n, d) p
  = if staleOn today p then (S n, update_status (id p) EXPIRED d) else (n, d).
Proof.
  unfold Reconcile.expireStep, staleOn.
  destruct (generatedAt p) as [g | ]; reflexivity.
Qed.

Lemma expire_fold_active (today : string) (snapshot : list PredictionRow)
    (n : nat) (d : DB) (r : PredictionRow) :
  List.In r (predictions (snd (fold_left (Reconcile.expireStep today) snapshot (n, d)))) ->
  is_active r = true ->
  List.In r (predictions d)
  /\ forall p, List.In p snapshot -> staleOn today p = true -> id p <> id r.
Proof.
  revert n d. induction snapshot as [ | p snapshot IH]; intros n d Hin Hact.
  - split; [ exact Hin | intros p [] ].
  - cbn [fold_left] in Hin. rewrite expireStep_unfold in Hin.
    destruct (staleOn today p) eqn:Es.
    + destruct (IH _ _ Hin Hact) as [Hin1 Hids].
      rewrite update_status_predictions in Hin1.
      apply in_retire in Hin1 as (x & Hx & ->).
      unfold retire in *.
      destruct (Z.eqb_spec (id x) (id p)) as [E | NE].
      * unfold is_active in Hact. simpl in Hact. discriminate.
      * split; [ exact Hx | ].
        intros q [<- | Hq] Hs; [ congruence | now apply Hids ].
    + destruct (IH _ _ Hin Hact) as [Hin1 Hids].
      split; [ exact Hin1 | ].
      intros q [<- | Hq] Hs; [ congruence | now apply Hids ].
Qed.

Lemma expire_fold_quiet (today : string) (snapshot : list PredictionRow)
    (n : nat) (d : DB) :
  (forall p, List.In p snapshot -> staleOn today p = false) ->
  fold_left (Reconcile.expireStep today) snapshot (n, d) = (n, d).
Proof.
  induction snapshot as [ | p snapshot IH]; intros Hall; [ reflexivity | ].
  cbn [fold_left]. rewrite expireStep_unfold, (Hall p (or_introl eq_refl)).
  apply IH. intros q Hq. apply Hall. now right.
Qed.

Lemma expire_fold_count (today : string) (snapshot : list PredictionRow)
    (n : nat) (d : DB) :
  fst (fold_left (Reconcile.expireStep today) snapshot (n, d))
  = (n + length (List.filter (staleOn today) snapshot))%nat.
Proof.
  revert n d. induction snapshot as [ | p snapshot IH]; intros n d;
    [ simpl; lia | ].
  cbn [fold_left List.filter]. rewrite expireStep_unfold.
  destruct (staleOn today p); rewrite IH; simpl; lia.
Qed.

(** X23.  [expireStale] expires exactly the ACTIVE predictions generated
    before today and reports their number; every prediction that is
    still ACTIVE afterwards was ACTIVE before and is not stale, so a second
    run on the same day expires nothing. *)
Theorem expireStale_idempotent (todayDate : string) (d : DB) :
  let r := Reconcile.expireStale todayDate d in
  fst r = length (List.filter (staleOn todayDate) (select_active d))
  /\ (forall x, List.In x (predictions (snd r)) -> status x = Some ACTIVE ->
        List.In x (predictions d) /\ staleOn todayDate x = false)
  /\ Reconcile.expireStale todayDate (snd r) = (O, snd r).
Proof.
  cbv zeta. unfold Reconcile.expireStale at 1 2 3.
  assert (Hkept : forall x,
             List.In x (predictions
                          (snd (fold_left (Reconcile.expireStep todayDate)
                                  (select_active d) (O, d)))) ->
             status x = Some ACTIVE ->
             List.In x (predictions d) /\ staleOn todayDate x = false).
  { intros x Hx Hact.
    assert (Ha : is_active x = true)
      by (unfold is_active; now apply bool_decide_eq_true_2).
    destruct (expire_fold_active _ _ _ _ _ Hx Ha) as [Hin Hids].
    split; [ exact Hin | ].
    destruct (staleOn todayDate x) eqn:Es; [ | reflexivity ].
    exfalso. apply (Hids x); [ | exact Es | reflexivity ].
    unfold select_active. apply filter_In. split; assumption. }
  split; [ apply expire_fold_count | ].
  split; [ exact Hkept | ].
  unfold Reconcile.expireStale. apply expire_fold_quiet.
  intros p Hp. unfold select_active in Hp. apply filter_In in Hp as [Hp Ha].
  apply Hkept; [ exact Hp | ].
  unfold is_active in Ha. now apply bool_decide_eq_true_1 in Ha.
Qed.

(** X24.  The daemon's own expiry sweep makes the same change to the
    database as the grader's [expireStale] called with the date of the
    clock reading, and leaves the weights cache alone. *)
Theorem expireOldPredictions_is_expireStale (now : DateTime) (s : State) :
  db (Daemon.expireOldPredictions now s)
  = snd (Reconcile.expireStale (MarketTime.getTodayET now) (db s))
  /\ genesCache (Daemon.expireOldPredictions now s) = genesCache s.
Proof.
  split; [ | reflexivity ].
  unfold Daemon.expireOldPredictions, Reconcile.expireStale,
    Parallax.getActivePredictions. simpl db.
  generalize (select_active (db s)) as snapshot.
  generalize (db s) as d. generalize O as n.
  intros n d snapshot. revert n d.
  induction snapshot as [ | p snapshot IH]; intros n d; [ reflexivity | ].
  cbn [fold_left]. rewrite expireStep_unfold. unfold staleOn.
  destruct (generatedAt p) as [g | ]; [ | apply IH ].
  destruct (String.ltb (isoDate g) (MarketTime.getTodayET now)); apply IH.
Qed.

Lemma gradeStep_one (stamp : Timestamp) (res : GradeResult) (d : DB)
    (p : PredictionRow) :
  graded res = (wins res + losses res)%nat ->
  let r := Reconcile.gradeStep stamp (res, d) p in
  graded (fst r) = (wins (fst r) + losses (fst r))%nat
  /\ (graded res <= graded (fst r) <= graded res + 1)%nat
  /\ length (outcomes (snd r))
     = (length (outcomes d) + (graded (fst r) - graded res))%nat
  /\ parameters (snd r) = parameters d /\ deltas (snd r) = deltas d.
Proof.
  intros Hres. cbv zeta. unfold Reconcile.gradeStep.
  destruct (Reconcile.gradeOne d p) as [[pnl isWin] | ]; simpl.
  - rewrite length_app. simpl. destruct isWin; repeat split; lia.
  - repeat split; lia.
Qed.

Lemma gradeStep_fold (stamp : Timestamp) (snapshot : list PredictionRow)
    (res : GradeResult) (d : DB) :
  graded res = (wins res + losses res)%nat ->
  let r := fold_left (Reconcile.gradeStep stamp) snapshot (res, d) in
  graded (fst r) = (wins (fst r) + losses (fst r))%nat
  /\ (graded res <= graded (fst r) <= graded res + length snapshot)%nat
  /\ length (outcomes (snd r))
     = (length (outcomes d) + (graded (fst r) - graded res))%nat
  /\ parameters (snd r) = parameters d /\ deltas (snd r) = deltas d.
Proof.
  cbv zeta. revert res d.
  induction snapshot as [ | p snapshot IH]; intros res d Hres.
  - simpl. repeat split; auto; lia.
  - cbn [fold_left].
    destruct (gradeStep_one stamp res d p Hres) as (S1 & S2 & S3 & S4 & S5).
    destruct (Reconcile.gradeStep stamp (res, d) p) as [res1 d1].
    cbn [fst snd] in S1, S2, S3, S4, S5.
    destruct (IH res1 d1 S1) as (I1 & I2 & I3 & I4 & I5).
    split; [ exact I1 | ]. split; [ simpl length; lia | ].
    split; [ lia | ]. split; congruence.
Qed.

(** X25.  The grader's accounting: the graded count is the sum of the wins
    and the losses, it is at most the number of ACTIVE predictions, and the
    outcomes table grows by exactly that many rows; the strategy
    parameters are written only when something was graded and the share
    of wins is below 60 percent. *)
Theorem gradeOpenTrades_accounting (random : nat -> Q) (stamp : Timestamp)
    (d : DB) :
  let r := Reconcile.gradeOpenTrades random stamp d in
  graded (fst r) = (wins (fst r) + losses (fst r))%nat
  /\ (graded (fst r) <= length (select_active d))%nat
  /\ length (outcomes (snd r)) = (length (outcomes d) + graded (fst r))%nat
  /\ (graded (fst r) = O
      \/ 6 # 10 <= Technicals.ofNat (wins (fst r))
                   / Technicals.ofNat (graded (fst r)) ->
      parameters (snd r) = parameters d /\ deltas (snd r) = deltas d).
Proof.
  cbv zeta. unfold Reconcile.gradeOpenTrades. cbv zeta.
  destruct (select_active d) as [ | p0 snapshot] eqn:Es.
  - simpl. repeat split; auto; lia.
  - rewrite <- Es.
    pose proof (gradeStep_fold stamp (select_active d)
                  {| graded := 0; wins := 0; losses := 0 |} d eq_refl) as Hf.
    cbv zeta in Hf.
    destruct (fold_left (Reconcile.gradeStep stamp) (select_active d)
                ({| graded := 0; wins := 0; losses := 0 |}, d)) as [res d1].
    simpl in Hf. destruct Hf as (F1 & F2 & F3 & F4 & F5).
    destruct (Nat.ltb_spec 0 (graded res)) as [Hg | Hg].
    + unfold Evolution.checkAndTriggerEvolution.
      destruct (JS.ltb _ Evolution.TARGET_ACCURACY) eqn:Et.
      * apply JSFacts.ltb_lt in Et.
        destruct (fst (Evolution.evolve random d1 O)) as [newGenes | ]; simpl.
        -- destruct (saveAlphaGenes_tables (epochMs stamp) "SPY" newGenes
                       (Technicals.ofNat (wins res) / Technicals.ofNat (graded res))
                       d1) as (_ & _ & So).
           rewrite So.
           split; [ exact F1 | ]. split; [ lia | ]. split; [ lia | ].
           intros [H0 | Hrate]; [ lia | ].
           unfold Evolution.TARGET_ACCURACY in Et. exfalso.
           assert (E610 : (6 # 10) == (60 # 100)) by reflexivity.
           rewrite E610 in Hrate. lra.
        -- split; [ exact F1 | ]. split; [ lia | ]. split; [ lia | ].
           intros _. split; assumption.
      * simpl. split; [ exact F1 | ]. split; [ lia | ]. split; [ lia | ].
        intros _. split; assumption.
    + simpl. split; [ exact F1 | ]. split; [ lia | ]. split; [ lia | ].
      intros _. split; assumption.
Qed.

(** X26.  A verdict of the grader: a prediction is graded only with a
    positive entry premium and a candle of its ticker; the loss is then
    less than the premium paid, a win is a premium at or above the target
    or a positive P&L above the stop, and a prediction stored without a
    target is always graded a win. *)
Theorem gradeOne_verdict (d : DB) (pred : PredictionRow) (pnl : Q) (won : bool) :
  Reconcile.gradeOne d pred = Some (pnl, won) ->
  let entryPremium := JS.orElse (entryTrigger pred) 0 in
  let currentPremium := entryPremium + pnl in
  0 < entryPremium
  /\ (exists candle, Reconcile.lastCandle d (ticker pred) = Some candle)
  /\ - entryPremium < pnl
  /\ (won = true <->
      JS.orElse (takeProfit pred) 0 <= currentPremium
      \/ (JS.orElse (stopLoss pred) 0 < currentPremium /\ 0 < pnl))
  /\ (takeProfit pred = None -> won = true).
Proof.
  unfold Reconcile.gradeOne. cbv zeta.
  destruct (JS.leb (JS.orElse (entryTrigger pred) 0) 0) eqn:Ee; [ discriminate | ].
  apply JSFacts.leb_gt in Ee.
  destruct (Reconcile.lastCandle d (ticker pred)) as [candle | ]; [ | discriminate ].
  set (entryPremium := JS.orElse (entryTrigger pred) 0) in *.
  set (cur := Reconcile.currentPremium pred entryPremium (close candle)).
  assert (Hcur : 1 # 100 <= cur).
  { subst cur. unfold Reconcile.currentPremium. apply JSFacts.max_lower_l. }
  intros [= <- <-].
  assert (Ecur : entryPremium + (cur - entryPremium) == cur) by ring.
  split; [ exact Ee | ]. split; [ now exists candle | ]. split; [ lra | ].
  assert (Hiff :
    (if JS.leb (JS.orElse (takeProfit pred) 0) cur then true
     else if JS.leb cur (JS.orElse (stopLoss pred) 0) then false
          else JS.ltb 0 (cur - entryPremium)) = true
    <-> JS.orElse (takeProfit pred) 0 <= cur
        \/ (JS.orElse (stopLoss pred) 0 < cur /\ 0 < cur - entryPremium)).
  { destruct (JS.leb (JS.orElse (takeProfit pred) 0) cur) eqn:Et.
    - apply JSFacts.leb_le in Et. split; auto.
    - apply JSFacts.leb_gt in Et.
      destruct (JS.leb cur (JS.orElse (stopLoss pred) 0)) eqn:Es.
      + apply JSFacts.leb_le in Es. split; [ discriminate | ].
        intros [? | [? _]]; lra.
      + apply JSFacts.leb_gt in Es. rewrite JSFacts.ltb_lt.
        split; [ intros; right; split; assumption | ].
        intros [? | [_ ?]]; [ lra | assumption ]. }
  split.
  - rewrite Hiff. rewrite Ecur. reflexivity.
  - intros Hnone. rewrite Hnone. simpl JS.orElse.
    assert (Ht : JS.leb 0 cur = true) by (apply JSFacts.leb_le; lra).
    now rewrite Ht.
Qed.

End Sweeps.

(** ** The historical replay (backtest.ts) *)

Section Replay.

Local Open Scope Q_scope.

Variable tk : string.
Variables startDate endDate : Z.
Variable d : DB.

(** X27.  A replay writes one row of results and nothing else: the
    predictions, outcomes, candles and parameters are as before; with fewer
    than 60 candles in the range it reports zeros and writes nothing at
    all. *)
Theorem runHistoricalBacktest_writes_one_row (genes : StrategyGenes) :
  let r := Backtest.runHistoricalBacktest tk startDate endDate genes d in
  let n := length (Backtest.loadCandles d tk startDate endDate) in
  predictions (snd r) = predictions d /\ outcomes (snd r) = outcomes d
  /\ candles (snd r) = candles d /\ parameters (snd r) = parameters d
  /\ ((n < 60)%nat ->
      snd r = d
      /\ fst r = {| totalTrades := 0; bt_wins := 0; bt_losses := 0;
                    bt_winRate := 0; profitFactor := 0; maxDrawdown := 0 |})
  /\ ((60 <= n)%nat ->
      backtests (snd r)
      = backtests d ++ [{| b_ticker := tk; b_totalTrades := totalTrades (fst r);
                           b_winRate := bt_winRate (fst r);
                           b_profitFactor := profitFactor (fst r);
                           b_maxDrawdown := maxDrawdown (fst r) |}]).
Proof.
  cbv zeta. unfold Backtest.runHistoricalBacktest. cbv zeta.
  destruct (Nat.ltb_spec (length (Backtest.loadCandles d tk startDate endDate)) 60).
  - simpl. repeat split; auto; lia.
  - simpl. repeat split; auto; lia.
Qed.

Lemma drawdown_fold_nonneg (trades : list SimulatedTrade) (acc : Q * Q * Q) :
  0 <= fst (fst acc) ->
  0 <= fst (fst (fold_left
                   (fun '(maxDrawdown, peak, cumulative) trade =>
                      let cumulative := cumulative + st_pnl trade in
                      let peak :=
                        if JS.ltb peak cumulative then cumulative else peak in
                      let drawdown := peak - cumulative in
                      ((if JS.ltb maxDrawdown drawdown then drawdown
                        else maxDrawdown), peak, cumulative))
                   trades acc)).
Proof.
  revert acc. induction trades as [ | t trades IH];
    intros [[maxDrawdown peak] cumulative] Hacc; [ exact Hacc | ].
  cbn [fold_left]. apply IH. cbv zeta. cbn [fst].
  destruct (JS.ltb maxDrawdown _) eqn:E; [ | exact Hacc ].
  apply JSFacts.ltb_lt in E. simpl in Hacc. lra.
Qed.

Lemma filter_length_le {A} (q : A -> bool) (l : list A) :
  (length (List.filter q l) <= length l)%nat.
Proof.
  induction l as [ | x l IH]; simpl; [ lia | ].
  destruct (q x); simpl; lia.
Qed.

(** X28.  The figures of a replay are consistent: the wins and the losses
    add up to the trades, the win rate lies between 0 and 1, and neither
    the profit factor nor the maximal drawdown is negative. *)
Theorem runHistoricalBacktest_figures (genes : StrategyGenes) :
  let result := fst (Backtest.runHistoricalBacktest tk startDate endDate genes d) in
  (bt_wins result + bt_losses result = totalTrades result)%nat
  /\ 0 <= bt_winRate result <= 1
  /\ 0 <= profitFactor result
  /\ 0 <= maxDrawdown result.
Proof.
  cbv zeta. unfold Backtest.runHistoricalBacktest. cbv zeta.
  destruct (length (Backtest.loadCandles d tk startDate endDate) <? 60)%nat.
  - simpl. repeat split; (lia || lra).
  - cbn [fst totalTrades bt_wins bt_losses bt_winRate profitFactor maxDrawdown].
    set (trades := Backtest.replayLoop _ genes _ 30).
    pose proof (filter_length_le isWin trades) as Hw.
    split; [ lia | ].
    split; [ | split ].
    + destruct (Nat.ltb_spec 0 (length trades)) as [Hpos | Hz]; [ | split; lra ].
      unfold Technicals.ofNat.
      assert (Hlen : 0 < inject_Z (Z.of_nat (length trades))).
      { change 0 with (inject_Z 0). rewrite <- Zlt_Qlt. lia. }
      assert (Hwin : 0 <= inject_Z (Z.of_nat (length (List.filter isWin trades)))).
      { change 0 with (inject_Z 0). rewrite <- Zle_Qle. lia. }
      assert (Hle : inject_Z (Z.of_nat (length (List.filter isWin trades)))
                    <= inject_Z (Z.of_nat (length trades))).
      { rewrite <- Zle_Qle. lia. }
      split.
      * apply Qle_shift_div_l; [ exact Hlen | lra ].
      * apply Qle_shift_div_r; [ exact Hlen | lra ].
    + destruct (JS.ltb 0 _) eqn:El; [ | lra ].
      apply JSFacts.ltb_lt in El.
      apply Qle_shift_div_l; [ exact El | ].
      rewrite Qmult_0_l. apply sum_nonneg.
      apply List.Forall_forall. intros x Hx.
      apply in_map_iff in Hx as (t & <- & Ht).
      apply filter_In in Ht as [_ Ht]. apply JSFacts.ltb_lt in Ht. lra.
    + unfold Backtest.drawdown. apply drawdown_fold_nonneg. simpl. lra.
Qed.




End Replay.

(** ** The pre-market engine (blackscholes.ts) *)

Section PreMarket.

Local Open Scope Q_scope.

Context `{Transcendental}.

(** X30.  With a directional bias and a spot price of at least 40 the
    pre-market engine gives a prediction whose strike is the first multiple
    of 0.5 at or beyond the spot moved by 0.5 percent (up for BULLISH, down
    for BEARISH), and whose confidence is 65, or 70 when the volatility
    lies strictly between 0.3 and 0.5. *)
Theorem generatePreMarketPrediction_strike (ticker : string)
    (spotPrice volatility riskFreeRate : Q) (bias : Momentum.t) :
  40 <= spotPrice -> bias <> Momentum.NEUTRAL ->
  exists p,
    BlackScholes.generatePreMarketPrediction ticker spotPrice volatility
      riskFreeRate bias = Some p
    /\ pm_direction p
       = match bias with Momentum.BEARISH => PUT | _ => CALL end
    /\ (exists n : Z, pm_strike p * 2 == inject_Z n)
    /\ match pm_direction p with
       | CALL =>
           spotPrice * (1005 # 1000) <= pm_strike p
           /\ pm_strike p < spotPrice * (1005 # 1000) + (1 # 2)
       | PUT =>
           spotPrice * (995 # 1000) - (1 # 2) < pm_strike p
           /\ pm_strike p <= spotPrice * (995 # 1000)
       end
    /\ pm_confidence p
       == (if JS.ltb (3 # 10) volatility && JS.ltb volatility (5 # 10)
           then 70 else 65).
Proof.
  intros Hs Hb. unfold BlackScholes.generatePreMarketPrediction. cbv zeta.
  assert (Hconf : forall moneyness,
            - (2 # 100) < moneyness -> moneyness < 0 ->
            JS.min 100
              (JS.max 0
                 ((if JS.ltb (3 # 10) volatility && JS.ltb volatility (5 # 10)
                   then (if JS.ltb (- (2 # 100)) moneyness && JS.ltb moneyness 0
                         then 50 + 10 else 50) + 5
                   else (if JS.ltb (- (2 # 100)) moneyness && JS.ltb moneyness 0
                         then 50 + 10 else 50)) + 5))
            == (if JS.ltb (3 # 10) volatility && JS.ltb volatility (5 # 10)
                then 70 else 65)).
  { intros m Hlo Hhi.
    apply JSFacts.ltb_lt in Hlo. apply JSFacts.ltb_lt in Hhi.
    rewrite Hlo, Hhi. simpl andb.
    destruct (JS.ltb (3 # 10) volatility && JS.ltb volatility (5 # 10));
      vm_compute; reflexivity. }
  destruct bias; [ | | congruence ].
  - (* BULLISH *)
    remember ((spotPrice + spotPrice * (5 # 1000)) / (5 # 10)) as x eqn:Ex.
    remember (inject_Z (JS.ceil x) * (5 # 10)) as strike eqn:Estrike.
    assert (Hx : x == spotPrice * (1005 # 1000) * 2) by (rewrite Ex; field).
    pose proof (Qle_ceiling x) as Hc1.
    pose proof (Qceiling_lt x) as Hc2.
    unfold Z.sub in Hc2. rewrite inject_Z_plus, inject_Z_opp in Hc2.
    change (inject_Z 1) with 1 in Hc2. clear Ex.
    assert (B1 : spotPrice * (1005 # 1000) <= strike)
      by (rewrite Estrike; unfold JS.ceil; lra).
    assert (B2 : strike < spotPrice * (1005 # 1000) + (1 # 2))
      by (rewrite Estrike; unfold JS.ceil; lra).
    eexists. split; [ reflexivity | ]. cbn [pm_direction pm_strike pm_confidence].
    split; [ reflexivity | ].
    split; [ exists (JS.ceil x); rewrite Estrike; field | ].
    split; [ split; assumption | ].
    apply Hconf.
    + apply Qlt_shift_div_l; lra.
    + apply Qlt_shift_div_r; lra.
  - (* BEARISH *)
    remember ((spotPrice - spotPrice * (5 # 1000)) / (5 # 10)) as x eqn:Ex.
    remember (inject_Z (JS.floor x) * (5 # 10)) as strike eqn:Estrike.
    assert (Hx : x == spotPrice * (995 # 1000) * 2) by (rewrite Ex; field).
    pose proof (Qfloor_le x) as Hc1.
    pose proof (Qlt_floor x) as Hc2.
    rewrite inject_Z_plus in Hc2. change (inject_Z 1) with 1 in Hc2. clear Ex.
    assert (B1 : spotPrice * (995 # 1000) - (1 # 2) < strike)
      by (rewrite Estrike; unfold JS.floor; lra).
    assert (B2 : strike <= spotPrice * (995 # 1000))
      by (rewrite Estrike; unfold JS.floor; lra).
    eexists. split; [ reflexivity | ]. cbn [pm_direction pm_strike pm_confidence].
    split; [ reflexivity | ].
    split; [ exists (JS.floor x); rewrite Estrike; field | ].
    split; [ split; assumption | ].
    apply Hconf.
    + apply Qlt_shift_div_l; lra.
    + apply Qlt_shift_div_r; lra.
Qed.

End PreMarket.

(** ** The properties above on sample inputs *)

Lemma tick_idle_when_closed_witness :
  @Daemon.runPredictionCycle sampleTranscendental saturdayTick afterOneTick
  = afterOneTick.
Proof.
  apply (@tick_idle_when_closed sampleTranscendental).
  left. cbv zeta. left. reflexivity.
Defined.

Lemma stored_confidence_at_least_60_witness :
  List.Forall (fun r => (60 <= confidence r)%Q) (predictions (db afterTwoTicks)).
Proof.
  apply (@stored_confidence_at_least_60 sampleTranscendental).
  exact afterTwoTicks_reachable.
Defined.

Lemma tpomit_confidence_between_30_and_80_witness :
  (30 <= Parallax.sc_confidence
           (Parallax.score Parallax.DEFAULT_WEIGHTS valueProfile flatCandles 452)
      <= 80)%Q.
Proof.
  apply tpomit_confidence_between_30_and_80.
  unfold nonnegConfidenceWeights, Parallax.DEFAULT_WEIGHTS. simpl.
  repeat split; lra.
Defined.

Lemma selectStrike_out_of_the_money_witness :
  (452 <= Parallax.selectStrike 452 CALL 1
   /\ Parallax.selectStrike 452 PUT 1 <= 452)%Q.
Proof.
  destruct (selectStrike_out_of_the_money 452) as (_ & _ & _ & H).
  apply H. lra.
Defined.

Lemma orbSignal_breakout_threshold_witness :
  fst (Parallax.orbSignal sampleLevels 452) = Some CALL
  /\ (60 <= snd (Parallax.orbSignal sampleLevels 452) <= 75)%Q.
Proof.
  assert (Hr : (0 <= rangeSize sampleLevels)%Q) by (simpl; lra).
  pose proof (orbSignal_breakout_threshold sampleLevels 452 Hr) as P.
  change (ORB.getORBPosition 452 sampleLevels) with ORB.ABOVE in P.
  destruct (Parallax.orbSignal sampleLevels 452) as [direction confidence].
  destruct P as ([A B] & C & D). simpl fst. simpl snd.
  split; [ exact C | ]. split; [ | exact B ].
  apply D. vm_compute. discriminate.
Defined.

Lemma evolve_returns_first_created_genes_witness :
  match fst (Evolution.evolve sampleRandom emptyDB O) with
  | Some alpha => ~ (weightSum alpha == 1)%Q
  | None => False
  end.
Proof.
  rewrite (evolve_returns_first_created_genes sampleRandom emptyDB).
  - vm_compute. discriminate.
  - intros n. unfold sampleRandom. destruct (Nat.even n); split; lra.
Defined.

Lemma saveAlphaGenes_then_getActiveGenes_witness :
  Evolution.getActiveGenes
    (Evolution.saveAlphaGenes 5 "SPY" Evolution.DEFAULT_GENES 0 floor70DB) "SPY"
  = Evolution.DEFAULT_GENES.
Proof.
  destruct (saveAlphaGenes_then_getActiveGenes 5 "SPY" Evolution.DEFAULT_GENES 0
              floor70DB) as [A _].
  - vm_compute. lia.
  - intros r [<- | []] _. reflexivity.
  - exact A.
Defined.

Lemma calculateRSI_between_0_and_100_witness :
  exists v,
    Technicals.calculateRSI (map close flatCandles) 14 = Some v
    /\ (0 <= v <= 100)%Q.
Proof.
  apply (calculateRSI_between_0_and_100 (map close flatCandles) 14).
  - lia.
  - vm_compute. lia.
Defined.

Lemma calculateATR_not_negative_witness :
  exists v, Technicals.calculateATR flatCandles 14 = Some v /\ (0 <= v)%Q.
Proof.
  apply (calculateATR_not_negative flatCandles 14).
  - lia.
  - vm_compute. lia.
Defined.

Lemma calculateORB_extremes_witness :
  exists levels,
    ORB.calculateORB flatCandles = Some levels
    /\ (rangeSize levels == orb_high levels - orb_low levels)%Q.
Proof.
  destruct (calculateORB_extremes flatCandles) as (levels & E & _ & _ & _ & R & _).
  - vm_compute. discriminate.
  - exists levels. split; assumption.
Defined.

Lemma checkORBEntry_agrees_with_fromORB_witness :
  match ORB.checkORBEntry 452 sampleLevels Momentum.BULLISH with
  | Some e =>
      ORB.e_entry e
      = tp_entry (RiskCalculator.fromORB sampleLevels (entryDirection (ORB.signal e)))
  | None => False
  end.
Proof.
  destruct (ORB.checkORBEntry 452 sampleLevels Momentum.BULLISH) as [e | ] eqn:E.
  - exact (proj1 (checkORBEntry_agrees_with_fromORB _ _ _ _ E)).
  - vm_compute in E. discriminate.
Defined.

Lemma buildTPOProfile_value_area_witness :
  match TPO.buildTPOProfile flatCandles TPO.DEFAULT_CONFIG with
  | Some profile => (val profile <= poc profile <= vah profile)%Q
  | None => False
  end.
Proof.
  destruct (buildTPOProfile_value_area flatCandles TPO.DEFAULT_CONFIG) as [A B];
    [ reflexivity | ].
  destruct (TPO.buildTPOProfile flatCandles TPO.DEFAULT_CONFIG) as [profile | ].
  - now apply A.
  - destruct B as [profile Hp]; [ vm_compute; discriminate | | discriminate Hp ].
    intros c Hc. unfold flatCandles in Hc. apply in_map_iff in Hc as (i & <- & _).
    simpl. lra.
Defined.

Lemma fromOptionPremium_risk_reward_witness :
  (tp_riskReward (RiskCalculator.fromOptionPremium (120 # 100) (5 # 10) 2) == 2)%Q.
Proof.
  destruct (fromOptionPremium_risk_reward (120 # 100) (5 # 10) 2) as (A & _);
    [ lra | lra | ].
  rewrite A. reflexivity.
Defined.

Lemma gradeOne_verdict_witness :
  match Reconcile.gradeOne putDB putRow with
  | Some (pnl, won) =>
      (0 < JS.orElse (entryTrigger putRow) 0)%Q
      /\ (- JS.orElse (entryTrigger putRow) 0 < pnl)%Q
  | None => False
  end.
Proof.
  destruct (Reconcile.gradeOne putDB putRow) as [[pnl won] | ] eqn:E.
  - destruct (gradeOne_verdict _ _ _ _ E) as (A & _ & B & _). split; assumption.
  - vm_compute in E. discriminate.
Defined.


Lemma generatePreMarketPrediction_strike_witness :
  exists p,
    @BlackScholes.generatePreMarketPrediction sampleTranscendental "SPY" 452
      (25 # 100) (5 # 100) Momentum.BULLISH = Some p
    /\ pm_direction p = CALL.
Proof.
  destruct (@generatePreMarketPrediction_strike sampleTranscendental "SPY" 452
              (25 # 100) (5 # 100) Momentum.BULLISH) as (p & E & D & _);
    [ lra | discriminate | ].
  exists p. split; assumption.
Defined.
